(** * auto_yolo: the grid object layer ([auto_yolo/models/object_layer.py])

    A shallow embedding of [ObjectLayer], [GridObjectLayer] and
    [ConvGridObjectLayer] and the properties of their latent builders, of the
    sequential context builder and of the two [_call] methods.

    Conventions of the embedding.
    - A TensorFlow value of shape [batch, ..., C] is modelled one leading
      position at a time, as the vector along its last axis: [tensor] is
      [list R].  Every op the layer applies (clip, sigmoid, the blends, the
      affine rescales, [tf.split] and [tf.concat] along the last axis) acts
      along that axis only.  Floating-point numbers are idealised as real
      numbers; the one expression whose value depends on the rounding, the
      training-wheels blend, is also given in IEEE 754 single precision
      ([Float32]).
    - Python exceptions are the left summand of the result.
    - Each call of [tf.nn.sigmoid] records its operand: a computation returns
      its result together with the operands of the sigmoids it evaluated, in
      evaluation order.
    - Random draws are explicit arguments (the standard-normal draws behind
      [Normal(...).sample()], the uniform draws behind the Concrete
      relaxation). *)

From Stdlib Require Import String Reals Lra Lia ZArith List Bool Sorted.
From Stdlib Require Import Floats.SpecFloat.
Import ListNotations.

Set Implicit Arguments.

(** ** Exceptions and the result-with-trace monad *)

Inductive exn : Type :=
| AssertionError
| IndexError
| TypeError
| ValueError
| Exception (msg : string).

Definition M (A : Type) : Type := ((exn + A) * list R)%type.

Definition ret {A} (a : A) : M A := (inr a, []).
Definition raise {A} (e : exn) : M A := (inl e, []).

Definition bind {A B} (m : M A) (f : A -> M B) : M B :=
  match fst m with
  | inl e => (inl e, snd m)
  | inr a => (fst (f a), snd m ++ snd (f a))
  end.

Notation "x <- c ;; k" := (bind c (fun x => k))
  (at level 61, c at next level, right associativity).
Notation "' pat <- c ;; k" :=
  (bind c (fun x => match x with pat => k end))
  (at level 61, pat pattern, c at next level, right associativity).

(** What a computation returned, and the sigmoid operands it recorded. *)
Definition outcome {A} (m : M A) : exn + A := fst m.
Definition sigmoid_operands {A} (m : M A) : list R := snd m.

(** Python's [assert]. *)
Definition assert_ (c : bool) : M unit :=
  if c then ret tt else raise AssertionError.

(** [for x in xs: s = body x s], stopping at the first exception. *)
Fixpoint for_ {A S} (xs : list A) (body : A -> S -> M S) (s : S) : M S :=
  match xs with
  | [] => ret s
  | x :: xs' => s' <- body x s ;; for_ xs' body s'
  end.

(** [[f x for x in xs]] with a body that may raise. *)
Fixpoint mapM {A B} (f : A -> M B) (xs : list A) : M (list B) :=
  match xs with
  | [] => ret []
  | x :: xs' => y <- f x ;; ys <- mapM f xs' ;; ret (y :: ys)
  end.

(** Python's [range(n)] on integers (empty when [n <= 0]). *)
Definition range (n : Z) : list Z := map Z.of_nat (seq 0 (Z.to_nat n)).

(** ** Tensors and the TensorFlow primitives the layer uses *)

Definition tensor : Type := list R.

Open Scope R_scope.

Definition sigmoid (x : R) : R := 1 / (1 + exp (- x)).

(** [tf.clip_by_value]: values below [lo] become [lo], above [hi] become [hi]. *)
Definition clip (lo hi x : R) : R := Rmax (Rmin x hi) lo.
Definition tf_clip_by_value (t : tensor) (lo hi : R) : tensor := map (clip lo hi) t.

Definition tf_nn_sigmoid (t : tensor) : M tensor := (inr (map sigmoid t), t).

(** [tf.stop_gradient] is the identity on values. *)
Definition tf_stop_gradient (x : R) : R := x.

Definition tf_zeros_like (t : tensor) : tensor := map (fun _ => 0) t.
Definition tf_zeros (n : nat) : tensor := repeat 0 n.

Fixpoint map2 {A B C} (f : A -> B -> C) (xs : list A) (ys : list B) : list C :=
  match xs, ys with
  | x :: xs', y :: ys' => f x y :: map2 f xs' ys'
  | _, _ => []
  end.

(** Elementwise function of the position and the element. *)
Definition imap {A B} (f : nat -> A -> B) (xs : list A) : list B :=
  map2 f (seq 0 (length xs)) xs.

(** [Normal(loc, scale).sample()]: [loc + scale * eps] with [eps] the
    standard-normal draw at each position. *)
Definition Normal_sample (loc scale : tensor) (eps : nat -> R) : tensor :=
  imap (fun i ms => fst ms + snd ms * eps i) (combine loc scale).

(** [tf.split(t, sizes, axis=-1)]. *)
Fixpoint split_at (sizes : list nat) (t : tensor) : list tensor :=
  match sizes with
  | [] => []
  | n :: sizes' => firstn n t :: split_at sizes' (skipn n t)
  end.

Definition tf_split_sizes (sizes : list nat) (t : tensor) : M (list tensor) :=
  if (length t =? list_sum sizes)%nat then ret (split_at sizes t)
  else raise ValueError.

(** [tf.split(t, num, axis=-1)]: [num] pieces of equal width. *)
Definition tf_split (num : nat) (t : tensor) : M (list tensor) :=
  if (length t mod num =? 0)%nat
  then ret (split_at (repeat (length t / num)%nat num) t)
  else raise ValueError.

(** Tuple unpacking of the pieces. *)
Definition unpack2 {A} (l : list A) : M (A * A) :=
  match l with [a; b] => ret (a, b) | _ => raise ValueError end.
Definition unpack3 {A} (l : list A) : M (A * A * A) :=
  match l with [a; b; c] => ret (a, b, c) | _ => raise ValueError end.
Definition unpack4 {A} (l : list A) : M (A * A * A * A) :=
  match l with [a; b; c; d] => ret (a, b, c, d) | _ => raise ValueError end.

(** [tf.reshape] of a vector to a known width. *)
Definition tf_reshape (t : tensor) (n : nat) : M tensor :=
  if (length t =? n)%nat then ret t else raise ValueError.

Definition tf_to_float (b : bool) : R := if b then 1 else 0.

(** [tf.round]: to the nearest integer, ties to the even one. *)
Definition tf_round (x : R) : R :=
  let f := Int_part x in
  let d := x - IZR f in
  if Rlt_dec d (1 / 2) then IZR f
  else if Rlt_dec (1 / 2) d then IZR (f + 1)
  else if Z.even f then IZR f else IZR (f + 1).

Definition reduce_sum (t : tensor) : R := fold_right Rplus 0 t.

(** [tf.meshgrid(xs, ys)] with the default 'xy' indexing: two arrays of shape
    [(len(ys), len(xs))], the first holding [xs] along each row, the second
    holding [ys] down each column. *)
Definition tf_meshgrid (xs ys : list R) : list (list R) * list (list R) :=
  (map (fun _ => xs) ys, map (fun y => map (fun _ => y) xs) ys).

Definition tf_range (n : Z) : list R := map IZR (range n).

Definition grid_get (g : list (list R)) (i j : nat) : option R :=
  match nth_error g i with
  | Some row => nth_error row j
  | None => None
  end.

(** ** Single precision *)

(** The tensors of the layer are [tf.float32]: IEEE 754 binary32, 24 bits of
    precision, rounding to nearest with ties to even. *)
Module Float32.

Definition prec : Z := 24.
Definition emax : Z := 128.

Definition t : Type := spec_float.

Definition add (x y : t) : t := SFadd prec emax x y.




Definition tf_stop_gradient (x : t) : t := x.


End Float32.

(** ** Code of the repository that the sources do not include *)

(** Modelled from the spec: [auto_yolo.models.core.concrete_binary_pre_sigmoid_sample]
    is not among the sources.  The spec describes it as the continuous
    (Concrete / Gumbel-sigmoid) relaxation of a Bernoulli at its own
    temperature, a pure function of the log-odds, the temperature and a random
    source: before the sigmoid the relaxation is the log-odds plus logistic
    noise [ln u - ln (1 - u)], [u] uniform, divided by the temperature. *)
Definition concrete_relaxation (log_odds temperature u : R) : R :=
  (log_odds + (ln u - ln (1 - u))) / temperature.

(** The source image: its shape as [tf_shape(inp)] reports it, and its pixels. *)
Record Image : Type := {
  im_height : nat;
  im_width : nat;
  im_depth : nat;
  im_data : tensor
}.

(** The functions the layer calls and the sources do not define: the helper
    above, taken as a parameter so that what is proved of the layer holds for
    whatever it computes, and the image-space helpers used by the glimpse
    extraction. *)
Record Externals : Type := {
  concrete_binary_pre_sigmoid_sample : R -> R -> R -> R;
  coords_to_image_space :
    tensor * tensor * tensor * tensor -> nat * nat -> R * R -> bool ->
    tensor * tensor * tensor * tensor;
  (* snt.AffineGridWarper followed by the resampler chosen by
     [edge_resampler]: image, image shape, glimpse shape and box. *)
  extract_glimpse : bool -> Image -> nat * nat -> nat * nat -> tensor -> tensor;
  (* the initial value of tf.get_variable("edge_weights", shape=n) *)
  get_variable : nat -> tensor
}.

Definition core_externals
  (c : tensor * tensor * tensor * tensor -> nat * nat -> R * R -> bool ->
       tensor * tensor * tensor * tensor)
  (g : bool -> Image -> nat * nat -> nat * nat -> tensor -> tensor)
  (v : nat -> tensor) : Externals :=
  {| concrete_binary_pre_sigmoid_sample := concrete_relaxation;
     coords_to_image_space := c;
     extract_glimpse := g;
     get_variable := v |}.

(** ** The layer object *)

(** The configuration values ([Param()] attributes) a layer is built from. *)
Module Param.
Record t : Type := {
  object_shape : nat * nat;
  A : nat;
  training_wheels : R;
  noisy : bool;
  eval_noisy : bool;
  edge_resampler : bool;
  obj_temp : R;
  obj_concrete_temp : R;
  n_passthrough_features : nat;
  n_lookback : Z;
  yx_prior_mean : R;
  yx_prior_std : R;
  min_yx : R;
  max_yx : R;
  hw_prior_mean : R;
  hw_prior_std : R;
  min_hw : R;
  max_hw : R;
  anchor_box : R * R;
  z_prior_mean : R;
  z_prior_std : R;
  attr_prior_mean : R;
  attr_prior_std : R;
  n_objects_per_cell : Z;
  fixed_edge : bool   (* "edge" in self.fixed_weights *)
}.
End Param.

(** The attributes of a layer instance: its configuration, what [__init__]
    sets, and what the first [_call] caches. *)
Module Layer.
Record t : Type := {
  params : Param.t;
  training_wheels : R;
  obj_temp : R;
  obj_concrete_temp : R;
  pixels_per_cell : R * R;
  grid_offset : R * R;
  B : Z;
  yx_prior_mean : R;
  yx_prior_std : R;
  hw_prior_mean : R;
  hw_prior_std : R;
  anchor_box : R * R;
  flatten : bool;
  (* ScopedFunction's flag *)
  initialized : bool;
  (* cached by the first _call *)
  image_height : nat;
  image_width : nat;
  image_depth : nat;
  H : Z;
  W : Z;
  HWB : Z;
  is_training : bool;
  float_is_training : R;
  edge_weights : option tensor
}.

Definition object_shape (self : t) := Param.object_shape (params self).
Definition A (self : t) := Param.A (params self).
Definition noisy (self : t) := Param.noisy (params self).
Definition eval_noisy (self : t) := Param.eval_noisy (params self).
Definition edge_resampler (self : t) := Param.edge_resampler (params self).
Definition n_passthrough_features (self : t) := Param.n_passthrough_features (params self).
Definition n_lookback (self : t) := Param.n_lookback (params self).
Definition min_yx (self : t) := Param.min_yx (params self).
Definition max_yx (self : t) := Param.max_yx (params self).
Definition min_hw (self : t) := Param.min_hw (params self).
Definition max_hw (self : t) := Param.max_hw (params self).
End Layer.

(** [dps.utils.tf.build_scheduled_value]: the current value of a schedule. *)
Definition build_scheduled_value (v : R) : R := v.

Definition Rgtb (a b : R) : bool := if Rlt_dec b a then true else false.

(** ** ObjectLayer *)

Module ObjectLayer.

Definition _noisy (self : Layer.t) : R :=
  Layer.float_is_training self * tf_to_float (Layer.noisy self)
  + (1 - Layer.float_is_training self) * tf_to_float (Layer.eval_noisy self).

Definition std_nonlinearity (self : Layer.t) (std_logit : tensor) : M tensor :=
  s <- tf_nn_sigmoid (tf_clip_by_value std_logit (-10) 10) ;;
  ret (map2 (fun sg z => _noisy self * 2 * sg + (1 - _noisy self) * z)
            s (tf_zeros_like std_logit)).

Definition z_nonlinearity (self : Layer.t) (z_logit : tensor) : M tensor :=
  tf_nn_sigmoid (tf_clip_by_value z_logit (-10) 10).

End ObjectLayer.

(** ** Random draws and the dictionaries of the latent builders *)

(** The standard-normal draws behind the four samples of the box builder. *)
Record BoxNoise : Type := {
  eps_cell_y : nat -> R;
  eps_cell_x : nat -> R;
  eps_height : nat -> R;
  eps_width : nat -> R
}.

(** The dictionary [_build_box] returns. *)
Record BoxDict : Type := {
  cell_y : tensor;
  cell_x : tensor;
  height : tensor;
  width : tensor;
  local_box : tensor;
  cell_y_logit_mean : tensor;
  cell_x_logit_mean : tensor;
  height_logit_mean : tensor;
  width_logit_mean : tensor;
  cell_y_logit_std : tensor;
  cell_x_logit_std : tensor;
  height_logit_std : tensor;
  width_logit_std : tensor;
  yt : tensor;
  xt : tensor;
  ys : tensor;
  xs : tensor;
  normalized_box : tensor;
  ys_logit : tensor;
  xs_logit : tensor
}.

(** The dictionary [_build_obj] returns. *)
Record ObjDict : Type := {
  obj_log_odds : tensor;
  obj_prob : tensor;
  obj_pre_sigmoid : tensor;
  obj : tensor
}.

(** ** The program array *)

(** [np.empty((H, W, B), dtype=np.object)]: a 3-D array of Python objects,
    [None] where nothing was stored yet. *)
Record ndarray : Type := {
  shape : Z * Z * Z;
  item : Z -> Z -> Z -> option tensor
}.

Definition np_empty (n0 n1 n2 : Z) : M ndarray :=
  if ((n0 <? 0) || (n1 <? 0) || (n2 <? 0))%Z then raise ValueError
  else ret {| shape := (n0, n1, n2); item := fun _ _ _ => None |}.

(** numpy's index rule along one axis of length [n]: negative indices count
    from the end, anything else out of range raises. *)
Definition np_index (n i : Z) : option Z :=
  if ((0 <=? i) && (i <? n))%Z then Some i
  else if ((- n <=? i) && (i <? 0))%Z then Some (i + n)%Z
  else None.

Definition np_getitem (a : ndarray) (i j k : Z) : M (option tensor) :=
  let '(n0, n1, n2) := shape a in
  match np_index n0 i, np_index n1 j, np_index n2 k with
  | Some i', Some j', Some k' => ret (item a i' j' k')
  | _, _, _ => raise IndexError
  end.

Definition np_setitem (a : ndarray) (i j k : Z) (v : tensor) : M ndarray :=
  let '(n0, n1, n2) := shape a in
  match np_index n0 i, np_index n1 j, np_index n2 k with
  | Some i', Some j', Some k' =>
      ret {| shape := shape a;
             item := fun x y z =>
               if ((x =? i') && (y =? j') && (z =? k'))%Z then Some v
               else item a x y z |}
  | _, _, _ => raise IndexError
  end.

(** [tf.concat(values, axis=1)]: a [None] among the values is a type error. *)
Fixpoint all_some {A} (l : list (option A)) : option (list A) :=
  match l with
  | [] => Some []
  | None :: _ => None
  | Some x :: l' =>
      match all_some l' with Some xs => Some (x :: xs) | None => None end
  end.

Definition tf_concat (values : list (option tensor)) : M tensor :=
  match all_some values with
  | Some ts => ret (concat ts)
  | None => raise TypeError
  end.

(** ** Inputs and outputs of the forward pass *)

(** The deterministic feature map [inp_features]: its spatial shape and the
    feature vector [inp_features[:, h, w, :]] of each cell. *)
Record FeatureMap : Type := {
  fm_H : Z;
  fm_W : Z;
  fm_at : Z -> Z -> tensor
}.

(** The sub-networks of the sequential layer ([cfg.build_lateral] and the
    object encoder): input, output size, training flag. *)
Record LateralNets : Type := {
  box_network : tensor -> nat -> bool -> tensor;
  attr_network : tensor -> nat -> bool -> tensor;
  z_network : tensor -> nat -> bool -> tensor;
  obj_network : tensor -> nat -> bool -> tensor;
  object_encoder : tensor -> nat * nat * nat -> bool -> tensor
}.

(** The random draws used while building one cell-slot. *)
Record CellNoise : Type := {
  box_eps : BoxNoise;
  attr_eps : nat -> R;
  z_eps : nat -> R;
  obj_u : nat -> R
}.

(** The dictionary [built] of one cell-slot. *)
Record Built : Type := {
  box : BoxDict;
  attr_mean : tensor;
  attr_std : tensor;
  attr : tensor;
  glimpse : tensor;
  z_logit_mean : tensor;
  z_logit_std : tensor;
  z_logit : tensor;
  z : tensor;
  objd : ObjDict
}.

(** The returned bundle: field [k] of [objects] is
    [tf.stack([r[k] for r in results], axis=1)], that is [map k (stacked o)]. *)
Record Objects : Type := {
  stacked : list Built;
  prop_state : option (list tensor);
  prior_prop_state : option (list tensor);
  pred_n_objects : R;
  pred_n_objects_hard : R
}.

Definition objects_obj (o : Objects) : list tensor :=
  map (fun r => obj (objd r)) (stacked o).

(** [tf.reduce_sum(x, axis=(1, 2))] of a stack of vectors. *)
Definition reduce_sum_12 (x : list tensor) : R := reduce_sum (map reduce_sum x).

Definition product3 (xs ys zs : list Z) : list (Z * Z * Z) :=
  flat_map (fun x => flat_map (fun y => map (fun z => (x, y, z)) zs) ys) xs.

(** The attribute updates of a first call ([if not self.initialized:]); the
    flag itself is set by [ScopedFunction] after [_call] has returned. *)
Definition set_initialized (self : Layer.t) (inp : Image) (H W HWB : Z)
    (is_training : bool) : Layer.t :=
  {| Layer.params := Layer.params self;
     Layer.training_wheels := Layer.training_wheels self;
     Layer.obj_temp := Layer.obj_temp self;
     Layer.obj_concrete_temp := Layer.obj_concrete_temp self;
     Layer.pixels_per_cell := Layer.pixels_per_cell self;
     Layer.grid_offset := Layer.grid_offset self;
     Layer.B := Layer.B self;
     Layer.yx_prior_mean := Layer.yx_prior_mean self;
     Layer.yx_prior_std := Layer.yx_prior_std self;
     Layer.hw_prior_mean := Layer.hw_prior_mean self;
     Layer.hw_prior_std := Layer.hw_prior_std self;
     Layer.anchor_box := Layer.anchor_box self;
     Layer.flatten := Layer.flatten self;
     Layer.initialized := Layer.initialized self;
     Layer.image_height := im_height inp;
     Layer.image_width := im_width inp;
     Layer.image_depth := im_depth inp;
     Layer.H := H;
     Layer.W := W;
     Layer.HWB := HWB;
     Layer.is_training := is_training;
     Layer.float_is_training := tf_to_float is_training;
     Layer.edge_weights := Layer.edge_weights self |}.

(** [self.edge_weights = tf.get_variable(...)]. *)
Definition set_edge_weights (self : Layer.t) (ew : tensor) : Layer.t :=
  {| Layer.params := Layer.params self;
     Layer.training_wheels := Layer.training_wheels self;
     Layer.obj_temp := Layer.obj_temp self;
     Layer.obj_concrete_temp := Layer.obj_concrete_temp self;
     Layer.pixels_per_cell := Layer.pixels_per_cell self;
     Layer.grid_offset := Layer.grid_offset self;
     Layer.B := Layer.B self;
     Layer.yx_prior_mean := Layer.yx_prior_mean self;
     Layer.yx_prior_std := Layer.yx_prior_std self;
     Layer.hw_prior_mean := Layer.hw_prior_mean self;
     Layer.hw_prior_std := Layer.hw_prior_std self;
     Layer.anchor_box := Layer.anchor_box self;
     Layer.flatten := Layer.flatten self;
     Layer.initialized := Layer.initialized self;
     Layer.image_height := Layer.image_height self;
     Layer.image_width := Layer.image_width self;
     Layer.image_depth := Layer.image_depth self;
     Layer.H := Layer.H self;
     Layer.W := Layer.W self;
     Layer.HWB := Layer.HWB self;
     Layer.is_training := Layer.is_training self;
     Layer.float_is_training := Layer.float_is_training self;
     Layer.edge_weights := Some ew |}.

(** ** GridObjectLayer *)

Module GridObjectLayer.
Import ObjectLayer.

(** The attributes [ObjectLayer.__init__] followed by
    [GridObjectLayer.__init__] leave on the instance ([flatten] is the keyword
    [ConvGridObjectLayer.__init__] stores first); neither raises.  The
    attributes cached by the first call (the image shape, [H], [W], [HWB],
    [is_training], [float_is_training]) do not exist on the Python object
    yet, where reading one raises [AttributeError]: the values given to them
    here are placeholders, which [set_initialized] overwrites in [_call]
    before anything reads them. *)
Definition constructed (p : Param.t) (pixels_per_cell : R * R)
    (grid_offset : option (R * R)) (flatten : bool) : Layer.t :=
  {| Layer.params := p;
         Layer.training_wheels := build_scheduled_value (Param.training_wheels p);
         Layer.obj_temp := build_scheduled_value (Param.obj_temp p);
         Layer.obj_concrete_temp := build_scheduled_value (Param.obj_concrete_temp p);
         Layer.pixels_per_cell := pixels_per_cell;
         Layer.grid_offset :=
           match grid_offset with None => (0, 0) | Some g => g end;
         Layer.B := Param.n_objects_per_cell p;
         Layer.yx_prior_mean := build_scheduled_value (Param.yx_prior_mean p);
         Layer.yx_prior_std := build_scheduled_value (Param.yx_prior_std p);
         Layer.hw_prior_mean := build_scheduled_value (Param.hw_prior_mean p);
         Layer.hw_prior_std := build_scheduled_value (Param.hw_prior_std p);
         Layer.anchor_box := Param.anchor_box p;
         Layer.flatten := flatten;
         Layer.initialized := false;
         Layer.image_height := 0%nat;
         Layer.image_width := 0%nat;
         Layer.image_depth := 0%nat;
         Layer.H := 0%Z;
         Layer.W := 0%Z;
         Layer.HWB := 0%Z;
         Layer.is_training := false;
         Layer.float_is_training := 0;
         Layer.edge_weights := None |}.

Definition __init__ (p : Param.t) (pixels_per_cell : R * R)
    (grid_offset : option (R * R)) (flatten : bool) : M Layer.t :=
  ret (constructed p pixels_per_cell grid_offset flatten).

(** The grid indices [(h, w)] of the position being built: the pair passed as
    [hw], or, when [hw] is [None], the entries at that position of the two
    arrays of [tf.meshgrid(tf.range(W), tf.range(H))]. *)
Definition cell_indices (self : Layer.t) (hw : option (Z * Z)) (pos : nat * nat)
  : M (R * R) :=
  match hw with
  | None =>
      let '(w, h) := tf_meshgrid (tf_range (Layer.W self)) (tf_range (Layer.H self)) in
      match grid_get h (fst pos) (snd pos), grid_get w (fst pos) (snd pos) with
      | Some hv, Some wv => ret (hv, wv)
      | _, _ => raise ValueError
      end
  | Some (h, w) => ret (IZR h, IZR w)
  end.

Definition _build_box (self : Layer.t) (box_params : tensor)
    (hw : option (Z * Z)) (pos : nat * nat) (eps : BoxNoise) : M BoxDict :=
  '(mean, log_std) <- (parts <- tf_split 2 box_params ;; unpack2 parts) ;;
  std <- std_nonlinearity self log_std ;;
  let tw := Layer.training_wheels self in
  let mean := map (fun m => tw * tf_stop_gradient m + (1 - tw) * m) mean in
  let std := map (fun s => tw * tf_stop_gradient s + (1 - tw) * s) std in
  '(cell_y_mean, cell_x_mean, height_mean, width_mean) <-
      (parts <- tf_split 4 mean ;; unpack4 parts) ;;
  '(cell_y_std, cell_x_std, height_std, width_std) <-
      (parts <- tf_split 4 std ;; unpack4 parts) ;;
  let cell_y_logit := Normal_sample cell_y_mean cell_y_std (eps_cell_y eps) in
  let cell_x_logit := Normal_sample cell_x_mean cell_x_std (eps_cell_x eps) in
  let height_logit := Normal_sample height_mean height_std (eps_height eps) in
  let width_logit := Normal_sample width_mean width_std (eps_width eps) in
  (* cell y/x transform *)
  cell_y <- tf_nn_sigmoid (tf_clip_by_value cell_y_logit (-10) 10) ;;
  cell_x <- tf_nn_sigmoid (tf_clip_by_value cell_x_logit (-10) 10) ;;
  _ <- assert_ (Rgtb (Layer.max_yx self) (Layer.min_yx self)) ;;
  let cell_y :=
    map (fun v => (Layer.max_yx self - Layer.min_yx self) * v + Layer.min_yx self) cell_y in
  let cell_x :=
    map (fun v => (Layer.max_yx self - Layer.min_yx self) * v + Layer.min_yx self) cell_x in
  (* height/width transform *)
  height <- tf_nn_sigmoid (tf_clip_by_value height_logit (-10) 10) ;;
  width <- tf_nn_sigmoid (tf_clip_by_value width_logit (-10) 10) ;;
  _ <- assert_ (Rgtb (Layer.max_hw self) (Layer.min_hw self)) ;;
  let height :=
    map (fun v => (Layer.max_hw self - Layer.min_hw self) * v + Layer.min_hw self) height in
  let width :=
    map (fun v => (Layer.max_hw self - Layer.min_hw self) * v + Layer.min_hw self) width in
  let local_box := cell_y ++ cell_x ++ height ++ width in
  (* image-normalized box parameters *)
  let ys := height in
  let xs := width in
  '(h, w) <- cell_indices self hw pos ;;
  let yt :=
    map (fun cy => (fst (Layer.pixels_per_cell self) * (cy + h)
                    + fst (Layer.grid_offset self)) / fst (Layer.anchor_box self)) cell_y in
  let xt :=
    map (fun cx => (snd (Layer.pixels_per_cell self) * (cx + w)
                    + snd (Layer.grid_offset self)) / snd (Layer.anchor_box self)) cell_x in
  let normalized_box := yt ++ xt ++ ys ++ xs in
  let ys_logit := height_logit in
  let xs_logit := width_logit in
  ret {| cell_y := cell_y; cell_x := cell_x; height := height; width := width;
         local_box := local_box;
         cell_y_logit_mean := cell_y_mean; cell_x_logit_mean := cell_x_mean;
         height_logit_mean := height_mean; width_logit_mean := width_mean;
         cell_y_logit_std := cell_y_std; cell_x_logit_std := cell_x_std;
         height_logit_std := height_std; width_logit_std := width_std;
         yt := yt; xt := xt; ys := ys; xs := xs;
         normalized_box := normalized_box;
         ys_logit := ys_logit; xs_logit := xs_logit |}.

Definition _build_obj (ext : Externals) (self : Layer.t) (obj_logit : tensor)
    (u : nat -> R) : M ObjDict :=
  let tw := Layer.training_wheels self in
  let obj_logit := map (fun x => tw * tf_stop_gradient x + (1 - tw) * x) obj_logit in
  let obj_log_odds :=
    tf_clip_by_value (map (fun x => x / Layer.obj_temp self) obj_logit) (-10) 10 in
  let obj_pre_sigmoid :=
    imap (fun i lo =>
            _noisy self
            * concrete_binary_pre_sigmoid_sample ext lo (Layer.obj_concrete_temp self) (u i)
            + (1 - _noisy self) * lo) obj_log_odds in
  obj <- tf_nn_sigmoid obj_pre_sigmoid ;;
  obj_prob <- tf_nn_sigmoid obj_log_odds ;;
  ret {| obj_log_odds := obj_log_odds;
         obj_prob := obj_prob;
         obj_pre_sigmoid := obj_pre_sigmoid;
         obj := obj |}.


(** *** The sequential context builder *)


(** The list [context] that [_get_sequential_context] has assembled when it
    reaches its [return]. *)
Definition context_entries (self : Layer.t) (program : ndarray) (h w b : Z)
    (edge_element : tensor) : M (list (option tensor)) :=
  let context := [] in
  let grid_size := (2 * Layer.n_lookback self + 1)%Z in
  let n_grid_locs := Z.quot (grid_size ^ 2) 2 in
  (* Surrounding locations *)
  context <-
    for_ (range n_grid_locs) (fun idx context =>
      let _i := (Z.quot idx grid_size + h - Layer.n_lookback self)%Z in
      let _j := (idx mod grid_size + w - Layer.n_lookback self)%Z in
      for_ (range (Layer.B self)) (fun k context =>
        if ((_i <? 0) || (_j <? 0) || (_i >=? fst (fst (shape program)))
            || (_j >=? snd (fst (shape program))))%Z
        then ret (context ++ [Some edge_element])
        else e <- np_getitem program _i _j k ;; ret (context ++ [e]))
      context)
    context ;;
  (* Current location, but previous anchor boxes *)
  let offset := (- (Layer.B self - 1) + b)%Z in
  for_ (range (Layer.B self - 1)) (fun k context =>
    let _k := (k + offset)%Z in
    if (_k <? 0)%Z then ret (context ++ [Some edge_element])
    else e <- np_getitem program h w _k ;; ret (context ++ [e]))
  context.

Definition _get_sequential_context (self : Layer.t) (program : ndarray)
    (h w b : Z) (edge_element : tensor) : M tensor :=
  context <- context_entries self program h w b edge_element ;;
  match context with
  | [] => ret (firstn 0 edge_element)
  | _ => tf_concat context
  end.


(** *** The forward pass *)

Section Call.
Variable ext : Externals.
Variable nets : LateralNets.

(** The glimpse of one box: the crop at the predicted box in posterior mode,
    zeros otherwise. *)
Definition build_glimpse (self : Layer.t) (inp : Image) (is_posterior : bool)
    (normalized_box : tensor) : M tensor :=
  let glimpse_size :=
    (fst (Layer.object_shape self) * snd (Layer.object_shape self)
     * Layer.image_depth self)%nat in
  if is_posterior then
    '(yt, xt, ys, xs) <- (parts <- tf_split 4 normalized_box ;; unpack4 parts) ;;
    let '(yt, xt, ys, xs) :=
      coords_to_image_space ext (yt, xt, ys, xs)
        (Layer.image_height self, Layer.image_width self)
        (Layer.anchor_box self) false in
    let _boxes :=
      xs ++ map (fun x => 2 * x - 1) xt ++ ys ++ map (fun y => 2 * y - 1) yt in
    let glimpse :=
      extract_glimpse ext (Layer.edge_resampler self) inp
        (Layer.image_height self, Layer.image_width self)
        (Layer.object_shape self) _boxes in
    tf_reshape glimpse glimpse_size
  else ret (tf_zeros glimpse_size).

(** The body of the loop over [(h, w, b)]: builds one cell-slot, appends its
    dictionary to [results] and stores its program entry. *)
Definition build_cell (self : Layer.t) (inp : Image) (inp_features : FeatureMap)
    (is_posterior : bool) (is_posterior_tf edge_element : tensor)
    (total_sample_size : nat) (noise : Z -> Z -> Z -> CellNoise)
    (hwb : Z * Z * Z) (state : ndarray * list Built)
  : M (ndarray * list Built) :=
  let '(h, w, b) := hwb in
  let '(program, results) := state in
  let eps := noise h w b in
  context <- _get_sequential_context self program h w b edge_element ;;
  let base_features := fm_at inp_features h w ++ context ++ is_posterior_tf in
  (* box *)
  let layer_inp := base_features in
  let n_features := Layer.n_passthrough_features self in
  let output_size := 8%nat in
  let network_output :=
    box_network nets layer_inp (output_size + n_features) (Layer.is_training self) in
  '(rep_input, features) <-
      (parts <- tf_split_sizes [output_size; n_features] network_output ;;
       unpack2 parts) ;;
  _built_box <- _build_box self rep_input (Some (h, w)) (0%nat, 0%nat) (box_eps eps) ;;
  let partial_program := local_box _built_box in
  (* attr *)
  glimpse <- build_glimpse self inp is_posterior (normalized_box _built_box) ;;
  encoded_glimpse <-
    tf_reshape (object_encoder nets glimpse (1%nat, 1%nat, Layer.A self)
                  (Layer.is_training self)) (Layer.A self) ;;
  let encoded_glimpse :=
    if negb is_posterior then tf_zeros_like encoded_glimpse else encoded_glimpse in
  let layer_inp := base_features ++ features ++ encoded_glimpse ++ partial_program in
  let network_output :=
    attr_network nets layer_inp (2 * Layer.A self + n_features) (Layer.is_training self) in
  '(attr_mean, attr_log_std, features) <-
      (parts <- tf_split_sizes [Layer.A self; Layer.A self; n_features] network_output ;;
       unpack3 parts) ;;
  attr_std <- std_nonlinearity self attr_log_std ;;
  let attr := Normal_sample attr_mean attr_std (attr_eps eps) in
  let partial_program := partial_program ++ attr in
  (* z *)
  let layer_inp := base_features ++ features ++ partial_program in
  let n_features := Layer.n_passthrough_features self in
  let network_output :=
    z_network nets layer_inp (2 + n_features) (Layer.is_training self) in
  '(z_mean, z_log_std, features) <-
      (parts <- tf_split_sizes [1%nat; 1%nat; n_features] network_output ;;
       unpack3 parts) ;;
  z_std <- std_nonlinearity self z_log_std ;;
  let tw := Layer.training_wheels self in
  let z_mean := map (fun m => tw * tf_stop_gradient m + (1 - tw) * m) z_mean in
  let z_std := map (fun s => tw * tf_stop_gradient s + (1 - tw) * s) z_std in
  let z_logit := Normal_sample z_mean z_std (z_eps eps) in
  z <- z_nonlinearity self z_logit ;;
  let partial_program := partial_program ++ z in
  (* obj *)
  let layer_inp := base_features ++ features ++ partial_program in
  let rep_input := obj_network nets layer_inp 1 (Layer.is_training self) in
  _built_obj <- _build_obj ext self rep_input (obj_u eps) ;;
  let partial_program := partial_program ++ obj _built_obj in
  (* final *)
  let built :=
    {| box := _built_box;
       attr_mean := attr_mean; attr_std := attr_std; attr := attr; glimpse := glimpse;
       z_logit_mean := z_mean; z_logit_std := z_std; z_logit := z_logit; z := z;
       objd := _built_obj |} in
  let results := results ++ [built] in
  program <- np_setitem program h w b partial_program ;;
  _ <- assert_ (length partial_program =? total_sample_size)%nat ;;
  ret (program, results).

(** The learned edge element: the edge weights, with a sigmoid on the box and
    presence parts. *)
Definition build_edge_element (edge_weights : tensor) (sizes : list nat)
    (sigmoids : list bool) : M tensor :=
  _edge_weights <- tf_split_sizes sizes edge_weights ;;
  _edge_weights <-
    mapM (fun ews : tensor * bool => if snd ews then tf_nn_sigmoid (fst ews) else ret (fst ews))
         (combine _edge_weights sigmoids) ;;
  ret (concat _edge_weights).

Definition _call (self : Layer.t) (inp : Image) (inp_features : FeatureMap)
    (is_training : bool) (is_posterior : bool) (prop_state_in : option tensor)
    (noise : Z -> Z -> Z -> CellNoise) : M (Layer.t * Objects) :=
  let H := fm_H inp_features in
  let W := fm_W inp_features in
  let self :=
    if Layer.initialized self then self
    else set_initialized self inp H W (H * W * Layer.B self)%Z is_training in
  (* the edge element *)
  let sizes := [4%nat; Layer.A self; 1%nat; 1%nat] in
  let sigmoids := [true; false; false; true] in
  let total_sample_size := list_sum sizes in
  let self :=
    match Layer.edge_weights self with
    | None => set_edge_weights self (get_variable ext total_sample_size)
    | Some _ => self
    end in
  edge_element <-
    build_edge_element
      (match Layer.edge_weights self with Some ew => ew | None => [] end)
      sizes sigmoids ;;
  (* containers for storing built program *)
  program <- np_empty H W (Layer.B self) ;;
  (* build the program *)
  let is_posterior_tf :=
    map2 Rmult [1; 1] (if is_posterior then [1; 0] else [0; 1]) in
  '(program, results) <-
    for_ (product3 (range H) (range W) (range (Layer.B self)))
         (build_cell self inp inp_features is_posterior is_posterior_tf
                     edge_element total_sample_size noise)
         (program, []) ;;
  match results with
  | [] => raise IndexError
  | _ :: _ =>
      let tiled :=
        match prop_state_in with
        | None => None
        | Some ps => Some (repeat ps (Z.to_nat (Layer.HWB self)))
        end in
      let objs := map (fun r => obj (objd r)) results in
      ret (self,
           {| stacked := results;
              prop_state := tiled;
              prior_prop_state := tiled;
              pred_n_objects := reduce_sum_12 objs;
              pred_n_objects_hard := reduce_sum_12 (map (map tf_round) objs) |})
  end.

End Call.

End GridObjectLayer.

(** ** ConvGridObjectLayer *)

Module ConvGridObjectLayer.
Import ObjectLayer.

(** The sub-networks of the convolutional layer ([cfg.build_conv_lateral]):
    size-preserving convolutions, from the whole grid of inputs to the output
    vector of each cell; and the object encoder, applied object-wise. *)
Record Nets : Type := {
  box_network : FeatureMap -> nat -> bool -> Z -> Z -> tensor;
  attr_network : FeatureMap -> nat -> bool -> Z -> Z -> tensor;
  z_network : FeatureMap -> nat -> bool -> Z -> Z -> tensor;
  obj_network : FeatureMap -> nat -> bool -> Z -> Z -> tensor;
  object_encoder : tensor -> nat -> bool -> tensor
}.

Definition __init__ (p : Param.t) (pixels_per_cell : R * R)
    (grid_offset : option (R * R)) (flatten : bool) : M Layer.t :=
  GridObjectLayer.__init__ p pixels_per_cell grid_offset flatten.

(** The cells of an [H] by [W] grid, row by row. *)
Definition cells (H W : Z) : list (Z * Z) :=
  flat_map (fun i => map (fun j => (i, j)) (range W)) (range H).

(** The value stored for cell [(i, j)] in a row-major list over the grid. *)
Definition at_cell {X} (W : Z) (l : list X) (i j : Z) : option X :=
  nth_error l (Z.to_nat (i * W + j)).

Definition grid_of {X} (H W : Z) (l : list X) (f : X -> tensor) : FeatureMap :=
  {| fm_H := H; fm_W := W;
     fm_at := fun i j => match at_cell W l i j with Some x => f x | None => [] end |}.

Section Call.
Variable ext : Externals.
Variable nets : Nets.

Definition build_glimpse (self : Layer.t) (inp : Image) (is_posterior : bool)
    (normalized_box : tensor) : M tensor :=
  if is_posterior then
    '(yt, xt, ys, xs) <- (parts <- tf_split 4 normalized_box ;; unpack4 parts) ;;
    let '(yt, xt, ys, xs) :=
      coords_to_image_space ext (yt, xt, ys, xs)
        (Layer.image_height self, Layer.image_width self)
        (Layer.anchor_box self) false in
    _boxes <-
      tf_reshape
        (xs ++ map (fun x => 2 * x - 1) xt ++ ys ++ map (fun y => 2 * y - 1) yt) 4 ;;
    ret (extract_glimpse ext (Layer.edge_resampler self) inp
           (Layer.image_height self, Layer.image_width self)
           (Layer.object_shape self) _boxes)
  else
    ret (tf_zeros (fst (Layer.object_shape self) * snd (Layer.object_shape self)
                   * Layer.image_depth self)).

(** The forward pass.  Each stage of the source is one batched op over the
    whole grid; here a stage runs cell by cell, in row-major order. *)
Definition _call (self : Layer.t) (inp : Image) (inp_features : FeatureMap)
    (is_training : bool) (is_posterior : bool) (prop_state_in : option tensor)
    (noise : Z -> Z -> CellNoise) : M (Layer.t * Objects) :=
  let H := fm_H inp_features in
  let W := fm_W inp_features in
  if negb (Layer.B self =? 1)%Z then raise (Exception "NotImplemented") else
  let self :=
    if Layer.initialized self then self
    else set_initialized self inp H W (H * W)%Z is_training in
  let is_posterior_tf :=
    map2 Rmult [1; 1] (if is_posterior then [1; 0] else [0; 1]) in
  let base_features := fun i j => fm_at inp_features i j ++ is_posterior_tf in
  let n_features := Layer.n_passthrough_features self in
  (* box *)
  let layer_inp := {| fm_H := H; fm_W := W; fm_at := base_features |} in
  let output_size := 8%nat in
  let network_output :=
    box_network nets layer_inp (output_size + n_features) (Layer.is_training self) in
  boxes <-
    mapM (fun ij : Z * Z =>
            let '(i, j) := ij in
            '(rep_input, features) <-
                (parts <- tf_split_sizes [output_size; n_features] (network_output i j) ;;
                 unpack2 parts) ;;
            b <- GridObjectLayer._build_box self rep_input None
                   (Z.to_nat i, Z.to_nat j) (box_eps (noise i j)) ;;
            ret (ij, b, features))
         (cells H W) ;;
  (* attr *)
  glimpses <-
    mapM (fun c : Z * Z * BoxDict * tensor =>
            let '(ij, b, features) := c in
            glimpse <- build_glimpse self inp is_posterior (normalized_box b) ;;
            encoded_glimpse <-
              tf_reshape (object_encoder nets glimpse (Layer.A self)
                            (Layer.is_training self)) (Layer.A self) ;;
            let encoded_glimpse :=
              if negb is_posterior then tf_zeros_like encoded_glimpse
              else encoded_glimpse in
            ret (ij, b, features, glimpse, encoded_glimpse))
         boxes ;;
  let layer_inp :=
    grid_of H W glimpses
      (fun c : Z * Z * BoxDict * tensor * tensor * tensor =>
         let '(ij, b, features, glimpse, encoded_glimpse) := c in
         base_features (fst ij) (snd ij) ++ features ++ encoded_glimpse ++ local_box b) in
  let network_output :=
    attr_network nets layer_inp (2 * Layer.A self + n_features) (Layer.is_training self) in
  attrs <-
    mapM (fun c : Z * Z * BoxDict * tensor * tensor * tensor =>
            let '(ij, b, _, glimpse, _) := c in
            '(attr_mean, attr_log_std, features) <-
                (parts <- tf_split_sizes [Layer.A self; Layer.A self; n_features]
                            (network_output (fst ij) (snd ij)) ;;
                 unpack3 parts) ;;
            attr_std <- std_nonlinearity self attr_log_std ;;
            let attr :=
              Normal_sample attr_mean attr_std (attr_eps (noise (fst ij) (snd ij))) in
            ret (ij, b, glimpse, (attr_mean, attr_std, attr), features))
         glimpses ;;
  (* z *)
  let layer_inp :=
    grid_of H W attrs
      (fun c : Z * Z * BoxDict * tensor * (tensor * tensor * tensor) * tensor =>
         let '(ij, b, _, (_, _, attr), features) := c in
         base_features (fst ij) (snd ij) ++ features ++ local_box b ++ attr) in
  let network_output :=
    z_network nets layer_inp (2 + n_features) (Layer.is_training self) in
  zs <-
    mapM (fun c : Z * Z * BoxDict * tensor * (tensor * tensor * tensor) * tensor =>
            let '(ij, b, glimpse, a, _) := c in
            '(z_mean, z_log_std, features) <-
                (parts <- tf_split_sizes [1%nat; 1%nat; n_features]
                            (network_output (fst ij) (snd ij)) ;;
                 unpack3 parts) ;;
            z_std <- std_nonlinearity self z_log_std ;;
            let tw := Layer.training_wheels self in
            let z_mean := map (fun m => tw * tf_stop_gradient m + (1 - tw) * m) z_mean in
            let z_std := map (fun s => tw * tf_stop_gradient s + (1 - tw) * s) z_std in
            let z_logit :=
              Normal_sample z_mean z_std (z_eps (noise (fst ij) (snd ij))) in
            z <- z_nonlinearity self z_logit ;;
            ret (ij, b, glimpse, a, (z_mean, z_std, z_logit, z), features))
         attrs ;;
  (* obj *)
  let layer_inp :=
    grid_of H W zs
      (fun c : Z * Z * BoxDict * tensor * (tensor * tensor * tensor)
               * (tensor * tensor * tensor * tensor) * tensor =>
         let '(ij, b, _, (_, _, attr), (_, _, _, z), features) := c in
         base_features (fst ij) (snd ij) ++ features ++ local_box b ++ attr ++ z) in
  let rep_input := obj_network nets layer_inp 1 (Layer.is_training self) in
  results <-
    mapM (fun c : Z * Z * BoxDict * tensor * (tensor * tensor * tensor)
                  * (tensor * tensor * tensor * tensor) * tensor =>
            let '(ij, b, glimpse, (attr_mean, attr_std, attr),
                  (z_mean, z_std, z_logit, z), _) := c in
            o <- GridObjectLayer._build_obj ext self (rep_input (fst ij) (snd ij))
                   (obj_u (noise (fst ij) (snd ij))) ;;
            ret {| box := b;
                   attr_mean := attr_mean; attr_std := attr_std; attr := attr;
                   glimpse := glimpse;
                   z_logit_mean := z_mean; z_logit_std := z_std;
                   z_logit := z_logit; z := z;
                   objd := o |})
         zs ;;
  (* final *)
  let tiled :=
    match prop_state_in with
    | None => None
    | Some ps => Some (repeat ps (length (cells H W)))
    end in
  (* flatten: every field is reshaped to (batch_size, HWB, ...) *)
  _ <- (if Layer.flatten self
        then if (Z.of_nat (length results) =? Layer.HWB self)%Z
             then ret tt else raise ValueError
        else ret tt) ;;
  (* misc *)
  let flat_objects := concat (map (fun r => obj (objd r)) results) in
  ret (self,
       {| stacked := results;
          prop_state := tiled;
          prior_prop_state := tiled;
          pred_n_objects := reduce_sum flat_objects;
          pred_n_objects_hard := reduce_sum (map tf_round flat_objects) |}).

End Call.
End ConvGridObjectLayer.

(** * Specification vocabulary *)

Import ObjectLayer GridObjectLayer.

(** ** Ranges of values *)

(** A value within the clipping interval [[-10, 10]]. *)
Definition clipped10 (x : R) : Prop := -10 <= x <= 10.

(** A value in [[0, 1]]. *)
Definition unit_interval (x : R) : Prop := 0 <= x <= 1.

(** A value in [[lo, hi]]. *)
Definition within (lo hi x : R) : Prop := lo <= x <= hi.

(** The affine rescale of a clipped, squashed logit into [[lo, hi]]. *)
Definition rescale (lo hi logit : R) : R :=
  (hi - lo) * sigmoid (clip (-10) 10 logit) + lo.

(** A cell-local center coordinate, normalized to the anchor box. *)
Definition to_anchor (pixels_per_cell offset anchor index c : R) : R :=
  (pixels_per_cell * (c + index) + offset) / anchor.

(** ** The box builder *)

(** The standard deviation the layer derives from a logit:
    [_noisy * 2 * sigmoid(clip(logit, -10, 10))]. *)
Definition std_of (self : Layer.t) (logit : R) : R :=
  _noisy self * 2 * sigmoid (clip (-10) 10 logit).

(** How the fields of the dictionary returned by the box builder are related,
    for the cell indices [(h, w)] the builder used. *)
Record box_relations (self : Layer.t) (eps : BoxNoise) (h w : R) (d : BoxDict) : Prop := {
  br_cell_y :
    cell_y d = map (rescale (Layer.min_yx self) (Layer.max_yx self))
                   (Normal_sample (cell_y_logit_mean d) (cell_y_logit_std d) (eps_cell_y eps));
  br_cell_x :
    cell_x d = map (rescale (Layer.min_yx self) (Layer.max_yx self))
                   (Normal_sample (cell_x_logit_mean d) (cell_x_logit_std d) (eps_cell_x eps));
  br_height :
    height d = map (rescale (Layer.min_hw self) (Layer.max_hw self)) (ys_logit d);
  br_width :
    width d = map (rescale (Layer.min_hw self) (Layer.max_hw self)) (xs_logit d);
  br_ys_logit :
    ys_logit d = Normal_sample (height_logit_mean d) (height_logit_std d) (eps_height eps);
  br_xs_logit :
    xs_logit d = Normal_sample (width_logit_mean d) (width_logit_std d) (eps_width eps);
  br_yt :
    yt d = map (to_anchor (fst (Layer.pixels_per_cell self)) (fst (Layer.grid_offset self))
                          (fst (Layer.anchor_box self)) h) (cell_y d);
  br_xt :
    xt d = map (to_anchor (snd (Layer.pixels_per_cell self)) (snd (Layer.grid_offset self))
                          (snd (Layer.anchor_box self)) w) (cell_x d);
  br_ys : ys d = height d;
  br_xs : xs d = width d;
  br_local_box : local_box d = cell_y d ++ cell_x d ++ height d ++ width d;
  br_normalized_box : normalized_box d = yt d ++ xt d ++ ys d ++ xs d
}.

(** The cell a call of the box builder is about: the pair [hw] when given, the
    position in the grid otherwise. *)
Definition cell_of (hw : option (Z * Z)) (pos : nat * nat) : R * R :=
  match hw with
  | Some (h, w) => (IZR h, IZR w)
  | None => (IZR (Z.of_nat (fst pos)), IZR (Z.of_nat (snd pos)))
  end.

(** When the cell is read from the grid, the position lies in the [H] by [W]
    grid cached on the layer. *)
Definition in_grid (self : Layer.t) (hw : option (Z * Z)) (pos : nat * nat) : Prop :=
  match hw with
  | Some _ => True
  | None => (Z.of_nat (fst pos) < Layer.H self)%Z /\ (Z.of_nat (snd pos) < Layer.W self)%Z
  end.

(** ** The sequential context *)

Section ContextVocabulary.
Local Open Scope Z_scope.

(** The test of the source for a window position outside the program array. *)
Definition out_of_bounds (program : ndarray) (i j : Z) : bool :=
  (i <? 0) || (j <? 0) || (i >=? fst (fst (shape program)))
  || (j >=? snd (fst (shape program))).

(** Row [_i] and column [_j] of window position [idx] around cell [(h, w)]. *)
Definition window_row (self : Layer.t) (h idx : Z) : Z :=
  Z.quot idx (2 * Layer.n_lookback self + 1) + h - Layer.n_lookback self.

Definition window_col (self : Layer.t) (w idx : Z) : Z :=
  idx mod (2 * Layer.n_lookback self + 1) + w - Layer.n_lookback self.

(** The context entry for slot [k] of window position [idx]. *)
Definition neighbour_entry (self : Layer.t) (program : ndarray) (h w : Z)
    (edge_element : tensor) (idx k : Z) : option tensor :=
  if out_of_bounds program (window_row self h idx) (window_col self w idx)
  then Some edge_element
  else item program (window_row self h idx) (window_col self w idx) k.

(** The context entry number [k] among the earlier slots of the cell. *)
Definition earlier_slot_entry (self : Layer.t) (program : ndarray) (h w b : Z)
    (edge_element : tensor) (k : Z) : option tensor :=
  if k - (Layer.B self - 1) + b <? 0 then Some edge_element
  else item program h w (k - (Layer.B self - 1) + b).

(** The number of window positions that precede the centre. *)
Definition n_grid_locs (self : Layer.t) : Z := (2 * Layer.n_lookback self + 1) ^ 2 / 2.

(** [context_size = B * floor((2L+1)^2 / 2) + (B - 1)]. *)
Definition context_size (self : Layer.t) : Z :=
  Layer.B self * ((2 * Layer.n_lookback self + 1) ^ 2 / 2) + (Layer.B self - 1).

(** [(h, w, b)] is a cell-slot of the grid the program array was made for. *)
Record cell_slot (self : Layer.t) (program : ndarray) (h w b : Z) : Prop := {
  cs_h : 0 <= h < fst (fst (shape program));
  cs_w : 0 <= w < snd (fst (shape program));
  cs_b : 0 <= b < Layer.B self;
  cs_B : Layer.B self <= snd (shape program)
}.

(** [(i, j, k)] precedes [(h, w, b)] in raster-then-slot order. *)
Definition raster_before (h w b i j k : Z) : Prop :=
  i < h \/ (i = h /\ j < w) \/ (i = h /\ j = w /\ k < b).

(** The same order on triples: [p] precedes [q]. *)
Definition slot_before (p q : Z * Z * Z) : Prop :=
  raster_before (fst (fst q)) (snd (fst q)) (snd q)
                (fst (fst p)) (snd (fst p)) (snd p).

(** Every cell-slot of the grid that precedes [(h, w, b)] in raster-then-slot
    order holds a program entry of width [S]. *)
Definition filled_before (self : Layer.t) (program : ndarray) (S : nat)
    (h w b : Z) : Prop :=
  forall i j k,
    0 <= i < fst (fst (shape program)) -> 0 <= j < snd (fst (shape program)) ->
    0 <= k < Layer.B self -> raster_before h w b i j k ->
    exists t, item program i j k = Some t /\ length t = S.

(** A stored entry of width [S]. *)
Definition entry_of_width (S : nat) (e : option tensor) : Prop :=
  exists t, e = Some t /\ length t = S.

End ContextVocabulary.

(** ** The forward pass *)

(** [total_sample_size]: the width of one program entry. *)
Definition sample_size (self : Layer.t) : nat :=
  list_sum [4%nat; Layer.A self; 1%nat; 1%nat].

(** The program array after [program[h, w, b] = t]. *)
Definition store (program : ndarray) (h w b : Z) (t : tensor) : ndarray :=
  {| shape := shape program;
     item := fun x y z =>
       if ((x =? h) && (y =? w) && (z =? b))%Z then Some t else item program x y z |}.

(** The presence of a cell-slot is a single value in [[0, 1]]. *)
Definition presence_ok (built : Built) : Prop :=
  length (obj (objd built)) = 1%nat /\ Forall unit_interval (obj (objd built)).

(** The presence dictionary of a cell-slot is what the presence builder
    returns for the output of the presence network. *)
Definition presence_from_network (ext : Externals) (nets : LateralNets)
    (self : Layer.t) (built : Built) : Prop :=
  exists x u,
    outcome (_build_obj ext self (obj_network nets x 1%nat (Layer.is_training self)) u)
    = inr (objd built).

(** What the forward pass relies on from its collaborators and configuration:
    the sub-networks return vectors of the requested width, the glimpse
    extractor returns a crop of the requested shape, the cached image depth is
    that of the image, the box ranges are not empty and the lookback radius is
    not negative. *)
Record cell_contract (ext : Externals) (nets : LateralNets) (self : Layer.t)
    (inp : Image) : Prop := {
  ct_box : forall x n t, length (box_network nets x n t) = n;
  ct_attr : forall x n t, length (attr_network nets x n t) = n;
  ct_z : forall x n t, length (z_network nets x n t) = n;
  ct_obj : forall x n t, length (obj_network nets x n t) = n;
  ct_encoder :
    forall g t,
      length (object_encoder nets g (1%nat, 1%nat, Layer.A self) t) = Layer.A self;
  ct_glimpse :
    forall r ish osh boxes,
      length (extract_glimpse ext r inp ish osh boxes)
      = (fst osh * snd osh * im_depth inp)%nat;
  ct_depth : Layer.image_depth self = im_depth inp;
  ct_yx : Layer.min_yx self < Layer.max_yx self;
  ct_hw : Layer.min_hw self < Layer.max_hw self;
  ct_lookback : (0 <= Layer.n_lookback self)%Z
}.

(** The layer as the forward pass uses it: with the image shape, the grid
    shape and the training flag cached on a first call, and the edge weights
    created when there are none. *)
Definition prepared (ext : Externals) (self : Layer.t) (inp : Image)
    (inp_features : FeatureMap) (is_training : bool) : Layer.t :=
  let self :=
    if Layer.initialized self then self
    else set_initialized self inp (fm_H inp_features) (fm_W inp_features)
           (fm_H inp_features * fm_W inp_features * Layer.B self)%Z is_training in
  match Layer.edge_weights self with
  | None =>
      set_edge_weights self
        (get_variable ext (list_sum [4%nat; Layer.A self; 1%nat; 1%nat]))
  | Some _ => self
  end.

(** What a call relies on: the contract of each cell-slot, a variable store
    that returns variables of the requested shape, edge weights (if the layer
    has them already) of the width of a program entry, and, on a layer that
    was called before, an image of the depth cached then. *)
Record call_contract (ext : Externals) (nets : LateralNets) (self : Layer.t)
    (inp : Image) : Prop := {
  cc_box : forall x n t, length (box_network nets x n t) = n;
  cc_attr : forall x n t, length (attr_network nets x n t) = n;
  cc_z : forall x n t, length (z_network nets x n t) = n;
  cc_obj : forall x n t, length (obj_network nets x n t) = n;
  cc_encoder :
    forall g t,
      length (object_encoder nets g (1%nat, 1%nat, Layer.A self) t) = Layer.A self;
  cc_glimpse :
    forall r ish osh boxes,
      length (extract_glimpse ext r inp ish osh boxes)
      = (fst osh * snd osh * im_depth inp)%nat;
  cc_variable : forall n, length (get_variable ext n) = n;
  cc_edge :
    forall ew, Layer.edge_weights self = Some ew -> length ew = sample_size self;
  cc_cached : Layer.initialized self = true -> Layer.image_depth self = im_depth inp;
  cc_yx : Layer.min_yx self < Layer.max_yx self;
  cc_hw : Layer.min_hw self < Layer.max_hw self;
  cc_lookback : (0 <= Layer.n_lookback self)%Z
}.

(** The loop invariant: the program array has the shape of the grid, every
    visited cell-slot holds an entry of the width of a program entry, and
    [results] holds one dictionary per visited cell-slot, each with a single
    presence value in [0, 1]. *)
Definition loop_invariant (self : Layer.t) (H W : Z) (done : list (Z * Z * Z))
    (state : ndarray * list Built) : Prop :=
  shape (fst state) = (H, W, Layer.B self)
  /\ (forall i j k, In (i, j, k) done ->
        entry_of_width (sample_size self) (item (fst state) i j k))
  /\ length (snd state) = length done
  /\ Forall presence_ok (snd state).


(** The same layer with another value of the [training_wheels] schedule. *)
Definition with_training_wheels (self : Layer.t) (w : R) : Layer.t :=
  {| Layer.params := Layer.params self;
     Layer.training_wheels := w;
     Layer.obj_temp := Layer.obj_temp self;
     Layer.obj_concrete_temp := Layer.obj_concrete_temp self;
     Layer.pixels_per_cell := Layer.pixels_per_cell self;
     Layer.grid_offset := Layer.grid_offset self;
     Layer.B := Layer.B self;
     Layer.yx_prior_mean := Layer.yx_prior_mean self;
     Layer.yx_prior_std := Layer.yx_prior_std self;
     Layer.hw_prior_mean := Layer.hw_prior_mean self;
     Layer.hw_prior_std := Layer.hw_prior_std self;
     Layer.anchor_box := Layer.anchor_box self;
     Layer.flatten := Layer.flatten self;
     Layer.initialized := Layer.initialized self;
     Layer.image_height := Layer.image_height self;
     Layer.image_width := Layer.image_width self;
     Layer.image_depth := Layer.image_depth self;
     Layer.H := Layer.H self;
     Layer.W := Layer.W self;
     Layer.HWB := Layer.HWB self;
     Layer.is_training := Layer.is_training self;
     Layer.float_is_training := Layer.float_is_training self;
     Layer.edge_weights := Layer.edge_weights self |}.

(** ** Concrete configurations *)

(** A configuration with two slots per cell and lookback radius 1. *)
Definition demo_params : Param.t :=
  {| Param.object_shape := (1%nat, 1%nat);
     Param.A := 1%nat;
     Param.training_wheels := 0;
     Param.noisy := true;
     Param.eval_noisy := false;
     Param.edge_resampler := false;
     Param.obj_temp := 1;
     Param.obj_concrete_temp := 1;
     Param.n_passthrough_features := 0%nat;
     Param.n_lookback := 1%Z;
     Param.yx_prior_mean := 0;
     Param.yx_prior_std := 1;
     Param.min_yx := 0;
     Param.max_yx := 1;
     Param.hw_prior_mean := 0;
     Param.hw_prior_std := 1;
     Param.min_hw := 0;
     Param.max_hw := 1;
     Param.anchor_box := (1, 1);
     Param.z_prior_mean := 0;
     Param.z_prior_std := 1;
     Param.attr_prior_mean := 0;
     Param.attr_prior_std := 1;
     Param.n_objects_per_cell := 2%Z;
     Param.fixed_edge := false |}.

(** The same configuration with an empty box-center range. *)
Definition inverted_range_params : Param.t :=
  {| Param.object_shape := (1%nat, 1%nat);
     Param.A := 1%nat;
     Param.training_wheels := 0;
     Param.noisy := true;
     Param.eval_noisy := false;
     Param.edge_resampler := false;
     Param.obj_temp := 1;
     Param.obj_concrete_temp := 1;
     Param.n_passthrough_features := 0%nat;
     Param.n_lookback := 1%Z;
     Param.yx_prior_mean := 0;
     Param.yx_prior_std := 1;
     Param.min_yx := 1;
     Param.max_yx := 0;
     Param.hw_prior_mean := 0;
     Param.hw_prior_std := 1;
     Param.min_hw := 0;
     Param.max_hw := 1;
     Param.anchor_box := (1, 1);
     Param.z_prior_mean := 0;
     Param.z_prior_std := 1;
     Param.attr_prior_mean := 0;
     Param.attr_prior_std := 1;
     Param.n_objects_per_cell := 2%Z;
     Param.fixed_edge := false |}.

(** A one-pixel image. *)
Definition demo_image : Image :=
  {| im_height := 1; im_width := 1; im_depth := 1; im_data := [0] |}.

(** The Concrete relaxation, image-space coordinates left as they are, black
    glimpses and zero-initialised variables. *)
Definition demo_externals : Externals :=
  core_externals (fun b _ _ _ => b)
    (fun _ inp _ osh _ => repeat 0 (fst osh * snd osh * im_depth inp))
    (fun n => repeat 0 n).

(** A layer built from [demo_params] whose first call was in training mode. *)
Definition demo_layer : Layer.t :=
  set_initialized (constructed demo_params (1, 1) None false) demo_image 3 3 18 true.

(** In evaluation mode [demo_layer] is not noisy. *)
Definition demo_eval_layer : Layer.t :=
  set_initialized (constructed demo_params (1, 1) None false) demo_image 3 3 18 false.

(** A layer whose first call saw a 2 by 3 feature map. *)
Definition demo_conv_layer : Layer.t :=
  set_initialized (constructed demo_params (12, 12) None true) demo_image 2 3 6 true.

(** Draws at the mean of each distribution. *)
Definition zero_box_noise : BoxNoise :=
  {| eps_cell_y := fun _ => 0; eps_cell_x := fun _ => 0;
     eps_height := fun _ => 0; eps_width := fun _ => 0 |}.

Definition zero_cell_noise : CellNoise :=
  {| box_eps := zero_box_noise;
     attr_eps := fun _ => 0;
     z_eps := fun _ => 0;
     obj_u := fun _ => 1 / 2 |}.

(** A 2 by 2 feature map of zero features. *)
Definition demo_features : FeatureMap :=
  {| fm_H := 2; fm_W := 2; fm_at := fun _ _ => [0; 0] |}.

(** Sub-networks that output zeros of the requested width. *)
Definition demo_nets : LateralNets :=
  {| box_network := fun _ n _ => repeat 0 n;
     attr_network := fun _ n _ => repeat 0 n;
     z_network := fun _ n _ => repeat 0 n;
     obj_network := fun _ n _ => repeat 0 n;
     object_encoder := fun _ s _ => repeat 0 (fst (fst s) * snd (fst s) * snd s) |}.

(** The same sub-networks with a presence network that outputs logit 1. *)
Definition keen_nets : LateralNets :=
  {| box_network := fun _ n _ => repeat 0 n;
     attr_network := fun _ n _ => repeat 0 n;
     z_network := fun _ n _ => repeat 0 n;
     obj_network := fun _ n _ => repeat 1 n;
     object_encoder := fun _ s _ => repeat 0 (fst (fst s) * snd (fst s) * snd s) |}.

Definition demo_conv_nets : ConvGridObjectLayer.Nets :=
  {| ConvGridObjectLayer.box_network := fun _ n _ _ _ => repeat 0 n;
     ConvGridObjectLayer.attr_network := fun _ n _ _ _ => repeat 0 n;
     ConvGridObjectLayer.z_network := fun _ n _ _ _ => repeat 0 n;
     ConvGridObjectLayer.obj_network := fun _ n _ _ _ => repeat 0 n;
     ConvGridObjectLayer.object_encoder := fun _ n _ => repeat 0 n |}.

(** A 3 by 3 grid with two slots per cell, every entry stored. *)
Definition demo_program : ndarray :=
  {| shape := (3%Z, 3%Z, 2%Z); item := fun _ _ _ => Some (repeat 0 7) |}.

(** ** Further vocabulary and configurations *)

(** A value that is zero. *)
Definition is_zero (x : R) : Prop := x = 0.

(** A 3 by 3 grid with two slots per cell in which nothing is stored yet. *)
Definition empty_program : ndarray :=
  {| shape := (3%Z, 3%Z, 2%Z); item := fun _ _ _ => None |}.

(** A configuration with one slot per cell and no lookback. *)
Definition solo_params : Param.t :=
  {| Param.object_shape := (1%nat, 1%nat);
     Param.A := 1%nat;
     Param.training_wheels := 0;
     Param.noisy := true;
     Param.eval_noisy := false;
     Param.edge_resampler := false;
     Param.obj_temp := 1;
     Param.obj_concrete_temp := 1;
     Param.n_passthrough_features := 0%nat;
     Param.n_lookback := 0%Z;
     Param.yx_prior_mean := 0;
     Param.yx_prior_std := 1;
     Param.min_yx := 0;
     Param.max_yx := 1;
     Param.hw_prior_mean := 0;
     Param.hw_prior_std := 1;
     Param.min_hw := 0;
     Param.max_hw := 1;
     Param.anchor_box := (1, 1);
     Param.z_prior_mean := 0;
     Param.z_prior_std := 1;
     Param.attr_prior_mean := 0;
     Param.attr_prior_std := 1;
     Param.n_objects_per_cell := 1%Z;
     Param.fixed_edge := false |}.

Definition solo_layer : Layer.t :=
  set_initialized (constructed solo_params (1, 1) None false) demo_image 3 3 9 true.

(** A feature map without rows. *)
Definition no_features : FeatureMap :=
  {| fm_H := 0; fm_W := 2; fm_at := fun _ _ => [0; 0] |}.

(** Another one-pixel image. *)
Definition white_image : Image :=
  {| im_height := 1; im_width := 1; im_depth := 1; im_data := [1] |}.

(** The recurrent state tiled once per cell-slot:
    [tf.tile(prop_state[0:1, None], (batch_size, HWB, 1))]. *)
Definition tiled (n : Z) (prop_state_in : option tensor) : option (list tensor) :=
  match prop_state_in with
  | None => None
  | Some ps => Some (repeat ps (Z.to_nat n))
  end.

(** What the dictionary built for the cell [(h, w)] holds: one box, with its
    center within [[min_yx, max_yx]] of the cell and anchored at the cell, its
    size within [[min_hw, max_hw]], one depth strictly between 0 and 1 and presence
    values in [[0, 1]]. *)
Record cell_ok (self : Layer.t) (h w : Z) (built : Built) : Prop := {
  co_one :
    length (cell_y (box built)) = 1%nat /\ length (cell_x (box built)) = 1%nat
    /\ length (height (box built)) = 1%nat /\ length (width (box built)) = 1%nat
    /\ length (z built) = 1%nat;
  co_cell_y : Forall (within (Layer.min_yx self) (Layer.max_yx self)) (cell_y (box built));
  co_cell_x : Forall (within (Layer.min_yx self) (Layer.max_yx self)) (cell_x (box built));
  co_height : Forall (within (Layer.min_hw self) (Layer.max_hw self)) (height (box built));
  co_width : Forall (within (Layer.min_hw self) (Layer.max_hw self)) (width (box built));
  co_yt :
    yt (box built)
    = map (to_anchor (fst (Layer.pixels_per_cell self)) (fst (Layer.grid_offset self))
                     (fst (Layer.anchor_box self)) (IZR h)) (cell_y (box built));
  co_xt :
    xt (box built)
    = map (to_anchor (snd (Layer.pixels_per_cell self)) (snd (Layer.grid_offset self))
                     (snd (Layer.anchor_box self)) (IZR w)) (cell_x (box built));
  co_ys : ys (box built) = height (box built);
  co_xs : xs (box built) = width (box built);
  co_z : Forall (fun v => 0 < v < 1) (z built);
  co_obj : Forall unit_interval (obj (objd built))
}.

(** * Properties *)

(** ** The monad *)

Lemma bind_inr A B (m : M A) (f : A -> M B) (b : B) :
  outcome (bind m f) = inr b ->
  exists a, outcome m = inr a /\ outcome (f a) = inr b.
Proof.
  unfold outcome, bind. destruct (fst m) as [e | a]; cbn; intros E.
  - discriminate.
  - exists a. split; [reflexivity | exact E].
Qed.

Lemma bind_ok A B (m : M A) (f : A -> M B) (a : A) :
  outcome m = inr a -> outcome (bind m f) = outcome (f a).
Proof. unfold outcome, bind. intros ->. reflexivity. Qed.

Lemma bind_raise A B (m : M A) (f : A -> M B) (e : exn) :
  outcome m = inl e -> outcome (bind m f) = inl e.
Proof. unfold outcome, bind. intros ->. reflexivity. Qed.

Lemma bind_ext A B (m : M A) (f g : A -> M B) :
  (forall a, f a = g a) -> bind m f = bind m g.
Proof.
  intros E. unfold bind. destruct (fst m) as [e | a]; [reflexivity |].
  rewrite E. reflexivity.
Qed.

Lemma operands_bind A B (P : R -> Prop) (m : M A) (f : A -> M B) :
  Forall P (sigmoid_operands m) ->
  (forall a, Forall P (sigmoid_operands (f a))) ->
  Forall P (sigmoid_operands (bind m f)).
Proof.
  unfold sigmoid_operands, bind. intros Hm Hf.
  destruct (fst m) as [e | a]; cbn; [exact Hm |].
  apply Forall_app. split; [exact Hm | apply Hf].
Qed.

Lemma for_ext A S (xs : list A) (f g : A -> S -> M S) (s : S) :
  (forall x s', f x s' = g x s') -> for_ xs f s = for_ xs g s.
Proof.
  intros E. revert s. induction xs as [| x xs IH]; intros s; cbn [for_].
  - reflexivity.
  - rewrite E. apply bind_ext. exact IH.
Qed.

Lemma bind_ret_l A B (a : A) (f : A -> M B) : bind (ret a) f = f a.
Proof. unfold bind, ret. cbn. destruct (f a). reflexivity. Qed.

Lemma bind_assoc A B C (m : M A) (f : A -> M B) (g : B -> M C) :
  bind (bind m f) g = bind m (fun a => bind (f a) g).
Proof.
  unfold bind. destruct (fst m) as [e | a]; cbn; [reflexivity |].
  destruct (fst (f a)) as [e | b]; cbn; [reflexivity |].
  rewrite app_assoc. reflexivity.
Qed.

Lemma for_app A S (xs ys : list A) (body : A -> S -> M S) (s : S) :
  for_ (xs ++ ys) body s = (s' <- for_ xs body s ;; for_ ys body s').
Proof.
  revert s. induction xs as [| x xs IH]; intros s; cbn [for_ app].
  - rewrite bind_ret_l. reflexivity.
  - rewrite bind_assoc. apply bind_ext. exact IH.
Qed.

(** ** Sigmoid, clip and round *)

Lemma sigmoid_range (x : R) : 0 < sigmoid x < 1.
Proof.
  unfold sigmoid. pose proof (exp_pos (- x)) as He.
  split.
  - apply Rdiv_lt_0_compat; lra.
  - apply Rmult_lt_reg_r with (1 + exp (- x)); [lra |].
    unfold Rdiv. rewrite Rmult_assoc, Rinv_l; lra.
Qed.

Lemma sigmoid_unit (x : R) : unit_interval (sigmoid x).
Proof. pose proof (sigmoid_range x). unfold unit_interval. lra. Qed.

Lemma clip_range (lo hi x : R) : lo <= hi -> lo <= clip lo hi x <= hi.
Proof.
  intros Hle. unfold clip, Rmax, Rmin.
  destruct (Rle_dec x hi); destruct (Rle_dec _ lo); lra.
Qed.

Lemma clip_clipped10 (x : R) : clipped10 (clip (-10) 10 x).
Proof. apply clip_range. lra. Qed.

Lemma tf_clip_by_value_clipped10 (t : tensor) :
  Forall clipped10 (tf_clip_by_value t (-10) 10).
Proof.
  unfold tf_clip_by_value. apply Forall_forall. intros y Hy.
  apply in_map_iff in Hy. destruct Hy as [x [<- _]]. apply clip_clipped10.
Qed.

Lemma map_sigmoid_unit (t : tensor) : Forall unit_interval (map sigmoid t).
Proof.
  apply Forall_forall. intros y Hy.
  apply in_map_iff in Hy. destruct Hy as [x [<- _]]. apply sigmoid_unit.
Qed.

Lemma tf_round_unit (x : R) :
  unit_interval x -> tf_round x = 0 \/ tf_round x = 1.
Proof.
  unfold unit_interval, tf_round. intros [H0 H1].
  destruct (base_Int_part x) as [Hlo Hhi].
  assert (Hf : Int_part x = 0%Z \/ Int_part x = 1%Z).
  { assert (-1 < IZR (Int_part x)) by lra.
    assert (IZR (Int_part x) < 2) by lra.
    apply lt_IZR in H, H2. lia. }
  destruct Hf as [-> | ->]; cbn [Z.even Z.add];
    repeat destruct (Rlt_dec _ _); cbn; auto; try lra.
Qed.

Lemma reduce_sum_le_length (t : tensor) :
  Forall (fun x => x = 0 \/ x = 1) t -> reduce_sum t <= INR (length t).
Proof.
  induction 1 as [| x t Hx _ IH].
  - cbn. lra.
  - change (reduce_sum (x :: t)) with (x + reduce_sum t).
    change (length (x :: t)) with (S (length t)). rewrite S_INR.
    destruct Hx; lra.
Qed.

Lemma blend_id (w x : R) : w * tf_stop_gradient x + (1 - w) * x = x.
Proof. unfold tf_stop_gradient. ring. Qed.

Lemma map_blend_id (w : R) (t : tensor) :
  map (fun x => w * tf_stop_gradient x + (1 - w) * x) t = t.
Proof.
  induction t as [| x t IH]; cbn; [reflexivity |].
  rewrite blend_id, IH. reflexivity.
Qed.

(** ** The sigmoid operands of the builders *)

Lemma operands_ret A (P : R -> Prop) (a : A) : Forall P (sigmoid_operands (ret a)).
Proof. constructor. Qed.

Lemma operands_raise A (P : R -> Prop) (e : exn) :
  Forall P (sigmoid_operands (@raise A e)).
Proof. constructor. Qed.

Lemma operands_assert (P : R -> Prop) (c : bool) :
  Forall P (sigmoid_operands (assert_ c)).
Proof. destruct c; constructor. Qed.

Lemma operands_tf_split (P : R -> Prop) (n : nat) (t : tensor) :
  Forall P (sigmoid_operands (tf_split n t)).
Proof. unfold tf_split. destruct (_ =? _)%nat; constructor. Qed.

Lemma operands_tf_split_sizes (P : R -> Prop) (sizes : list nat) (t : tensor) :
  Forall P (sigmoid_operands (tf_split_sizes sizes t)).
Proof. unfold tf_split_sizes. destruct (_ =? _)%nat; constructor. Qed.

Lemma operands_unpack2 A (P : R -> Prop) (l : list A) :
  Forall P (sigmoid_operands (unpack2 l)).
Proof. destruct l as [| a [| b [| c l]]]; constructor. Qed.

Lemma operands_unpack4 A (P : R -> Prop) (l : list A) :
  Forall P (sigmoid_operands (unpack4 l)).
Proof. destruct l as [| a [| b [| c [| d [| e l]]]]]; constructor. Qed.

Lemma operands_sigmoid_clip (t : tensor) :
  Forall clipped10 (sigmoid_operands (tf_nn_sigmoid (tf_clip_by_value t (-10) 10))).
Proof. apply tf_clip_by_value_clipped10. Qed.

Lemma operands_cell_indices (P : R -> Prop) self hw pos :
  Forall P (sigmoid_operands (cell_indices self hw pos)).
Proof.
  unfold cell_indices. destruct hw as [[h w] |]; [constructor |].
  cbn. destruct (grid_get _ _ _); [| constructor].
  destruct (grid_get _ _ _); constructor.
Qed.

Lemma std_nonlinearity_operands self t :
  Forall clipped10 (sigmoid_operands (std_nonlinearity self t)).
Proof.
  unfold std_nonlinearity.
  apply operands_bind; [apply operands_sigmoid_clip | intros; apply operands_ret].
Qed.

Lemma z_nonlinearity_operands self t :
  Forall clipped10 (sigmoid_operands (z_nonlinearity self t)).
Proof. apply operands_sigmoid_clip. Qed.

Lemma _build_box_operands self bp hw pos eps :
  Forall clipped10 (sigmoid_operands (_build_box self bp hw pos eps)).
Proof.
  unfold _build_box.
  apply operands_bind.
  { apply operands_bind; [apply operands_tf_split | intros; apply operands_unpack2]. }
  intros [mean log_std].
  apply operands_bind; [apply std_nonlinearity_operands |]. intros std.
  apply operands_bind.
  { apply operands_bind; [apply operands_tf_split | intros; apply operands_unpack4]. }
  intros [[[cym cxm] hm] wm].
  apply operands_bind.
  { apply operands_bind; [apply operands_tf_split | intros; apply operands_unpack4]. }
  intros [[[cys cxs] hs] ws].
  repeat (apply operands_bind;
          [first [apply operands_sigmoid_clip | apply operands_assert
                 | apply operands_cell_indices] | intros ?]).
  match goal with c : (R * R)%type |- _ => destruct c end.
  apply operands_ret.
Qed.

(** ** The box builder *)

Lemma Rgtb_true (a b : R) : Rgtb a b = true <-> b < a.
Proof. unfold Rgtb. destruct (Rlt_dec b a); split; intros; try easy. Qed.

Lemma assert_inr (c : bool) (u : unit) : outcome (assert_ c) = inr u -> c = true.
Proof. destruct c; [reflexivity | discriminate]. Qed.

Tactic Notation "inv_bind" hyp(H) "as" simple_intropattern(a) ident(Ha) :=
  apply bind_inr in H; destruct H as [a [Ha H]].

Lemma _build_box_inr self bp hw pos eps d :
  outcome (_build_box self bp hw pos eps) = inr d ->
  Layer.min_yx self < Layer.max_yx self /\
  Layer.min_hw self < Layer.max_hw self /\
  exists h w,
    outcome (cell_indices self hw pos) = inr (h, w) /\ box_relations self eps h w d.
Proof.
  intros E. unfold _build_box in E.
  inv_bind E as [mean log_std] Esplit.
  inv_bind E as std Estd.
  inv_bind E as [[[cym cxm] hm] wm] Emean.
  inv_bind E as [[[cys cxs] hs] ws] Estds.
  inv_bind E as cy Ecy. inv_bind E as cx Ecx. inv_bind E as u1 Eyx.
  inv_bind E as hh Eh. inv_bind E as ww Ew. inv_bind E as u2 Ehw.
  inv_bind E as [h w] Eidx.
  apply assert_inr, Rgtb_true in Eyx. apply assert_inr, Rgtb_true in Ehw.
  cbn in Ecy, Ecx, Eh, Ew. injection Ecy as <-. injection Ecx as <-.
  injection Eh as <-. injection Ew as <-.
  cbn in E. injection E as <-.
  split; [exact Eyx |]. split; [exact Ehw |].
  exists h, w. split; [exact Eidx |].
  constructor; cbn; unfold tf_clip_by_value, rescale, to_anchor;
    rewrite ?map_map; reflexivity.
Qed.

Lemma Rgtb_false (a b : R) : Rgtb a b = false <-> a <= b.
Proof. unfold Rgtb. destruct (Rlt_dec b a); split; intros; try easy; lra. Qed.

Ltac run_bind :=
  erewrite bind_ok; [| first [eassumption | reflexivity]]; cbn beta iota.

Ltac eight bp Hlen :=
  destruct bp as [| m1 [| m2 [| m3 [| m4 [| s1 [| s2 [| s3 [| s4 [| x bp]]]]]]]]];
  try discriminate Hlen.

Lemma _build_box_returns self bp hw pos eps c :
  length bp = 8%nat ->
  Layer.min_yx self < Layer.max_yx self ->
  Layer.min_hw self < Layer.max_hw self ->
  outcome (cell_indices self hw pos) = inr c ->
  exists d, outcome (_build_box self bp hw pos eps) = inr d
            /\ length (local_box d) = 4%nat /\ length (normalized_box d) = 4%nat.
Proof.
  intros Hlen Hyx Hhw Hidx. eight bp Hlen.
  apply Rgtb_true in Hyx, Hhw.
  unfold _build_box. rewrite Hyx, Hhw.
  do 11 run_bind. destruct c as [h w].
  eexists. split; [reflexivity |]. split; reflexivity.
Qed.

Lemma _build_box_asserts self bp hw pos eps :
  length bp = 8%nat ->
  Layer.max_yx self <= Layer.min_yx self \/ Layer.max_hw self <= Layer.min_hw self ->
  outcome (_build_box self bp hw pos eps) = inl AssertionError.
Proof.
  intros Hlen Hbad. eight bp Hlen.
  unfold _build_box. do 6 run_bind.
  destruct (Rgtb (Layer.max_yx self) (Layer.min_yx self)) eqn:Eyx.
  - destruct Hbad as [Hbad | Hbad].
    + apply Rgtb_true in Eyx. lra.
    + apply Rgtb_false in Hbad. rewrite Hbad.
      do 3 run_bind. apply bind_raise. reflexivity.
  - apply bind_raise. reflexivity.
Qed.

(** ** The builders and the training wheels *)


Lemma cell_indices_tw self w hw pos :
  cell_indices (with_training_wheels self w) hw pos = cell_indices self hw pos.
Proof. reflexivity. Qed.



(** ** The presence builder *)

Lemma imap_length A B (f : nat -> A -> B) (l : list A) : length (imap f l) = length l.
Proof.
  unfold imap. generalize 0%nat. induction l as [| x l IH]; intros n; cbn; [reflexivity |].
  rewrite IH. reflexivity.
Qed.

Lemma map2_ext_seq A B (f g : nat -> A -> B) (l : list A) (n : nat) :
  (forall i x, f i x = g i x) -> map2 f (seq n (length l)) l = map2 g (seq n (length l)) l.
Proof.
  intros E. revert n. induction l as [| x l IH]; intros n; cbn; [reflexivity |].
  rewrite E, IH. reflexivity.
Qed.

Lemma imap_const A (l : list A) : imap (fun _ x => x) l = l.
Proof.
  unfold imap. generalize 0%nat. induction l as [| x l IH]; intros n; cbn; [reflexivity |].
  rewrite IH. reflexivity.
Qed.

Lemma _build_obj_eq ext self obj_logit u :
  let lo := tf_clip_by_value (map (fun x => x / Layer.obj_temp self) obj_logit) (-10) 10 in
  let pre :=
    imap (fun i x =>
            _noisy self
            * concrete_binary_pre_sigmoid_sample ext x (Layer.obj_concrete_temp self) (u i)
            + (1 - _noisy self) * x) lo in
  _build_obj ext self obj_logit u =
  (inr {| obj_log_odds := lo; obj_prob := map sigmoid lo;
          obj_pre_sigmoid := pre; obj := map sigmoid pre |},
   pre ++ lo).
Proof.
  intros lo pre. unfold _build_obj. rewrite map_blend_id.
  unfold bind, tf_nn_sigmoid, ret. cbn. rewrite app_nil_r. reflexivity.
Qed.

Lemma pre_sigmoid_not_noisy ext self (u : nat -> R) (lo : tensor) :
  _noisy self = 0 ->
  imap (fun i x =>
          _noisy self
          * concrete_binary_pre_sigmoid_sample ext x (Layer.obj_concrete_temp self) (u i)
          + (1 - _noisy self) * x) lo = lo.
Proof.
  intros ->. rewrite <- (imap_const lo) at 2. unfold imap.
  apply map2_ext_seq. intros i x. ring.
Qed.

Lemma clip_id (lo hi x : R) : lo <= x <= hi -> clip lo hi x = x.
Proof.
  intros [Hlo Hhi]. unfold clip, Rmax, Rmin.
  destruct (Rle_dec x hi); destruct (Rle_dec _ lo); lra.
Qed.

Lemma sigmoid_0 : sigmoid 0 = 1 / 2.
Proof. unfold sigmoid. rewrite Ropp_0, exp_0. lra. Qed.

(** C4. For every input logit, at a non-zero temperature, the presence builder
    returns one log-odds value [clip(logit / obj_temp, -10, 10)], within
    [-10, 10] whatever the magnitude of the logit, and one presence score
    [obj], the sigmoid of the blend of the Concrete sample and the log-odds,
    within [0, 1]. *)
Theorem C4_presence_score_bounded :
  forall (ext : Externals) (self : Layer.t) (obj_logit : tensor) (u : nat -> R),
    Layer.obj_temp self <> 0 ->
    exists d,
      outcome (_build_obj ext self obj_logit u) = inr d
      /\ obj_log_odds d
         = map (fun x => clip (-10) 10 (x / Layer.obj_temp self)) obj_logit
      /\ obj_pre_sigmoid d
         = imap (fun i lo =>
                   _noisy self
                   * concrete_binary_pre_sigmoid_sample ext lo
                       (Layer.obj_concrete_temp self) (u i)
                   + (1 - _noisy self) * lo) (obj_log_odds d)
      /\ obj d = map sigmoid (obj_pre_sigmoid d)
      /\ length (obj d) = length obj_logit
      /\ length (obj_log_odds d) = length obj_logit
      /\ Forall unit_interval (obj d)
      /\ Forall clipped10 (obj_log_odds d).
Proof.
  intros ext self obj_logit u _.
  pose proof (_build_obj_eq ext self obj_logit u) as E. cbv zeta in E.
  eexists. split; [rewrite E; reflexivity |].
  cbn [obj obj_log_odds obj_pre_sigmoid]. unfold tf_clip_by_value.
  split; [rewrite map_map; reflexivity |].
  split; [reflexivity |]. split; [reflexivity |].
  split; [rewrite length_map, imap_length, !length_map; reflexivity |].
  split; [rewrite !length_map; reflexivity |].
  split; [apply map_sigmoid_unit |].
  apply (tf_clip_by_value_clipped10 (map (fun x => x / Layer.obj_temp self) obj_logit)).
Qed.

Lemma demo_eval_layer_noisy : _noisy demo_eval_layer = 0.
Proof. unfold _noisy. cbn. lra. Qed.

(** C4 at logit 0 on a layer in evaluation mode: log-odds 0, presence 1/2. *)
Lemma C4_presence_score_bounded_witness :
  Layer.obj_temp demo_eval_layer <> 0
  /\ exists d,
       outcome (_build_obj demo_externals demo_eval_layer [0] (fun _ => 1 / 4)) = inr d
       /\ obj_log_odds d = [0]
       /\ obj d = [1 / 2].
Proof.
  assert (Ht : Layer.obj_temp demo_eval_layer = 1) by reflexivity.
  split; [rewrite Ht; lra |].
  destruct (@C4_presence_score_bounded demo_externals demo_eval_layer [0]
              (fun _ => 1 / 4) ltac:(rewrite Ht; lra))
    as [d [Hd [Hlo [Hpre [Hobj _]]]]].
  exists d. split; [exact Hd |].
  assert (Hlo0 : obj_log_odds d = [0]).
  { rewrite Hlo, Ht. cbn [map]. replace (0 / 1) with 0 by lra.
    rewrite clip_id by lra. reflexivity. }
  split; [exact Hlo0 |].
  rewrite Hobj, Hpre, Hlo0, demo_eval_layer_noisy. cbn [imap map2 length seq map].
  replace (0 * _ + (1 - 0) * 0) with 0 by lra.
  rewrite sigmoid_0. reflexivity.
Defined.

(** ** Clipping before the sigmoid *)

Lemma clip_above (lo hi x : R) : lo <= hi -> hi <= x -> clip lo hi x = hi.
Proof.
  intros Hle Hx. unfold clip, Rmax, Rmin.
  destruct (Rle_dec x hi); destruct (Rle_dec _ lo); lra.
Qed.

Lemma demo_layer_noisy : _noisy demo_layer = 1.
Proof. unfold _noisy. cbn. lra. Qed.

(** C1, as stated, fails: in training mode with the noisy flag on, the operand
    of the sigmoid that yields [obj] is the Concrete sample, which is not
    clipped: at logit 100, both temperatures 1 and uniform draw 3/4 it
    exceeds 10. *)
Lemma C1_presence_sigmoid_operand_unclipped :
  ~ Forall clipped10
      (sigmoid_operands (_build_obj demo_externals demo_layer [100] (fun _ => 3 / 4))).
Proof.
  pose proof (_build_obj_eq demo_externals demo_layer [100] (fun _ => 3 / 4)) as E.
  cbv zeta in E. rewrite E. clear E.
  unfold sigmoid_operands. cbn [snd]. rewrite demo_layer_noisy.
  cbn. unfold concrete_relaxation, build_scheduled_value.
  replace (100 / 1) with 100 by lra.
  rewrite clip_above by lra.
  intros HF. inversion HF as [| x l Hx _]; subst. clear HF.
  unfold clipped10 in Hx.
  assert (Hln : ln (1 - 3 / 4) < ln (3 / 4)) by (apply ln_increasing; lra).
  lra.
Qed.

Lemma _noisy_of_mode (self : Layer.t) (training : bool) :
  Layer.float_is_training self = tf_to_float training ->
  _noisy self
  = tf_to_float (if training then Layer.noisy self else Layer.eval_noisy self).
Proof.
  intros E. unfold _noisy. rewrite E. destruct training; cbn [tf_to_float]; ring.
Qed.

(** C1 (amended). The standard-deviation and depth nonlinearities and the box
    builder feed only logits clipped to [-10, 10] into a sigmoid.  The presence
    builder applies two sigmoids: to [obj_log_odds], which is clipped, and to
    [obj_pre_sigmoid], the blend
    [_noisy * concrete_sample + (1 - _noisy) * obj_log_odds], which is not
    clipped again.  When the coefficient [_noisy] is 0 the blend is the clipped
    log-odds itself; [_noisy] is the [noisy] flag in training and the
    [eval_noisy] flag in evaluation. *)
Theorem C1_sigmoid_operands_clipped :
  forall (ext : Externals) (self : Layer.t) (std_logit z_logit box_params : tensor)
         (hw : option (Z * Z)) (pos : nat * nat) (eps : BoxNoise)
         (obj_logit : tensor) (u : nat -> R),
    Forall clipped10 (sigmoid_operands (std_nonlinearity self std_logit))
    /\ Forall clipped10 (sigmoid_operands (z_nonlinearity self z_logit))
    /\ Forall clipped10 (sigmoid_operands (_build_box self box_params hw pos eps))
    /\ (exists d,
         outcome (_build_obj ext self obj_logit u) = inr d
         /\ sigmoid_operands (_build_obj ext self obj_logit u)
            = obj_pre_sigmoid d ++ obj_log_odds d
         /\ obj d = map sigmoid (obj_pre_sigmoid d)
         /\ obj_prob d = map sigmoid (obj_log_odds d)
         /\ obj_pre_sigmoid d
            = imap (fun i lo =>
                      _noisy self
                      * concrete_binary_pre_sigmoid_sample ext lo
                          (Layer.obj_concrete_temp self) (u i)
                      + (1 - _noisy self) * lo) (obj_log_odds d)
         /\ length (obj_log_odds d) = length obj_logit
         /\ Forall clipped10 (obj_log_odds d)
         /\ (_noisy self = 0 ->
             obj_pre_sigmoid d = obj_log_odds d
             /\ Forall clipped10
                  (sigmoid_operands (_build_obj ext self obj_logit u))))
    /\ (forall training : bool,
          Layer.float_is_training self = tf_to_float training ->
          _noisy self
          = tf_to_float (if training then Layer.noisy self else Layer.eval_noisy self)).
Proof.
  intros ext self std_logit z_logit box_params hw pos eps obj_logit u.
  split; [apply std_nonlinearity_operands |].
  split; [apply z_nonlinearity_operands |].
  split; [apply _build_box_operands |].
  split; [| apply _noisy_of_mode].
  pose proof (_build_obj_eq ext self obj_logit u) as E. cbv zeta in E.
  eexists. rewrite E. split; [reflexivity |]. cbn.
  split; [reflexivity |]. split; [reflexivity |]. split; [reflexivity |].
  split; [reflexivity |].
  split; [unfold tf_clip_by_value; rewrite !length_map; reflexivity |].
  split; [apply tf_clip_by_value_clipped10 |].
  intros Hn. rewrite (@pre_sigmoid_not_noisy ext self u _ Hn).
  split; [reflexivity |].
  apply Forall_app. split; apply tf_clip_by_value_clipped10.
Qed.

(** C1 (amended) at a layer in evaluation mode with [eval_noisy] off, where
    the coefficient is 0: at logit 100 both sigmoid operands are the clipped
    log-odds 10. *)
Lemma C1_sigmoid_operands_clipped_witness :
  _noisy demo_eval_layer = 0
  /\ exists d,
       outcome (_build_obj demo_externals demo_eval_layer [100] (fun _ => 3 / 4)) = inr d
       /\ obj_pre_sigmoid d = obj_log_odds d
       /\ Forall clipped10
            (sigmoid_operands
               (_build_obj demo_externals demo_eval_layer [100] (fun _ => 3 / 4))).
Proof.
  assert (Hn : _noisy demo_eval_layer = 0) by (unfold _noisy; cbn; lra).
  split; [exact Hn |].
  destruct (C1_sigmoid_operands_clipped demo_externals demo_eval_layer [] [] []
              None (0%nat, 0%nat) zero_box_noise [100] (fun _ => 3 / 4))
    as [_ [_ [_ [[d [Hd [_ [_ [_ [_ [_ [_ H]]]]]]]] _]]]].
  exists d. split; [exact Hd |]. exact (H Hn).
Defined.

(** ** Box ranges *)

(** C2, as stated, fails: the constructor accepts a configuration with
    [min_yx >= max_yx]. *)
Lemma C2_constructor_accepts_inverted_range :
  exists layer,
    outcome (__init__ inverted_range_params (1, 1) None false) = inr layer
    /\ Layer.max_yx layer <= Layer.min_yx layer.
Proof.
  eexists. split; [reflexivity |]. cbn. lra.
Qed.

(** ** Box outputs *)

Lemma nth_error_range (n : Z) (i : nat) :
  (Z.of_nat i < n)%Z -> nth_error (range n) i = Some (Z.of_nat i).
Proof.
  intros Hi. unfold range.
  rewrite nth_error_map, nth_error_seq.
  replace (i <? Z.to_nat n)%nat with true by (symmetry; apply Nat.ltb_lt; lia).
  reflexivity.
Qed.

Lemma length_range (n : Z) : length (range n) = Z.to_nat n.
Proof. unfold range. rewrite length_map, length_seq. reflexivity. Qed.

Lemma cell_indices_in_grid self hw pos :
  in_grid self hw pos -> outcome (cell_indices self hw pos) = inr (cell_of hw pos).
Proof.
  unfold in_grid, cell_indices, cell_of. destruct hw as [[h w] |]; [reflexivity |].
  destruct pos as [i j]. cbn [fst snd]. intros [Hi Hj].
  unfold tf_meshgrid, grid_get, tf_range.
  rewrite !nth_error_map, (@nth_error_range _ _ Hi). cbn [option_map].
  rewrite !nth_error_map, (@nth_error_range _ _ Hj). cbn [option_map].
  reflexivity.
Qed.

Lemma rescale_within (lo hi logit : R) : lo < hi -> within lo hi (rescale lo hi logit).
Proof.
  intros Hlt. unfold within, rescale.
  pose proof (sigmoid_range (clip (-10) 10 logit)) as [H0 H1].
  split; nra.
Qed.

Lemma map_rescale_within (lo hi : R) (t : tensor) :
  lo < hi -> Forall (within lo hi) (map (rescale lo hi) t).
Proof.
  intros Hlt. apply Forall_forall. intros y Hy.
  apply in_map_iff in Hy. destruct Hy as [x [<- _]]. apply rescale_within, Hlt.
Qed.

Lemma _build_box_closed_form self m1 m2 m3 m4 s1 s2 s3 s4 hw pos eps c :
  Layer.min_yx self < Layer.max_yx self ->
  Layer.min_hw self < Layer.max_hw self ->
  outcome (cell_indices self hw pos) = inr c ->
  exists d,
    outcome (_build_box self [m1; m2; m3; m4; s1; s2; s3; s4] hw pos eps) = inr d
    /\ box_relations self eps (fst c) (snd c) d
    /\ (cell_y_logit_mean d = [m1] /\ cell_x_logit_mean d = [m2]
        /\ height_logit_mean d = [m3] /\ width_logit_mean d = [m4])
    /\ (cell_y_logit_std d = [std_of self s1] /\ cell_x_logit_std d = [std_of self s2]
        /\ height_logit_std d = [std_of self s3] /\ width_logit_std d = [std_of self s4]).
Proof.
  intros Hyx Hhw Hidx.
  assert (Hret : exists d,
             outcome (_build_box self [m1; m2; m3; m4; s1; s2; s3; s4] hw pos eps) = inr d
             /\ (cell_y_logit_mean d = [m1] /\ cell_x_logit_mean d = [m2]
                 /\ height_logit_mean d = [m3] /\ width_logit_mean d = [m4])
             /\ (cell_y_logit_std d = [std_of self s1]
                 /\ cell_x_logit_std d = [std_of self s2]
                 /\ height_logit_std d = [std_of self s3]
                 /\ width_logit_std d = [std_of self s4])).
  { apply Rgtb_true in Hyx, Hhw.
    unfold _build_box. rewrite Hyx, Hhw.
    do 11 run_bind. destruct c as [h w].
    eexists. split; [reflexivity |].
    cbn [cell_y_logit_mean cell_x_logit_mean height_logit_mean width_logit_mean
         cell_y_logit_std cell_x_logit_std height_logit_std width_logit_std].
    rewrite !map_blend_id.
    cbn [length firstn skipn Nat.div Nat.divmod fst snd map map2 tf_zeros_like
         tf_clip_by_value].
    unfold std_of.
    repeat split; try reflexivity; f_equal; ring. }
  destruct Hret as [d [Hd [Hmean Hstd]]].
  exists d. split; [exact Hd |]. split; [| split; assumption].
  destruct (_build_box_inr _ _ _ _ _ Hd) as [_ [_ [h [w [Hidx' Hrel]]]]].
  rewrite Hidx in Hidx'. injection Hidx' as Hc. rewrite Hc. exact Hrel.
Qed.

Lemma rescale_0 (lo hi : R) : rescale lo hi 0 = (hi - lo) / 2 + lo.
Proof. unfold rescale. rewrite clip_id by lra. rewrite sigmoid_0. lra. Qed.

(** C5. With box ranges that pass the builder's assertions, the box builder
    returns for the eight box parameters (four means, four standard-deviation
    logits): each sampled logit is [mean + std * eps], and each of [cell_y],
    [cell_x] (in [[min_yx, max_yx]]) and [height], [width] (in
    [[min_hw, max_hw]]) is the single value obtained as the affine rescale of
    the sigmoid of the clipped sampled logit; the sampled size logits are
    returned too. *)
Theorem C5_box_outputs_in_range :
  forall (self : Layer.t) (m1 m2 m3 m4 s1 s2 s3 s4 : R) (hw : option (Z * Z))
         (pos : nat * nat) (eps : BoxNoise),
    Layer.min_yx self < Layer.max_yx self ->
    Layer.min_hw self < Layer.max_hw self ->
    in_grid self hw pos ->
    exists d,
      outcome (_build_box self [m1; m2; m3; m4; s1; s2; s3; s4] hw pos eps) = inr d
      /\ cell_y d = [rescale (Layer.min_yx self) (Layer.max_yx self)
                       (m1 + std_of self s1 * eps_cell_y eps 0%nat)]
      /\ cell_x d = [rescale (Layer.min_yx self) (Layer.max_yx self)
                       (m2 + std_of self s2 * eps_cell_x eps 0%nat)]
      /\ height d = [rescale (Layer.min_hw self) (Layer.max_hw self)
                       (m3 + std_of self s3 * eps_height eps 0%nat)]
      /\ width d = [rescale (Layer.min_hw self) (Layer.max_hw self)
                      (m4 + std_of self s4 * eps_width eps 0%nat)]
      /\ ys_logit d = [m3 + std_of self s3 * eps_height eps 0%nat]
      /\ xs_logit d = [m4 + std_of self s4 * eps_width eps 0%nat]
      /\ Forall (within (Layer.min_yx self) (Layer.max_yx self)) (cell_y d)
      /\ Forall (within (Layer.min_yx self) (Layer.max_yx self)) (cell_x d)
      /\ Forall (within (Layer.min_hw self) (Layer.max_hw self)) (height d)
      /\ Forall (within (Layer.min_hw self) (Layer.max_hw self)) (width d).
Proof.
  intros self m1 m2 m3 m4 s1 s2 s3 s4 hw pos eps Hyx Hhw Hgrid.
  destruct (@_build_box_closed_form self m1 m2 m3 m4 s1 s2 s3 s4 hw pos eps _ Hyx Hhw
              (cell_indices_in_grid self hw pos Hgrid))
    as [d [Hd [Hrel [[M1 [M2 [M3 M4]]] [S1 [S2 [S3 S4]]]]]]].
  exists d. split; [exact Hd |].
  destruct Hrel as [Hcy Hcx Hh Hw Hyl Hxl _ _ _ _ _ _].
  rewrite Hyl in Hh. rewrite Hxl in Hw.
  rewrite M1, S1 in Hcy. rewrite M2, S2 in Hcx.
  rewrite M3, S3 in Hh, Hyl. rewrite M4, S4 in Hw, Hxl.
  repeat split; try assumption.
  - rewrite Hcy. apply map_rescale_within, Hyx.
  - rewrite Hcx. apply map_rescale_within, Hyx.
  - rewrite Hh. apply map_rescale_within, Hhw.
  - rewrite Hw. apply map_rescale_within, Hhw.
Qed.

(** C5 at eight zero box parameters, in the sequential layer's cell (0, 0):
    every output is the midpoint 1/2 of its range [[0, 1]]. *)
Lemma C5_box_outputs_in_range_witness :
  exists d,
    outcome (_build_box demo_layer [0; 0; 0; 0; 0; 0; 0; 0] (Some (0%Z, 0%Z))
               (0%nat, 0%nat) zero_box_noise) = inr d
    /\ cell_y d = [1 / 2] /\ cell_x d = [1 / 2]
    /\ height d = [1 / 2] /\ width d = [1 / 2].
Proof.
  destruct (@C5_box_outputs_in_range demo_layer 0 0 0 0 0 0 0 0
              (Some (0%Z, 0%Z)) (0%nat, 0%nat) zero_box_noise)
    as [d [Hd [Hcy [Hcx [Hh [Hw _]]]]]].
  - cbn. lra.
  - cbn. lra.
  - exact I.
  - exists d. split; [exact Hd |].
    assert (E : forall s, rescale 0 1 (0 + std_of demo_layer s * 0) = 1 / 2).
    { intros s. replace (0 + std_of demo_layer s * 0) with 0 by ring.
      rewrite rescale_0. lra. }
    rewrite Hcy, Hcx, Hh, Hw.
    change (Layer.min_yx demo_layer) with 0. change (Layer.max_yx demo_layer) with 1.
    change (Layer.min_hw demo_layer) with 0. change (Layer.max_hw demo_layer) with 1.
    cbn [zero_box_noise eps_cell_y eps_cell_x eps_height eps_width].
    rewrite !E. repeat split; reflexivity.
Defined.

(** C6. For every cell [(h, w)] the box builder returns
    [yt = (pixels_per_cell_y * (cell_y + h) + offset_y) / anchor_h],
    [xt = (pixels_per_cell_x * (cell_x + w) + offset_x) / anchor_w],
    [ys = height] and [xs = width], where [cell_y], [cell_x], [height] and
    [width] are the values it computes from the eight box parameters; the cell
    is the pair passed as [hw] (the sequential layer) or the grid position of
    the vector (the convolutional layer, through [tf.meshgrid]). *)
Theorem C6_normalized_box_formula :
  forall (self : Layer.t) (m1 m2 m3 m4 s1 s2 s3 s4 : R) (hw : option (Z * Z))
         (pos : nat * nat) (eps : BoxNoise),
    Layer.min_yx self < Layer.max_yx self ->
    Layer.min_hw self < Layer.max_hw self ->
    in_grid self hw pos ->
    exists d,
      outcome (_build_box self [m1; m2; m3; m4; s1; s2; s3; s4] hw pos eps) = inr d
      /\ yt d = map (fun cy => (fst (Layer.pixels_per_cell self)
                                * (cy + fst (cell_of hw pos))
                                + fst (Layer.grid_offset self))
                               / fst (Layer.anchor_box self)) (cell_y d)
      /\ xt d = map (fun cx => (snd (Layer.pixels_per_cell self)
                                * (cx + snd (cell_of hw pos))
                                + snd (Layer.grid_offset self))
                               / snd (Layer.anchor_box self)) (cell_x d)
      /\ ys d = height d
      /\ xs d = width d
      /\ normalized_box d = yt d ++ xt d ++ ys d ++ xs d
      /\ cell_y d = [rescale (Layer.min_yx self) (Layer.max_yx self)
                       (m1 + std_of self s1 * eps_cell_y eps 0%nat)]
      /\ cell_x d = [rescale (Layer.min_yx self) (Layer.max_yx self)
                       (m2 + std_of self s2 * eps_cell_x eps 0%nat)]
      /\ height d = [rescale (Layer.min_hw self) (Layer.max_hw self)
                       (m3 + std_of self s3 * eps_height eps 0%nat)]
      /\ width d = [rescale (Layer.min_hw self) (Layer.max_hw self)
                      (m4 + std_of self s4 * eps_width eps 0%nat)].
Proof.
  intros self m1 m2 m3 m4 s1 s2 s3 s4 hw pos eps Hyx Hhw Hgrid.
  destruct (@_build_box_closed_form self m1 m2 m3 m4 s1 s2 s3 s4 hw pos eps _ Hyx Hhw
              (cell_indices_in_grid self hw pos Hgrid))
    as [d [Hd [Hrel [[M1 [M2 [M3 M4]]] [S1 [S2 [S3 S4]]]]]]].
  exists d. split; [exact Hd |].
  destruct Hrel as [Hcy Hcx Hh Hw Hyl Hxl Hyt Hxt Hys Hxs _ Hnb].
  rewrite Hyl in Hh. rewrite Hxl in Hw.
  rewrite M1, S1 in Hcy. rewrite M2, S2 in Hcx.
  rewrite M3, S3 in Hh. rewrite M4, S4 in Hw.
  repeat split; assumption.
Qed.

(** C6 at cell (1, 2) of a 2 by 3 grid, read through [tf.meshgrid], with 12
    pixels per cell and zero box parameters: [cell_y = cell_x = 1/2], hence
    [yt = 12 * (1/2 + 1) = 18] and [xt = 12 * (1/2 + 2) = 30]. *)
Lemma C6_normalized_box_formula_witness :
  exists d,
    outcome (_build_box demo_conv_layer [0; 0; 0; 0; 0; 0; 0; 0] None
               (1%nat, 2%nat) zero_box_noise) = inr d
    /\ yt d = [18] /\ xt d = [30] /\ ys d = [1 / 2] /\ xs d = [1 / 2].
Proof.
  destruct (@C6_normalized_box_formula demo_conv_layer 0 0 0 0 0 0 0 0
              None (1%nat, 2%nat) zero_box_noise)
    as [d [Hd [Hyt [Hxt [Hys [Hxs [_ [Hcy [Hcx [Hh Hw]]]]]]]]]].
  - cbn. lra.
  - cbn. lra.
  - cbn. lia.
  - exists d. split; [exact Hd |].
    assert (E : forall s, rescale 0 1 (0 + std_of demo_conv_layer s * 0) = 1 / 2).
    { intros s. replace (0 + std_of demo_conv_layer s * 0) with 0 by ring.
      rewrite rescale_0. lra. }
    rewrite Hyt, Hxt, Hys, Hxs, Hcy, Hcx, Hh, Hw.
    change (Layer.min_yx demo_conv_layer) with 0.
    change (Layer.max_yx demo_conv_layer) with 1.
    change (Layer.min_hw demo_conv_layer) with 0.
    change (Layer.max_hw demo_conv_layer) with 1.
    cbn [zero_box_noise eps_cell_y eps_cell_x eps_height eps_width].
    rewrite !E. cbn [map].
    change (fst (Layer.pixels_per_cell demo_conv_layer)) with 12.
    change (snd (Layer.pixels_per_cell demo_conv_layer)) with 12.
    change (fst (Layer.grid_offset demo_conv_layer)) with 0.
    change (snd (Layer.grid_offset demo_conv_layer)) with 0.
    change (fst (Layer.anchor_box demo_conv_layer)) with 1.
    change (snd (Layer.anchor_box demo_conv_layer)) with 1.
    change (fst (cell_of None (1%nat, 2%nat))) with 1.
    change (snd (cell_of None (1%nat, 2%nat))) with 2.
    repeat split; f_equal; lra.
Defined.

Section ContextProperties.
Local Open Scope Z_scope.

(** ** The sequential context *)

Lemma in_range (n x : Z) : In x (range n) <-> 0 <= x < n.
Proof.
  unfold range. rewrite in_map_iff. split.
  - intros [i [<- Hi]]. apply in_seq in Hi. lia.
  - intros Hx. exists (Z.to_nat x). split; [lia |]. apply in_seq. lia.
Qed.

Lemma for_appends A X (xs : list A) (g : A -> list X)
    (body : A -> list X -> M (list X)) (ctx : list X) :
  (forall x c, In x xs -> body x c = ret (c ++ g x)) ->
  for_ xs body ctx = ret (ctx ++ flat_map g xs).
Proof.
  revert ctx. induction xs as [| x xs IH]; intros ctx Hbody; cbn [for_ flat_map].
  - rewrite app_nil_r. reflexivity.
  - rewrite Hbody by (left; reflexivity). rewrite bind_ret_l.
    rewrite IH by (intros y c Hy; apply Hbody; right; exact Hy).
    rewrite app_assoc. reflexivity.
Qed.

Lemma for_appends_one A X (xs : list A) (f : A -> X)
    (body : A -> list X -> M (list X)) (ctx : list X) :
  (forall x c, In x xs -> body x c = ret (c ++ [f x])) ->
  for_ xs body ctx = ret (ctx ++ map f xs).
Proof.
  intros Hbody. rewrite (@for_appends _ _ xs (fun x => [f x]) body ctx Hbody).
  rewrite flat_map_concat_map. f_equal. f_equal.
  induction xs as [| x xs IH]; cbn; [reflexivity |]. f_equal. apply IH.
  intros y c Hy. apply Hbody. right. exact Hy.
Qed.

Lemma np_index_in (n i : Z) : 0 <= i < n -> np_index n i = Some i.
Proof.
  intros Hi. unfold np_index.
  replace ((0 <=? i) && (i <? n))%bool with true; [reflexivity |].
  symmetry. apply andb_true_iff. split; [apply Z.leb_le | apply Z.ltb_lt]; lia.
Qed.

Lemma np_getitem_in (a : ndarray) (n0 n1 n2 i j k : Z) :
  shape a = (n0, n1, n2) -> 0 <= i < n0 -> 0 <= j < n1 -> 0 <= k < n2 ->
  np_getitem a i j k = ret (item a i j k).
Proof.
  intros Hs Hi Hj Hk. unfold np_getitem. rewrite Hs.
  rewrite (@np_index_in _ _ Hi), (@np_index_in _ _ Hj), (@np_index_in _ _ Hk). reflexivity.
Qed.

Lemma quot_div_sq (g : Z) : Z.quot (g ^ 2) 2 = g ^ 2 / 2.
Proof. apply Z.quot_div_nonneg; [nia | lia]. Qed.

Lemma context_entries_eq self program h w b edge_element :
  cell_slot self program h w b ->
  context_entries self program h w b edge_element =
  ret (flat_map (fun idx => map (neighbour_entry self program h w edge_element idx)
                                (range (Layer.B self)))
                (range (n_grid_locs self))
       ++ map (earlier_slot_entry self program h w b edge_element)
              (range (Layer.B self - 1))).
Proof.
  intros [Hh Hw Hb HB]. unfold context_entries.
  destruct (shape program) as [[n0 n1] n2] eqn:Hs. cbn [fst snd] in *.
  rewrite quot_div_sq. fold (n_grid_locs self).
  rewrite (@for_appends _ _ (range (n_grid_locs self))
             (fun idx => map (neighbour_entry self program h w edge_element idx)
                             (range (Layer.B self)))).
  - rewrite bind_ret_l. cbn [app].
    apply for_appends_one. intros k c Hk. apply in_range in Hk.
    unfold earlier_slot_entry.
    destruct (k + (- (Layer.B self - 1) + b) <? 0) eqn:Hneg;
      replace (k - (Layer.B self - 1) + b) with (k + (- (Layer.B self - 1) + b)) by lia;
      rewrite Hneg; [reflexivity |].
    apply Z.ltb_ge in Hneg.
    rewrite (@np_getitem_in program n0 n1 n2) by (try assumption; lia).
    rewrite bind_ret_l. reflexivity.
  - intros idx c Hidx. apply for_appends_one. intros k c' Hk. apply in_range in Hk.
    unfold neighbour_entry, out_of_bounds, window_row, window_col. rewrite Hs. cbn [fst snd].
    destruct (_ || _)%bool eqn:Hoob; [reflexivity |].
    apply orb_false_iff in Hoob. destruct Hoob as [Hoob H4].
    apply orb_false_iff in Hoob. destruct Hoob as [Hoob H3].
    apply orb_false_iff in Hoob. destruct Hoob as [H1 H2].
    apply Z.ltb_ge in H1, H2. rewrite Z.geb_leb in H3, H4. apply Z.leb_gt in H3, H4.
    rewrite (@np_getitem_in program n0 n1 n2) by (try assumption; lia).
    rewrite bind_ret_l. reflexivity.
Qed.

Lemma n_grid_locs_eq self :
  0 <= Layer.n_lookback self ->
  n_grid_locs self
  = Layer.n_lookback self * (2 * Layer.n_lookback self + 1) + Layer.n_lookback self.
Proof.
  intros HL. unfold n_grid_locs. set (L := Layer.n_lookback self).
  assert (E : (2 * L + 1) ^ 2 = 1 + (L * (2 * L + 1) + L) * 2)
    by (rewrite Z.pow_2_r; ring).
  rewrite E, Z.div_add by lia. reflexivity.
Qed.

Lemma window_causal self h w idx :
  0 <= Layer.n_lookback self -> 0 <= idx < n_grid_locs self ->
  window_row self h idx < h
  \/ (window_row self h idx = h /\ window_col self w idx < w).
Proof.
  intros HL Hidx. rewrite (n_grid_locs_eq self HL) in Hidx.
  unfold window_row, window_col.
  set (L := Layer.n_lookback self) in *. set (g := 2 * L + 1) in *.
  assert (Hg : 0 < g) by (unfold g; lia).
  rewrite Z.quot_div_nonneg by lia.
  pose proof (Z.div_mod idx g ltac:(lia)) as Hdm.
  pose proof (Z.mod_pos_bound idx g Hg) as Hr.
  assert (Hq : idx / g <= L) by nia.
  destruct (Z.eq_dec (idx / g) L) as [E | NE].
  - right. split; [lia |]. rewrite E in Hdm. nia.
  - left. lia.
Qed.

Lemma neighbour_entry_width self program S h w b edge_element idx k :
  cell_slot self program h w b -> 0 <= Layer.n_lookback self ->
  length edge_element = S -> filled_before self program S h w b ->
  0 <= idx < n_grid_locs self -> 0 <= k < Layer.B self ->
  entry_of_width S (neighbour_entry self program h w edge_element idx k).
Proof.
  intros Hcs HL He Hfill Hidx Hk. unfold neighbour_entry.
  destruct (out_of_bounds _ _ _) eqn:Hoob.
  - exists edge_element. split; [reflexivity | exact He].
  - unfold out_of_bounds in Hoob.
    apply orb_false_iff in Hoob. destruct Hoob as [Hoob H4].
    apply orb_false_iff in Hoob. destruct Hoob as [Hoob H3].
    apply orb_false_iff in Hoob. destruct Hoob as [H1 H2].
    apply Z.ltb_ge in H1, H2. rewrite Z.geb_leb in H3, H4. apply Z.leb_gt in H3, H4.
    apply Hfill; try lia.
    unfold raster_before.
    destruct (window_causal self h w HL Hidx) as [Hlt | [Heq Hlt]]; [left | right; left];
      auto.
Qed.

Lemma earlier_slot_entry_width self program S h w b edge_element k :
  cell_slot self program h w b ->
  length edge_element = S -> filled_before self program S h w b ->
  0 <= k < Layer.B self - 1 ->
  entry_of_width S (earlier_slot_entry self program h w b edge_element k).
Proof.
  intros [Hh Hw Hb HB] He Hfill Hk. unfold earlier_slot_entry.
  destruct (_ <? 0) eqn:Hneg.
  - exists edge_element. split; [reflexivity | exact He].
  - apply Z.ltb_ge in Hneg. apply Hfill; try lia.
    unfold raster_before. right. right. lia.
Qed.

Lemma length_flat_map_const A X (g : A -> list X) (c : nat) (xs : list A) :
  (forall x, In x xs -> length (g x) = c) ->
  length (flat_map g xs) = (length xs * c)%nat.
Proof.
  induction xs as [| x xs IH]; intros Hg; cbn; [reflexivity |].
  rewrite length_app, Hg by (left; reflexivity).
  rewrite IH by (intros y Hy; apply Hg; right; exact Hy). reflexivity.
Qed.

Lemma n_grid_locs_nonneg self : 0 <= n_grid_locs self.
Proof. unfold n_grid_locs. apply Z.div_pos; [nia | lia]. Qed.

Lemma context_length self program h w b edge_element :
  1 <= Layer.B self ->
  Z.of_nat
    (length (flat_map (fun idx => map (neighbour_entry self program h w edge_element idx)
                                      (range (Layer.B self)))
                      (range (n_grid_locs self))
             ++ map (earlier_slot_entry self program h w b edge_element)
                    (range (Layer.B self - 1))))
  = context_size self.
Proof.
  intros HB. rewrite length_app, length_map, length_range.
  rewrite (@length_flat_map_const _ _ _ (Z.to_nat (Layer.B self))).
  - rewrite length_range. pose proof (n_grid_locs_nonneg self).
    unfold context_size. fold (n_grid_locs self). nia.
  - intros idx _. rewrite length_map, length_range. reflexivity.
Qed.

Lemma all_some_widths (S : nat) (l : list (option tensor)) :
  Forall (entry_of_width S) l ->
  exists ts, all_some l = Some ts /\ length (concat ts) = (length l * S)%nat.
Proof.
  induction 1 as [| e l [t [-> Ht]] _ [ts [Hts Hlen]]].
  - exists []. split; reflexivity.
  - exists (t :: ts). cbn [all_some]. rewrite Hts. split; [reflexivity |].
    cbn [concat length]. rewrite length_app, Hlen, Ht. reflexivity.
Qed.

Lemma context_entries_widths self program S h w b edge_element :
  cell_slot self program h w b -> 0 <= Layer.n_lookback self ->
  length edge_element = S -> filled_before self program S h w b ->
  Forall (entry_of_width S)
    (flat_map (fun idx => map (neighbour_entry self program h w edge_element idx)
                              (range (Layer.B self)))
              (range (n_grid_locs self))
     ++ map (earlier_slot_entry self program h w b edge_element)
            (range (Layer.B self - 1))).
Proof.
  intros Hcs HL He Hfill. apply Forall_app. split.
  - apply Forall_flat_map. apply Forall_forall. intros idx Hidx. apply in_range in Hidx.
    apply Forall_map. apply Forall_forall. intros k Hk. apply in_range in Hk.
    apply (neighbour_entry_width edge_element Hcs HL He Hfill Hidx Hk).
  - apply Forall_map. apply Forall_forall. intros k Hk. apply in_range in Hk.
    apply (earlier_slot_entry_width edge_element Hcs He Hfill Hk).
Qed.

Lemma _get_sequential_context_returns self program S h w b edge_element :
  cell_slot self program h w b -> 0 <= Layer.n_lookback self ->
  length edge_element = S -> filled_before self program S h w b ->
  exists t,
    _get_sequential_context self program h w b edge_element = ret t
    /\ Z.of_nat (length t) = context_size self * Z.of_nat S.
Proof.
  intros Hcs HL He Hfill. unfold _get_sequential_context.
  rewrite (context_entries_eq edge_element Hcs), bind_ret_l.
  pose proof (context_entries_widths edge_element Hcs HL He Hfill) as Hw.
  pose proof (@context_length self program h w b edge_element
                ltac:(destruct Hcs; lia)) as Hlen.
  destruct (all_some_widths Hw) as [ts [Hts Hcat]].
  destruct (_ ++ _) as [| e ctx] eqn:Hctx.
  - exists []. split; [reflexivity |]. cbn in Hlen. cbn. lia.
  - unfold tf_concat. rewrite Hts. exists (concat ts). split; [reflexivity |].
    rewrite Hcat. lia.
Qed.

(** C3. For every cell-slot [(h, w, b)] of the grid, the sequential context is
    the concatenation of exactly [B * floor((2L+1)^2 / 2) + (B - 1)] entries,
    each of the width of a program entry: its width does not depend on
    [(h, w, b)]. *)
Theorem C3_context_size_constant :
  forall (self : Layer.t) (program : ndarray) (S : nat) (h w b : Z)
         (edge_element : tensor),
    cell_slot self program h w b ->
    0 <= Layer.n_lookback self ->
    length edge_element = S ->
    filled_before self program S h w b ->
    exists context t,
      outcome (context_entries self program h w b edge_element) = inr context
      /\ Z.of_nat (length context)
         = Layer.B self * ((2 * Layer.n_lookback self + 1) ^ 2 / 2) + (Layer.B self - 1)
      /\ outcome (_get_sequential_context self program h w b edge_element) = inr t
      /\ Z.of_nat (length t)
         = (Layer.B self * ((2 * Layer.n_lookback self + 1) ^ 2 / 2) + (Layer.B self - 1))
           * Z.of_nat S.
Proof.
  intros self program S h w b edge_element Hcs HL He Hfill.
  destruct (_get_sequential_context_returns edge_element Hcs HL He Hfill) as [t [Ht Hlen]].
  eexists. exists t. rewrite (context_entries_eq edge_element Hcs), Ht.
  split; [reflexivity |]. split; [| split; [reflexivity | exact Hlen]].
  apply context_length. destruct Hcs. lia.
Qed.

(** C3 at [H = W = 3], [B = 2], [L = 1] and the cell-slot (1, 1, 1): nine entries. *)
Lemma C3_context_size_constant_witness :
  exists context t,
    outcome (context_entries demo_layer demo_program 1 1 1 (repeat 0%R 7)) = inr context
    /\ Z.of_nat (length context) = 2 * ((2 * 1 + 1) ^ 2 / 2) + (2 - 1)
    /\ outcome (_get_sequential_context demo_layer demo_program 1 1 1 (repeat 0%R 7))
       = inr t
    /\ Z.of_nat (length t) = (2 * ((2 * 1 + 1) ^ 2 / 2) + (2 - 1)) * Z.of_nat 7.
Proof.
  apply (@C3_context_size_constant demo_layer demo_program 7 1 1 1 (repeat 0%R 7)).
  - constructor; cbn; lia.
  - cbn. lia.
  - reflexivity.
  - intros i j k _ _ _ _. eexists. split; reflexivity.
Defined.

Lemma Forall_eq_repeat A (x : A) (l : list A) :
  Forall (eq x) l -> l = repeat x (length l).
Proof.
  induction 1 as [| y l <- _ IH]; cbn; [reflexivity |]. f_equal. exact IH.
Qed.

Lemma neighbour_entry_origin self program edge_element idx k :
  0 <= Layer.n_lookback self -> 0 <= idx < n_grid_locs self ->
  neighbour_entry self program 0 0 edge_element idx k = Some edge_element.
Proof.
  intros HL Hidx. unfold neighbour_entry, out_of_bounds.
  destruct (window_causal self 0 0 HL Hidx) as [Hlt | [_ Hlt]].
  - apply Z.ltb_lt in Hlt. rewrite Hlt. reflexivity.
  - apply Z.ltb_lt in Hlt. rewrite Hlt, orb_true_r. reflexivity.
Qed.

(** C7. The context of a cell-slot lists, for each window position and slot, the
    edge element when the position is out of bounds and the stored program
    entry otherwise, then for each earlier slot of the cell the edge element
    when there is none and the stored entry otherwise; for the cell
    [h = 0, w = 0, b = 0] every entry is the edge element. *)
Theorem C7_edge_element_at_boundary :
  forall (self : Layer.t) (program : ndarray) (h w b : Z) (edge_element : tensor),
    cell_slot self program h w b ->
    0 <= Layer.n_lookback self ->
    exists context,
      outcome (context_entries self program h w b edge_element) = inr context
      /\ context
         = flat_map
             (fun idx =>
                map (fun k =>
                       if out_of_bounds program (window_row self h idx)
                                        (window_col self w idx)
                       then Some edge_element
                       else item program (window_row self h idx)
                                 (window_col self w idx) k)
                    (range (Layer.B self)))
             (range ((2 * Layer.n_lookback self + 1) ^ 2 / 2))
           ++ map (fun k =>
                     if k - (Layer.B self - 1) + b <? 0 then Some edge_element
                     else item program h w (k - (Layer.B self - 1) + b))
                  (range (Layer.B self - 1))
      /\ (h = 0 -> w = 0 -> b = 0 ->
          context = repeat (Some edge_element) (length context)
          /\ Z.of_nat (length context)
             = Layer.B self * ((2 * Layer.n_lookback self + 1) ^ 2 / 2)
               + (Layer.B self - 1)).
Proof.
  intros self program h w b edge_element Hcs HL.
  eexists. rewrite (context_entries_eq edge_element Hcs).
  split; [reflexivity |]. split; [reflexivity |].
  intros -> -> ->. split.
  - apply Forall_eq_repeat. apply Forall_app. split.
    + apply Forall_flat_map. apply Forall_forall. intros idx Hidx. apply in_range in Hidx.
      apply Forall_map. apply Forall_forall. intros k _.
      symmetry. apply (@neighbour_entry_origin self program edge_element idx k HL Hidx).
    + apply Forall_map. apply Forall_forall. intros k Hk. apply in_range in Hk.
      symmetry. unfold earlier_slot_entry.
      replace (k - (Layer.B self - 1) + 0 <? 0) with true; [reflexivity |].
      symmetry. apply Z.ltb_lt. lia.
  - apply context_length. destruct Hcs. lia.
Qed.

(** C7 at the cell-slot (0, 0, 0) of a 3 by 3 grid with two slots. *)
Lemma C7_edge_element_at_boundary_witness :
  exists context,
    outcome (context_entries demo_layer demo_program 0 0 0 [1%R]) = inr context
    /\ context = repeat (Some [1%R]) (length context)
    /\ Z.of_nat (length context) = 9.
Proof.
  destruct (@C7_edge_element_at_boundary demo_layer demo_program 0 0 0 [1%R])
    as [context [Hc [_ H0]]].
  - constructor; cbn; lia.
  - cbn. lia.
  - exists context. split; [exact Hc |]. exact (H0 eq_refl eq_refl eq_refl).
Defined.

End ContextProperties.

(** ** The convolutional guard *)

(** C9. Calling the convolutional layer with a slot count other than 1 raises
    the exception "NotImplemented" at once: no sigmoid has been evaluated, so
    no latent has been built, and nothing is returned. *)
Theorem C9_conv_rejects_multiple_slots :
  forall (ext : Externals) (nets : ConvGridObjectLayer.Nets) (self : Layer.t)
         (inp : Image) (inp_features : FeatureMap) (is_training is_posterior : bool)
         (prop_state_in : option tensor) (noise : Z -> Z -> CellNoise),
    Layer.B self <> 1%Z ->
    outcome (ConvGridObjectLayer._call ext nets self inp inp_features is_training
               is_posterior prop_state_in noise)
    = inl (Exception "NotImplemented")
    /\ sigmoid_operands (ConvGridObjectLayer._call ext nets self inp inp_features
                           is_training is_posterior prop_state_in noise) = [].
Proof.
  intros ext nets self inp inp_features is_training is_posterior ps noise HB.
  unfold ConvGridObjectLayer._call.
  destruct (Layer.B self =? 1)%Z eqn:E.
  - apply Z.eqb_eq in E. contradiction.
  - split; reflexivity.
Qed.

(** C9 at a layer configured with two slots per cell. *)
Lemma C9_conv_rejects_multiple_slots_witness :
  outcome (ConvGridObjectLayer._call demo_externals demo_conv_nets
             (constructed demo_params (12, 12) None true) demo_image demo_features
             true true None (fun _ _ => zero_cell_noise))
  = inl (Exception "NotImplemented").
Proof.
  apply (C9_conv_rejects_multiple_slots demo_externals demo_conv_nets
           (constructed demo_params (12, 12) None true) demo_image demo_features
           true true None (fun _ _ => zero_cell_noise)).
  cbn. discriminate.
Defined.

(** ** Training wheels *)









(** ** The blend in single precision *)








(** ** Widths of the intermediate vectors *)

Lemma length_map2 A B C (f : A -> B -> C) (xs : list A) (ys : list B) :
  length (map2 f xs ys) = Nat.min (length xs) (length ys).
Proof.
  revert ys. induction xs as [| x xs IH]; intros [| y ys]; cbn; try reflexivity.
  rewrite IH. reflexivity.
Qed.

Lemma length_Normal_sample (loc scale : tensor) (eps : nat -> R) :
  length (Normal_sample loc scale eps) = Nat.min (length loc) (length scale).
Proof. unfold Normal_sample. rewrite imap_length, length_combine. reflexivity. Qed.

Lemma std_nonlinearity_returns self t :
  exists v, outcome (std_nonlinearity self t) = inr v /\ length v = length t.
Proof.
  unfold std_nonlinearity. eexists. split; [reflexivity |].
  rewrite length_map2. unfold tf_zeros_like, tf_clip_by_value.
  rewrite !length_map. apply Nat.min_id.
Qed.

Lemma z_nonlinearity_returns self t :
  outcome (z_nonlinearity self t) = inr (map sigmoid (tf_clip_by_value t (-10) 10)).
Proof. reflexivity. Qed.

Lemma tf_split_sizes_ok (sizes : list nat) (t : tensor) :
  length t = list_sum sizes -> tf_split_sizes sizes t = ret (split_at sizes t).
Proof.
  intros E. unfold tf_split_sizes. rewrite (proj2 (Nat.eqb_eq _ _) E). reflexivity.
Qed.

Lemma split2_ok (n1 n2 : nat) (t : tensor) :
  length t = (n1 + n2)%nat ->
  (parts <- tf_split_sizes [n1; n2] t ;; unpack2 parts)
  = ret (firstn n1 t, firstn n2 (skipn n1 t)).
Proof.
  intros E. rewrite tf_split_sizes_ok by (cbn; lia). rewrite bind_ret_l. reflexivity.
Qed.

Lemma split3_ok (n1 n2 n3 : nat) (t : tensor) :
  length t = (n1 + n2 + n3)%nat ->
  (parts <- tf_split_sizes [n1; n2; n3] t ;; unpack3 parts)
  = ret (firstn n1 t, firstn n2 (skipn n1 t), firstn n3 (skipn n2 (skipn n1 t))).
Proof.
  intros E. rewrite tf_split_sizes_ok by (cbn; lia). rewrite bind_ret_l. reflexivity.
Qed.

Lemma tf_reshape_ok (t : tensor) (n : nat) : length t = n -> tf_reshape t n = ret t.
Proof. intros E. unfold tf_reshape. rewrite (proj2 (Nat.eqb_eq _ _) E). reflexivity. Qed.

Lemma assert_ok (c : bool) : c = true -> assert_ c = ret tt.
Proof. intros ->. reflexivity. Qed.

Ltac four l Hlen :=
  destruct l as [| ?a [| ?b [| ?c [| ?d [| ?x l]]]]]; try discriminate Hlen.

Lemma build_glimpse_returns ext self inp is_posterior normalized_box :
  length normalized_box = 4%nat ->
  (forall r ish osh boxes,
      length (extract_glimpse ext r inp ish osh boxes)
      = (fst osh * snd osh * im_depth inp)%nat) ->
  Layer.image_depth self = im_depth inp ->
  exists g, outcome (build_glimpse ext self inp is_posterior normalized_box) = inr g.
Proof.
  intros Hlen Hg Hd. unfold build_glimpse. destruct is_posterior.
  - four normalized_box Hlen.
    erewrite bind_ok by reflexivity. cbn beta iota.
    destruct (coords_to_image_space _ _ _ _ _) as [[[yt xt] ys] xs].
    rewrite tf_reshape_ok by (rewrite Hg, Hd; reflexivity).
    eexists. reflexivity.
  - eexists. reflexivity.
Qed.

Lemma np_setitem_in (a : ndarray) (n0 n1 n2 i j k : Z) (v : tensor) :
  shape a = (n0, n1, n2) ->
  (0 <= i < n0)%Z -> (0 <= j < n1)%Z -> (0 <= k < n2)%Z ->
  np_setitem a i j k v
  = ret {| shape := shape a;
           item := fun x y z =>
             if ((x =? i) && (y =? j) && (z =? k))%Z then Some v else item a x y z |}.
Proof.
  intros Hs Hi Hj Hk. unfold np_setitem. rewrite Hs.
  rewrite (@np_index_in _ _ Hi), (@np_index_in _ _ Hj), (@np_index_in _ _ Hk).
  reflexivity.
Qed.

(** ** One cell-slot of the forward pass *)

Ltac lengths :=
  repeat first
    [ rewrite length_app | rewrite length_map | rewrite imap_length
    | rewrite length_Normal_sample | rewrite length_firstn | rewrite length_skipn ].

Lemma build_cell_returns ext nets self inp inp_features is_posterior is_posterior_tf
    edge_element noise h w b program results :
  cell_contract ext nets self inp ->
  cell_slot self program h w b ->
  length edge_element = sample_size self ->
  filled_before self program (sample_size self) h w b ->
  exists t built,
    outcome (build_cell ext nets self inp inp_features is_posterior is_posterior_tf
               edge_element (sample_size self) noise (h, w, b) (program, results))
    = inr (store program h w b t, results ++ [built])
    /\ length t = sample_size self
    /\ presence_ok built.
Proof.
  intros Hct Hcs Hedge Hfill. destruct Hct.
  unfold build_cell. cbv zeta.
  destruct (_get_sequential_context_returns edge_element Hcs ct_lookback0 Hedge Hfill)
    as [context [Hctx _]].
  rewrite Hctx, bind_ret_l.
  rewrite split2_ok by apply ct_box0. rewrite bind_ret_l.
  destruct (@_build_box_returns self
              (firstn 8 (box_network nets
                           (fm_at inp_features h w ++ context ++ is_posterior_tf)
                           (8 + Layer.n_passthrough_features self)
                           (Layer.is_training self)))
              (Some (h, w)) (0%nat, 0%nat) (box_eps (noise h w b)) (IZR h, IZR w))
    as [d [Hd [Hlb Hnb]]]; try assumption.
  { rewrite length_firstn, ct_box0. lia. }
  { reflexivity. }
  rewrite (bind_ok _ _ Hd).
  destruct (@build_glimpse_returns ext self inp is_posterior (normalized_box d)
              Hnb ct_glimpse0 ct_depth0) as [g Hg].
  rewrite (bind_ok _ _ Hg).
  rewrite tf_reshape_ok by apply ct_encoder0. rewrite bind_ret_l.
  rewrite split3_ok by (rewrite ct_attr0; lia). rewrite bind_ret_l.
  match goal with
  | |- context [std_nonlinearity self ?x] =>
      destruct (std_nonlinearity_returns self x) as [attr_std [Hstd Hstdlen]]
  end.
  rewrite (bind_ok _ _ Hstd).
  rewrite split3_ok by (rewrite ct_z0; lia). rewrite bind_ret_l.
  match goal with
  | |- context [std_nonlinearity self ?x] =>
      destruct (std_nonlinearity_returns self x) as [z_std [Hzstd Hzstdlen]]
  end.
  rewrite (bind_ok _ _ Hzstd).
  rewrite (bind_ok _ _ (z_nonlinearity_returns self _)).
  match goal with
  | |- context [_build_obj ext self ?x ?u] =>
      pose proof (_build_obj_eq ext self x u) as Hobj; cbv zeta in Hobj
  end.
  rewrite (bind_ok _ _ (f_equal fst Hobj)). cbn [obj].
  destruct Hcs as [Hh Hw Hb HB].
  destruct (shape program) as [[n0 n1] n2] eqn:Hs. cbn [fst snd] in *.
  rewrite (@np_setitem_in program n0 n1 n2) by (try assumption; lia).
  rewrite bind_ret_l.
  match goal with
  | |- context [assert_ (length ?p =? _)%nat] =>
      assert (Hlen : length p = sample_size self)
  end.
  { unfold sample_size, tf_clip_by_value. lengths. rewrite Hlb, Hstdlen, Hzstdlen.
    lengths. rewrite ct_attr0, ct_z0, ct_obj0. unfold list_sum. cbn [fold_right]. lia. }
  rewrite assert_ok by (apply Nat.eqb_eq; exact Hlen).
  rewrite bind_ret_l.
  eexists. eexists. split; [unfold store; rewrite Hs; reflexivity |].
  split; [exact Hlen |].
  unfold presence_ok. cbn [objd obj]. split.
  - unfold tf_clip_by_value. lengths. apply ct_obj0.
  - apply map_sigmoid_unit.
Qed.

(** ** Loops with an invariant *)

Lemma for_invariant A S (I : list A -> S -> Prop) (xs : list A)
    (body : A -> S -> M S) (s0 : S) :
  I [] s0 ->
  (forall done x rest s,
      xs = done ++ x :: rest -> I done s ->
      exists s', outcome (body x s) = inr s' /\ I (done ++ [x]) s') ->
  exists s', outcome (for_ xs body s0) = inr s' /\ I xs s'.
Proof.
  intros H0 Hstep.
  assert (G : forall todo done s,
             xs = done ++ todo -> I done s ->
             exists s', outcome (for_ todo body s) = inr s' /\ I (done ++ todo) s').
  { induction todo as [| x todo IH]; intros done s E Hs.
    - exists s. rewrite app_nil_r. split; [reflexivity | exact Hs].
    - destruct (Hstep done x todo s E Hs) as [s1 [E1 H1]].
      cbn [for_]. rewrite (bind_ok _ _ E1).
      replace (done ++ x :: todo) with ((done ++ [x]) ++ todo)
        by (rewrite <- app_assoc; reflexivity).
      apply IH; [rewrite <- app_assoc; exact E | exact H1]. }
  apply (G xs [] s0 eq_refl H0).
Qed.

(** ** The raster-then-slot order of the loop *)

Lemma StronglySorted_append A (R : A -> A -> Prop) (l1 l2 : list A) :
  StronglySorted R l1 -> StronglySorted R l2 ->
  (forall a b, In a l1 -> In b l2 -> R a b) ->
  StronglySorted R (l1 ++ l2).
Proof.
  induction 1 as [| x l1 Hs IH Hx]; intros H2 Hc; cbn; [exact H2 |].
  constructor.
  - apply IH; [exact H2 |]. intros a b Ha Hb. apply Hc; [right; exact Ha | exact Hb].
  - apply Forall_app. split; [exact Hx |].
    apply Forall_forall. intros b Hb. apply Hc; [left; reflexivity | exact Hb].
Qed.

Lemma StronglySorted_flat_map A B (RA : A -> A -> Prop) (RB : B -> B -> Prop)
    (g : A -> list B) (xs : list A) :
  StronglySorted RA xs ->
  (forall x, StronglySorted RB (g x)) ->
  (forall x y a b, RA x y -> In a (g x) -> In b (g y) -> RB a b) ->
  StronglySorted RB (flat_map g xs).
Proof.
  intros Hxs Hg Hc. induction Hxs as [| x xs Hs IH Hx]; cbn; [constructor |].
  apply StronglySorted_append; [apply Hg | exact IH |].
  intros a b Ha Hb. apply in_flat_map in Hb. destruct Hb as [y [Hy Hb]].
  rewrite Forall_forall in Hx. apply (Hc x y a b (Hx y Hy) Ha Hb).
Qed.

Lemma StronglySorted_map_mono A B (RA : A -> A -> Prop) (RB : B -> B -> Prop)
    (f : A -> B) (xs : list A) :
  StronglySorted RA xs -> (forall x y, RA x y -> RB (f x) (f y)) ->
  StronglySorted RB (map f xs).
Proof.
  intros Hxs Hf. induction Hxs as [| x xs Hs IH Hx]; cbn; constructor; [exact IH |].
  apply Forall_map. apply Forall_forall. intros y Hy.
  rewrite Forall_forall in Hx. apply Hf, Hx, Hy.
Qed.

Lemma range_sorted (n : Z) : StronglySorted Z.lt (range n).
Proof.
  unfold range. generalize (Z.to_nat n) as m. generalize 0%nat as a.
  intros a m. revert a. induction m as [| m IH]; intros a; cbn; constructor.
  - apply IH.
  - apply Forall_map. apply Forall_forall. intros i Hi. apply in_seq in Hi. lia.
Qed.

Lemma product3_sorted (H W B : Z) :
  StronglySorted slot_before (product3 (range H) (range W) (range B)).
Proof.
  unfold product3.
  apply StronglySorted_flat_map with (RA := Z.lt); [apply range_sorted | |].
  - intros x.
    apply StronglySorted_flat_map with (RA := Z.lt); [apply range_sorted | |].
    + intros y. apply StronglySorted_map_mono with (RA := Z.lt); [apply range_sorted |].
      intros z1 z2 Hz. unfold slot_before, raster_before. cbn. lia.
    + intros y1 y2 a b Hy Ha Hb.
      apply in_map_iff in Ha, Hb. destruct Ha as [z1 [<- _]]. destruct Hb as [z2 [<- _]].
      unfold slot_before, raster_before. cbn. lia.
  - intros x1 x2 a b Hx Ha Hb.
    apply in_flat_map in Ha, Hb.
    destruct Ha as [y1 [_ Ha]]. destruct Hb as [y2 [_ Hb]].
    apply in_map_iff in Ha, Hb. destruct Ha as [z1 [<- _]]. destruct Hb as [z2 [<- _]].
    unfold slot_before, raster_before. cbn. lia.
Qed.

Lemma in_product3 (xs ys zs : list Z) (i j k : Z) :
  In (i, j, k) (product3 xs ys zs) <-> In i xs /\ In j ys /\ In k zs.
Proof.
  unfold product3. rewrite in_flat_map. split.
  - intros [x [Hx Hin]]. apply in_flat_map in Hin. destruct Hin as [y [Hy Hin]].
    apply in_map_iff in Hin. destruct Hin as [z [E Hz]]. injection E as <- <- <-.
    auto.
  - intros [Hi [Hj Hk]]. exists i. split; [exact Hi |].
    apply in_flat_map. exists j. split; [exact Hj |].
    apply in_map_iff. exists k. split; [reflexivity | exact Hk].
Qed.

Lemma length_product3 (xs ys zs : list Z) :
  length (product3 xs ys zs) = (length xs * (length ys * length zs))%nat.
Proof.
  unfold product3. apply length_flat_map_const. intros x _.
  apply length_flat_map_const. intros y _. apply length_map.
Qed.

Lemma sorted_suffix A (R : A -> A -> Prop) (l1 l2 : list A) :
  StronglySorted R (l1 ++ l2) -> StronglySorted R l2.
Proof.
  induction l1 as [| x l1 IH]; cbn; intros Hs; [exact Hs |].
  apply IH. inversion Hs; assumption.
Qed.

(** In the loop over the grid, every cell-slot that precedes the current one
    has already been visited. *)
Lemma visited_before (H W B : Z) (done rest : list (Z * Z * Z)) (h w b i j k : Z) :
  product3 (range H) (range W) (range B) = done ++ (h, w, b) :: rest ->
  (0 <= i < H)%Z -> (0 <= j < W)%Z -> (0 <= k < B)%Z ->
  raster_before h w b i j k ->
  In (i, j, k) done.
Proof.
  intros E Hi Hj Hk Hbefore.
  assert (Hin : In (i, j, k) (product3 (range H) (range W) (range B)))
    by (apply in_product3; rewrite !in_range; auto).
  pose proof (product3_sorted H W B) as Hs. rewrite E in Hs, Hin.
  apply in_app_or in Hin. destruct Hin as [Hin | Hin]; [exact Hin | exfalso].
  apply sorted_suffix in Hs. inversion Hs as [| x l _ Hall]; subst.
  destruct Hin as [Heq | Hin].
  - injection Heq as -> -> ->. unfold raster_before in Hbefore. lia.
  - rewrite Forall_forall in Hall. specialize (Hall _ Hin).
    unfold slot_before, raster_before in Hall, Hbefore. cbn in Hall. lia.
Qed.

(** ** The forward pass returns *)

Lemma prepared_contract ext nets self inp inp_features is_training :
  call_contract ext nets self inp ->
  cell_contract ext nets (prepared ext self inp inp_features is_training) inp
  /\ Layer.B (prepared ext self inp inp_features is_training) = Layer.B self
  /\ Layer.A (prepared ext self inp inp_features is_training) = Layer.A self
  /\ exists ew,
       Layer.edge_weights (prepared ext self inp inp_features is_training) = Some ew
       /\ length ew = sample_size self.
Proof.
  intros [Hbox Hattr Hz Hobj Henc Hgl Hvar Hedge Hcached Hyx Hhw HL].
  unfold prepared.
  destruct (Layer.initialized self) eqn:Hi.
  - destruct (Layer.edge_weights self) as [ew |] eqn:He.
    + split; [constructor; auto |]. split; [reflexivity |]. split; [reflexivity |].
      exists ew. split; [first [exact He | reflexivity] | apply Hedge; reflexivity].
    + split; [constructor; auto |]. split; [reflexivity |]. split; [reflexivity |].
      eexists. split; [reflexivity | apply Hvar].
  - cbn [Layer.edge_weights set_initialized].
    destruct (Layer.edge_weights self) as [ew |] eqn:He.
    + split; [constructor; auto |]. split; [reflexivity |]. split; [reflexivity |].
      exists ew. split; [first [exact He | reflexivity] | apply Hedge; reflexivity].
    + split; [constructor; auto |]. split; [reflexivity |]. split; [reflexivity |].
      eexists. split; [reflexivity | apply Hvar].
Qed.

Lemma build_edge_element_returns (A : nat) (ew : tensor) :
  length ew = list_sum [4%nat; A; 1%nat; 1%nat] ->
  exists e,
    outcome (build_edge_element ew [4%nat; A; 1%nat; 1%nat] [true; false; false; true])
    = inr e
    /\ length e = list_sum [4%nat; A; 1%nat; 1%nat].
Proof.
  intros Hlen. unfold build_edge_element.
  rewrite tf_split_sizes_ok by exact Hlen. rewrite bind_ret_l.
  eexists. split; [reflexivity |].
  cbn [concat fst]. lengths.
  unfold list_sum in *. cbn [fold_right length] in *. lia.
Qed.

Lemma loop_returns ext nets self inp inp_features is_posterior is_posterior_tf
    edge_element noise program :
  cell_contract ext nets self inp ->
  length edge_element = sample_size self ->
  shape program = (fm_H inp_features, fm_W inp_features, Layer.B self) ->
  exists state,
    outcome
      (for_ (product3 (range (fm_H inp_features)) (range (fm_W inp_features))
                      (range (Layer.B self)))
            (build_cell ext nets self inp inp_features is_posterior is_posterior_tf
                        edge_element (sample_size self) noise)
            (program, []))
    = inr state
    /\ loop_invariant self (fm_H inp_features) (fm_W inp_features)
         (product3 (range (fm_H inp_features)) (range (fm_W inp_features))
                   (range (Layer.B self)))
         state.
Proof.
  intros Hct Hedge Hshape.
  apply for_invariant.
  - unfold loop_invariant. cbn [fst snd]. split; [exact Hshape |].
    split; [intros i j k [] |]. split; [reflexivity | constructor].
  - intros done [[h w] b] rest [program1 results] Exs [Hs [Hfilled [Hlen Hok]]].
    cbn [fst snd] in Hs, Hfilled, Hlen, Hok.
    assert (Hin : In (h, w, b)
                     (product3 (range (fm_H inp_features)) (range (fm_W inp_features))
                               (range (Layer.B self))))
      by (rewrite Exs; apply in_or_app; right; left; reflexivity).
    apply in_product3 in Hin. rewrite !in_range in Hin. destruct Hin as [Hh [Hw Hb]].
    assert (Hcs : cell_slot self program1 h w b)
      by (constructor; rewrite ?Hs; cbn [fst snd]; lia).
    assert (Hfill : filled_before self program1 (sample_size self) h w b).
    { intros i j k Hi Hj Hk Hbefore. rewrite Hs in Hi, Hj. cbn [fst snd] in Hi, Hj.
      apply Hfilled. apply (@visited_before _ _ _ _ _ _ _ _ _ _ _ Exs Hi Hj Hk Hbefore). }
    destruct (@build_cell_returns ext nets self inp inp_features is_posterior
                is_posterior_tf edge_element noise h w b program1 results
                Hct Hcs Hedge Hfill) as [t [built [Hret [Ht Hbuilt]]]].
    eexists. split; [exact Hret |].
    unfold loop_invariant. cbn [fst snd store shape item].
    split; [exact Hs |]. split; [| split].
    + intros i j k Hijk.
      destruct ((i =? h) && (j =? w) && (k =? b))%Z eqn:Heq.
      * exists t. split; [reflexivity | exact Ht].
      * apply in_app_or in Hijk. destruct Hijk as [Hd | [Hx | []]].
        -- apply Hfilled, Hd.
        -- injection Hx as <- <- <-. rewrite !Z.eqb_refl in Heq. discriminate.
    + rewrite !length_app, Hlen. reflexivity.
    + apply Forall_app. split; [exact Hok |]. constructor; [exact Hbuilt | constructor].
Qed.

Lemma round_presence_le (results : list Built) :
  Forall presence_ok results ->
  reduce_sum_12 (map (map tf_round) (map (fun r => obj (objd r)) results))
  <= INR (length results).
Proof.
  unfold reduce_sum_12.
  induction 1 as [| r results [Hlen Hunit] _ IH].
  - cbn. lra.
  - cbn [map length]. rewrite S_INR.
    change (reduce_sum (?x :: ?l)) with (x + reduce_sum l).
    destruct (obj (objd r)) as [| x [| y l]]; try discriminate Hlen.
    inversion Hunit as [| ? ? Hx _]; subst.
    cbn [map reduce_sum fold_right].
    destruct (tf_round_unit Hx) as [-> | ->]; lra.
Qed.

Lemma np_empty_returns (n0 n1 n2 : Z) :
  (0 <= n0)%Z -> (0 <= n1)%Z -> (0 <= n2)%Z ->
  np_empty n0 n1 n2 = ret {| shape := (n0, n1, n2); item := fun _ _ _ => None |}.
Proof.
  intros H0 H1 H2. unfold np_empty.
  replace ((n0 <? 0) || (n1 <? 0) || (n2 <? 0))%Z%bool with false; [reflexivity |].
  symmetry. rewrite !orb_false_iff, !Z.ltb_ge. auto.
Qed.

Lemma _call_returns ext nets self inp inp_features is_training is_posterior
    prop_state_in noise :
  call_contract ext nets self inp ->
  (1 <= fm_H inp_features)%Z -> (1 <= fm_W inp_features)%Z -> (1 <= Layer.B self)%Z ->
  exists o,
    outcome (_call ext nets self inp inp_features is_training is_posterior
               prop_state_in noise)
    = inr (prepared ext self inp inp_features is_training, o)
    /\ Z.of_nat (length (stacked o))
       = (fm_H inp_features * fm_W inp_features * Layer.B self)%Z
    /\ Forall presence_ok (stacked o)
    /\ pred_n_objects o = reduce_sum_12 (objects_obj o)
    /\ pred_n_objects_hard o = reduce_sum_12 (map (map tf_round) (objects_obj o)).
Proof.
  intros Hcc HH HW HB.
  destruct (@prepared_contract ext nets self inp inp_features is_training Hcc)
    as [Hct [HBp [HAp [ew [Hew Hewlen]]]]].
  unfold _call. cbv zeta.
  set (self1 := if Layer.initialized self then self else _).
  set (self2 := match Layer.edge_weights self1 with None => _ | Some _ => self1 end).
  assert (E2 : self2 = prepared ext self inp inp_features is_training) by reflexivity.
  assert (HA1 : Layer.A self1 = Layer.A self)
    by (unfold self1; destruct (Layer.initialized self); reflexivity).
  clearbody self2. subst self2. clearbody self1.
  set (self2 := prepared ext self inp inp_features is_training) in *.
  rewrite HA1, Hew. fold (sample_size self).
  destruct (@build_edge_element_returns (Layer.A self) ew Hewlen) as [e [He Helen]].
  fold (sample_size self) in Helen.
  rewrite (bind_ok _ _ He).
  rewrite np_empty_returns by lia. rewrite bind_ret_l.
  assert (Hss : sample_size self2 = sample_size self)
    by (unfold sample_size; rewrite HAp; reflexivity).
  rewrite <- Hss in Helen |- *.
  destruct (@loop_returns ext nets self2 inp inp_features is_posterior
              (map2 Rmult [1; 1] (if is_posterior then [1; 0] else [0; 1]))
              e noise
              {| shape := (fm_H inp_features, fm_W inp_features, Layer.B self2);
                 item := fun _ _ _ => None |} Hct Helen eq_refl)
    as [[program results] [Hloop [_ [_ [Hlen Hok]]]]].
  cbn [fst snd] in Hlen, Hok.
  rewrite (bind_ok _ _ Hloop).
  rewrite length_product3, !length_range in Hlen.
  destruct results as [| r results].
  { cbn [length] in Hlen. rewrite HBp in Hlen. nia. }
  eexists. split; [reflexivity |]. cbn [stacked pred_n_objects pred_n_objects_hard].
  split; [rewrite Hlen, HBp; nia |]. split; [exact Hok |]. split; reflexivity.
Qed.

Lemma build_cell_inr ext nets self inp inp_features is_posterior is_posterior_tf
    edge_element S noise h w b program results state' :
  outcome (build_cell ext nets self inp inp_features is_posterior is_posterior_tf
             edge_element S noise (h, w, b) (program, results)) = inr state' ->
  exists built,
    snd state' = results ++ [built] /\ presence_from_network ext nets self built.
Proof.
  intros E. unfold build_cell in E. cbv zeta in E.
  inv_bind E as context Ectx.
  inv_bind E as [rep_input features] Esplit.
  inv_bind E as _built_box Ebox.
  inv_bind E as glimpse Eg.
  inv_bind E as encoded Eenc.
  inv_bind E as [[attr_mean attr_log_std] features1] Eattr.
  inv_bind E as attr_std Eastd.
  inv_bind E as [[z_mean z_log_std] features2] Ez.
  inv_bind E as z_std Ezstd.
  inv_bind E as z Ezz.
  inv_bind E as _built_obj Eobj.
  inv_bind E as program' Eset.
  inv_bind E as u Eassert.
  cbn in E. injection E as <-. cbn [snd].
  eexists. split; [reflexivity |].
  unfold presence_from_network. cbn [objd].
  eexists. eexists. exact Eobj.
Qed.

Lemma for_preserves A S (I : S -> Prop) (xs : list A) (body : A -> S -> M S) :
  (forall x s s1, I s -> outcome (body x s) = inr s1 -> I s1) ->
  forall s0 s', I s0 -> outcome (for_ xs body s0) = inr s' -> I s'.
Proof.
  intros Hstep. induction xs as [| x xs IH]; intros s0 s' H0 E.
  - cbn in E. injection E as <-. exact H0.
  - cbn [for_] in E. apply bind_inr in E. destruct E as [s1 [E1 E]].
    apply (IH s1 s' (Hstep x s0 s1 H0 E1) E).
Qed.

Lemma _call_inr ext nets self inp inp_features is_training is_posterior
    prop_state_in noise self' o :
  outcome (_call ext nets self inp inp_features is_training is_posterior
             prop_state_in noise) = inr (self', o) ->
  self' = prepared ext self inp inp_features is_training
  /\ Forall (presence_from_network ext nets self') (stacked o).
Proof.
  intros E. unfold _call in E. cbv zeta in E.
  set (self1 := if Layer.initialized self then self else _) in E.
  set (self2 := match Layer.edge_weights self1 with None => _ | Some _ => self1 end) in E.
  assert (E2 : self2 = prepared ext self inp inp_features is_training) by reflexivity.
  clearbody self2. clearbody self1.
  inv_bind E as edge_element Eedge.
  inv_bind E as program Eprog.
  inv_bind E as [program' results] Eloop.
  assert (Hres : Forall (presence_from_network ext nets self2) results).
  { apply (@for_preserves _ _
             (fun st : ndarray * list Built =>
                Forall (presence_from_network ext nets self2) (snd st))
             _ _ ) with (s0 := (program, [])) (s' := (program', results)) in Eloop.
    - exact Eloop.
    - intros [[h w] b] [pr rs] s1 Hrs Hbody. cbn [snd] in Hrs.
      destruct (build_cell_inr _ _ _ _ _ _ _ _ _ _ _ _ _ _ _ Hbody) as [built [-> Hb]].
      apply Forall_app. split; [exact Hrs |]. constructor; [exact Hb | constructor].
    - constructor. }
  destruct results as [| r results]; [discriminate E |].
  cbn in E. injection E as <- <-. cbn [stacked].
  split; [exact E2 | exact Hres].
Qed.

Lemma round_presence_ge (results : list Built) :
  Forall presence_ok results ->
  0 <= reduce_sum_12 (map (map tf_round) (map (fun r => obj (objd r)) results)).
Proof.
  unfold reduce_sum_12.
  induction 1 as [| r results [Hlen Hunit] _ IH].
  - cbn. lra.
  - cbn [map].
    change (reduce_sum (?x :: ?l)) with (x + reduce_sum l).
    destruct (obj (objd r)) as [| x [| y l]]; try discriminate Hlen.
    inversion Hunit as [| ? ? Hx _]; subst.
    cbn [map reduce_sum fold_right].
    destruct (tf_round_unit Hx) as [-> | ->]; lra.
Qed.

(** C8. Under its contract the forward pass returns one dictionary per
    cell-slot; in each the presence is the single value, in [0, 1], that the
    presence builder returns for the output of the presence network.  The hard
    predicted object count is the sum of [round(presence)] over all cells and
    slots; each rounded presence is 0 or 1, and the count lies between 0 and
    [H * W * B]. *)
Theorem C8_hard_count_bounded :
  forall (ext : Externals) (nets : LateralNets) (self : Layer.t) (inp : Image)
         (inp_features : FeatureMap) (is_training is_posterior : bool)
         (prop_state_in : option tensor) (noise : Z -> Z -> Z -> CellNoise),
    call_contract ext nets self inp ->
    (1 <= fm_H inp_features)%Z ->
    (1 <= fm_W inp_features)%Z ->
    (1 <= Layer.B self)%Z ->
    exists o,
      outcome (_call ext nets self inp inp_features is_training is_posterior
                 prop_state_in noise)
      = inr (prepared ext self inp inp_features is_training, o)
      /\ pred_n_objects_hard o = reduce_sum_12 (map (map tf_round) (objects_obj o))
      /\ Z.of_nat (length (stacked o))
         = (fm_H inp_features * fm_W inp_features * Layer.B self)%Z
      /\ Forall presence_ok (stacked o)
      /\ Forall (presence_from_network ext nets
                   (prepared ext self inp inp_features is_training)) (stacked o)
      /\ Forall (Forall (fun x => tf_round x = 0 \/ tf_round x = 1)) (objects_obj o)
      /\ 0 <= pred_n_objects_hard o
         <= IZR (fm_H inp_features * fm_W inp_features * Layer.B self).
Proof.
  intros ext nets self inp inp_features is_training is_posterior ps noise
         Hcc HH HW HB.
  destruct (@_call_returns ext nets self inp inp_features is_training is_posterior
              ps noise Hcc HH HW HB) as [o [Hret [Hlen [Hok [_ Hhard]]]]].
  exists o. split; [exact Hret |]. split; [exact Hhard |].
  split; [exact Hlen |]. split; [exact Hok |].
  split; [apply (_call_inr _ _ _ _ _ _ _ _ _ Hret) |].
  unfold objects_obj in *. split.
  - apply Forall_map. apply Forall_forall. intros r Hr.
    rewrite Forall_forall in Hok. destruct (Hok r Hr) as [_ Hunit].
    apply Forall_forall. intros x Hx. rewrite Forall_forall in Hunit.
    apply tf_round_unit, Hunit, Hx.
  - rewrite Hhard. split; [apply round_presence_ge, Hok |].
    rewrite <- Hlen, <- INR_IZR_INZ. apply round_presence_le, Hok.
Qed.

Lemma demo_call_contract :
  call_contract demo_externals demo_nets (constructed demo_params (12, 12) None false)
    demo_image.
Proof.
  constructor; intros; cbn; try apply repeat_length; try discriminate; try lra; try lia.
Qed.

Lemma keen_call_contract :
  call_contract demo_externals keen_nets (constructed demo_params (12, 12) None false)
    demo_image.
Proof.
  constructor; intros; cbn; try apply repeat_length; try discriminate; try lra; try lia.
Qed.

Lemma tf_round_above_half (x : R) : 1 / 2 < x < 1 -> tf_round x = 1.
Proof.
  intros [Hlo Hhi]. unfold tf_round.
  destruct (base_Int_part x) as [Hle Hgt].
  assert (Hf : Int_part x = 0%Z).
  { assert (H1 : -1 < IZR (Int_part x)) by lra.
    assert (H2 : IZR (Int_part x) < 1) by lra.
    apply lt_IZR in H1, H2. lia. }
  rewrite Hf. cbn [Z.add].
  destruct (Rlt_dec (x - 0) (1 / 2)); [lra |].
  destruct (Rlt_dec (1 / 2) (x - 0)); [reflexivity | lra].
Qed.

Lemma sigmoid_1_range : 1 / 2 < sigmoid 1 < 1.
Proof.
  split; [| apply sigmoid_range].
  unfold sigmoid.
  set (e := exp (- (1))).
  assert (He : e < 1).
  { apply Rlt_le_trans with (exp 0); [apply exp_increasing; lra | rewrite exp_0; lra]. }
  assert (Hp : 0 < e) by apply exp_pos.
  apply Rmult_lt_reg_r with (1 + e); [lra |].
  replace (1 / (1 + e) * (1 + e)) with 1 by (field; lra).
  lra.
Qed.

Lemma _build_obj_not_noisy ext self obj_logit u d :
  _noisy self = 0 ->
  outcome (_build_obj ext self obj_logit u) = inr d ->
  obj d = map (fun x => sigmoid (clip (-10) 10 (x / Layer.obj_temp self))) obj_logit.
Proof.
  intros Hn E.
  pose proof (_build_obj_eq ext self obj_logit u) as Eq. cbv zeta in Eq.
  rewrite Eq in E. cbn [outcome fst] in E. injection E as <-. cbn [obj].
  rewrite (@pre_sigmoid_not_noisy ext self u _ Hn).
  unfold tf_clip_by_value. rewrite !map_map. reflexivity.
Qed.

Lemma hard_count_all_present (results : list Built) :
  Forall (fun r => map tf_round (obj (objd r)) = [1]) results ->
  reduce_sum_12 (map (map tf_round) (map (fun r => obj (objd r)) results))
  = INR (length results).
Proof.
  unfold reduce_sum_12. induction 1 as [| r results Hr _ IH].
  - reflexivity.
  - cbn [map length]. rewrite S_INR, Hr.
    change (reduce_sum (?x :: ?l)) with (x + reduce_sum l).
    rewrite IH. cbn [reduce_sum fold_right]. lra.
Qed.

Lemma first_call_noisy ext p ppc go fl inp inp_features is_training :
  _noisy (prepared ext (constructed p ppc go fl) inp inp_features is_training)
  = tf_to_float (if is_training then Param.noisy p else Param.eval_noisy p).
Proof. apply _noisy_of_mode. reflexivity. Qed.

(** C8 at a 2 by 2 grid with two slots per cell, in evaluation mode, with a
    presence network that outputs logit 1: every presence is [sigmoid 1],
    which rounds to 1, and the count is 8, the bound itself. *)
Lemma C8_hard_count_bounded_witness :
  exists o,
    outcome (_call demo_externals keen_nets (constructed demo_params (12, 12) None false)
               demo_image demo_features false true None (fun _ _ _ => zero_cell_noise))
    = inr (prepared demo_externals (constructed demo_params (12, 12) None false)
             demo_image demo_features false, o)
    /\ length (stacked o) = 8%nat
    /\ pred_n_objects_hard o = 8.
Proof.
  destruct (@C8_hard_count_bounded demo_externals keen_nets
              (constructed demo_params (12, 12) None false) demo_image demo_features
              false true None (fun _ _ _ => zero_cell_noise) keen_call_contract)
    as [o [Hret [Hhard [Hlen [_ [Hnet _]]]]]].
  - cbn. lia.
  - cbn. lia.
  - cbn. lia.
  - exists o. split; [exact Hret |].
    assert (Hl : length (stacked o) = 8%nat).
    { change (Z.of_nat (length (stacked o)) = 8%Z) in Hlen. lia. }
    split; [exact Hl |].
    rewrite Hhard. unfold objects_obj. rewrite hard_count_all_present.
    + rewrite Hl. cbn [INR]. lra.
    + apply Forall_impl with (2 := Hnet). intros r [x [u Hr]].
      rewrite (@_build_obj_not_noisy _ _ _ _ _
                 (first_call_noisy demo_externals demo_params (12, 12) None false
                    demo_image demo_features false) Hr).
      change (obj_network keen_nets x 1%nat _) with [1].
      cbn [map].
      change (Layer.obj_temp _) with 1.
      replace (1 / 1) with 1 by lra.
      rewrite clip_id by lra.
      rewrite (tf_round_above_half sigmoid_1_range). reflexivity.
Defined.

(** ** The range assertions at the first forward pass *)

Lemma range_first (n : Z) : (1 <= n)%Z -> exists rest, range n = 0%Z :: rest.
Proof.
  intros Hn. unfold range.
  destruct (Z.to_nat n) as [| k] eqn:E; [lia |].
  cbn [seq map]. eexists. reflexivity.
Qed.

Lemma product3_first (H W B : Z) :
  (1 <= H)%Z -> (1 <= W)%Z -> (1 <= B)%Z ->
  exists rest, product3 (range H) (range W) (range B) = (0%Z, 0%Z, 0%Z) :: rest.
Proof.
  intros HH HW HB.
  destruct (range_first HH) as [hs ->]. destruct (range_first HW) as [ws ->].
  destruct (range_first HB) as [bs ->].
  unfold product3. cbn [flat_map map app]. eexists. reflexivity.
Qed.

Lemma first_cell_filled self program (S : nat) :
  filled_before self program S 0 0 0.
Proof.
  intros i j k Hi Hj Hk Hbefore. unfold raster_before in Hbefore. lia.
Qed.

(** The first cell-slot of a forward pass whose box ranges are empty. *)
Lemma build_cell_asserts ext nets self inp inp_features is_posterior is_posterior_tf
    edge_element S noise program results :
  Layer.max_yx self <= Layer.min_yx self \/ Layer.max_hw self <= Layer.min_hw self ->
  (forall x n t, length (box_network nets x n t) = n) ->
  (0 <= Layer.n_lookback self)%Z ->
  cell_slot self program 0 0 0 ->
  outcome (build_cell ext nets self inp inp_features is_posterior is_posterior_tf
             edge_element S noise (0%Z, 0%Z, 0%Z) (program, results))
  = inl AssertionError.
Proof.
  intros Hbad Hbox HL Hcs. unfold build_cell. cbv zeta.
  destruct (@_get_sequential_context_returns self program (length edge_element)
              0%Z 0%Z 0%Z edge_element Hcs HL eq_refl
              (first_cell_filled self program (length edge_element)))
    as [context [Hctx _]].
  rewrite Hctx, bind_ret_l.
  rewrite split2_ok by apply Hbox. rewrite bind_ret_l.
  apply bind_raise. apply _build_box_asserts; [| exact Hbad].
  rewrite length_firstn, Hbox. lia.
Qed.

Lemma prepared_edge_weights ext self inp inp_features is_training :
  (forall n, length (get_variable ext n) = n) ->
  (forall ew, Layer.edge_weights self = Some ew -> length ew = sample_size self) ->
  Layer.params (prepared ext self inp inp_features is_training) = Layer.params self
  /\ Layer.B (prepared ext self inp inp_features is_training) = Layer.B self
  /\ exists ew,
       Layer.edge_weights (prepared ext self inp inp_features is_training) = Some ew
       /\ length ew = sample_size self.
Proof.
  intros Hvar Hedge. unfold prepared.
  destruct (Layer.initialized self).
  - destruct (Layer.edge_weights self) as [ew |] eqn:He.
    + split; [reflexivity |]. split; [reflexivity |].
      exists ew. split; [first [exact He | reflexivity] | apply Hedge; reflexivity].
    + split; [reflexivity |]. split; [reflexivity |].
      eexists. split; [reflexivity | apply Hvar].
  - cbn [Layer.edge_weights set_initialized].
    destruct (Layer.edge_weights self) as [ew |] eqn:He.
    + split; [reflexivity |]. split; [reflexivity |].
      exists ew. split; [first [exact He | reflexivity] | apply Hedge; reflexivity].
    + split; [reflexivity |]. split; [reflexivity |].
      eexists. split; [reflexivity | apply Hvar].
Qed.

Lemma _call_asserts ext nets self inp inp_features is_training is_posterior
    prop_state_in noise :
  Layer.max_yx self <= Layer.min_yx self \/ Layer.max_hw self <= Layer.min_hw self ->
  (forall x n t, length (box_network nets x n t) = n) ->
  (forall n, length (get_variable ext n) = n) ->
  (forall ew, Layer.edge_weights self = Some ew -> length ew = sample_size self) ->
  (0 <= Layer.n_lookback self)%Z ->
  (1 <= fm_H inp_features)%Z -> (1 <= fm_W inp_features)%Z -> (1 <= Layer.B self)%Z ->
  outcome (_call ext nets self inp inp_features is_training is_posterior
             prop_state_in noise)
  = inl AssertionError.
Proof.
  intros Hbad Hbox Hvar Hedge HL HH HW HB.
  destruct (@prepared_edge_weights ext self inp inp_features is_training Hvar Hedge)
    as [Hp [HBp [ew [Hew Hewlen]]]].
  unfold _call. cbv zeta.
  set (self1 := if Layer.initialized self then self else _).
  set (self2 := match Layer.edge_weights self1 with None => _ | Some _ => self1 end).
  assert (E2 : self2 = prepared ext self inp inp_features is_training) by reflexivity.
  assert (HA1 : Layer.A self1 = Layer.A self)
    by (unfold self1; destruct (Layer.initialized self); reflexivity).
  clearbody self2. subst self2. clearbody self1.
  set (self2 := prepared ext self inp inp_features is_training) in *.
  rewrite HA1, Hew. fold (sample_size self).
  destruct (@build_edge_element_returns (Layer.A self) ew Hewlen) as [e [He Helen]].
  rewrite (bind_ok _ _ He).
  rewrite np_empty_returns by lia. rewrite bind_ret_l.
  destruct (@product3_first (fm_H inp_features) (fm_W inp_features) (Layer.B self2))
    as [rest ->]; try lia.
  apply bind_raise. cbn [for_]. apply bind_raise.
  apply build_cell_asserts.
  - unfold Layer.max_yx, Layer.min_yx, Layer.max_hw, Layer.min_hw in *.
    rewrite Hp. exact Hbad.
  - exact Hbox.
  - unfold Layer.n_lookback in *. rewrite Hp. exact HL.
  - constructor; cbn [shape fst snd]; lia.
Qed.

(** C2 (amended). The constructor performs no range check and returns a layer
    for every configuration; a configuration with [max_yx <= min_yx] or
    [max_hw <= min_hw] is rejected by the assertions of the box builder: the
    first forward pass of the layer raises [AssertionError] when it builds the
    box of its first cell-slot, and so does every call of the box builder, on
    eight box parameters, on the layer as the forward pass has prepared it. *)
Theorem C2_box_builder_asserts_ranges :
  forall (ext : Externals) (nets : LateralNets) (p : Param.t) (pixels_per_cell : R * R)
         (grid_offset : option (R * R)) (flatten : bool) (inp : Image)
         (inp_features : FeatureMap) (is_training is_posterior : bool)
         (prop_state_in : option tensor) (noise : Z -> Z -> Z -> CellNoise),
    Param.max_yx p <= Param.min_yx p \/ Param.max_hw p <= Param.min_hw p ->
    (forall x n t, length (box_network nets x n t) = n) ->
    (forall n, length (get_variable ext n) = n) ->
    (0 <= Param.n_lookback p)%Z ->
    (1 <= fm_H inp_features)%Z ->
    (1 <= fm_W inp_features)%Z ->
    (1 <= Param.n_objects_per_cell p)%Z ->
    exists layer,
      outcome (__init__ p pixels_per_cell grid_offset flatten) = inr layer
      /\ outcome (_call ext nets layer inp inp_features is_training is_posterior
                    prop_state_in noise) = inl AssertionError
      /\ forall (box_params : tensor) (hw : option (Z * Z)) (pos : nat * nat)
                (eps : BoxNoise),
           length box_params = 8%nat ->
           outcome (_build_box (prepared ext layer inp inp_features is_training)
                      box_params hw pos eps) = inl AssertionError.
Proof.
  intros ext nets p ppc go fl inp inp_features is_training is_posterior ps noise
         Hbad Hbox Hvar HL HH HW HB.
  eexists. split; [reflexivity |]. split.
  - apply _call_asserts; try assumption.
    intros ew Hew. discriminate Hew.
  - intros bp hw pos eps Hlen.
    apply _build_box_asserts; [exact Hlen | exact Hbad].
Qed.

(** C2 (amended) at the configuration with [min_yx = 1] and [max_yx = 0], on
    a 2 by 2 feature map. *)
Lemma C2_box_builder_asserts_ranges_witness :
  exists layer,
    outcome (__init__ inverted_range_params (1, 1) None false) = inr layer
    /\ outcome (_call demo_externals demo_nets layer demo_image demo_features true true
                  None (fun _ _ _ => zero_cell_noise)) = inl AssertionError.
Proof.
  destruct (@C2_box_builder_asserts_ranges demo_externals demo_nets
              inverted_range_params (1, 1) None false demo_image demo_features
              true true None (fun _ _ _ => zero_cell_noise))
    as [layer [Hinit [Hcall _]]].
  - left. cbn. lra.
  - intros x n t. apply repeat_length.
  - intros n. apply repeat_length.
  - cbn. lia.
  - cbn. lia.
  - cbn. lia.
  - cbn. lia.
  - exists layer. split; [exact Hinit | exact Hcall].
Defined.

(** * Further properties *)

(** ** The two sampling modes *)

Lemma bind_ext_on A B (m : M A) (f g : A -> M B) :
  (forall a, outcome m = inr a -> f a = g a) -> bind m f = bind m g.
Proof.
  unfold outcome, bind. intros E. destruct (fst m) as [e | a]; [reflexivity |].
  rewrite (E a eq_refl). reflexivity.
Qed.

Lemma map2_map_map A B C D (f : B -> C -> D) (g : A -> B) (h : A -> C) (l : list A) :
  map2 f (map g l) (map h l) = map (fun x => f (g x) (h x)) l.
Proof. induction l as [| x l IH]; cbn; [reflexivity |]. rewrite IH. reflexivity. Qed.

Lemma std_nonlinearity_eq self t :
  std_nonlinearity self t
  = (inr (map (fun x => _noisy self * 2 * sigmoid (clip (-10) 10 x)
                        + (1 - _noisy self) * 0) t),
     tf_clip_by_value t (-10) 10).
Proof.
  unfold std_nonlinearity, bind, tf_nn_sigmoid, ret, tf_zeros_like, tf_clip_by_value.
  cbn [fst snd]. rewrite app_nil_r, map_map, map2_map_map. reflexivity.
Qed.

(** The standard deviation has the width of its logit.  When the layer is
    noisy for the mode it was initialised in ([noisy] when training,
    [eval_noisy] otherwise) it is [2 * sigmoid(clip(logit, -10, 10))], strictly
    between 0 and 2; otherwise it is 0 everywhere. *)
Theorem std_nonlinearity_modes :
  forall (self : Layer.t) (std_logit : tensor) (training : bool),
    Layer.float_is_training self = tf_to_float training ->
    exists std,
      outcome (std_nonlinearity self std_logit) = inr std
      /\ length std = length std_logit
      /\ if (if training then Layer.noisy self else Layer.eval_noisy self)
         then std = map (fun x => 2 * sigmoid (clip (-10) 10 x)) std_logit
              /\ Forall (fun s => 0 < s < 2) std
         else std = map (fun _ => 0) std_logit.
Proof.
  intros self t training E.
  rewrite std_nonlinearity_eq. eexists. split; [reflexivity |].
  split; [apply length_map |].
  rewrite (@_noisy_of_mode self training E).
  destruct (if training then Layer.noisy self else Layer.eval_noisy self);
    cbn [tf_to_float].
  - split.
    + apply map_ext. intros x. ring.
    + apply Forall_map. apply Forall_forall. intros x _.
      pose proof (sigmoid_range (clip (-10) 10 x)). lra.
  - apply map_ext. intros x. ring.
Qed.

Lemma std_nonlinearity_modes_witness :
  exists std,
    outcome (std_nonlinearity demo_eval_layer [3; -4]) = inr std
    /\ std = [0; 0].
Proof.
  destruct (@std_nonlinearity_modes demo_eval_layer [3; -4] false eq_refl)
    as [std [Hstd [_ Hval]]].
  exists std. split; [exact Hstd | exact Hval].
Defined.

Lemma map2_seq_ext_in A B (f g : nat -> A -> B) (l : list A) (n : nat) :
  (forall i x, In x l -> f i x = g i x) ->
  map2 f (seq n (length l)) l = map2 g (seq n (length l)) l.
Proof.
  revert n. induction l as [| x l IH]; intros n E; cbn; [reflexivity |].
  rewrite (E n x) by (left; reflexivity).
  rewrite IH by (intros i y Hy; apply E; right; exact Hy). reflexivity.
Qed.

Lemma Normal_sample_zero_scale (loc scale : tensor) (eps1 eps2 : nat -> R) :
  Forall is_zero scale ->
  Normal_sample loc scale eps1 = Normal_sample loc scale eps2.
Proof.
  intros Hz. unfold Normal_sample, imap. apply map2_seq_ext_in.
  intros i [m s] Hin. apply in_combine_r in Hin.
  rewrite Forall_forall in Hz. rewrite (Hz s Hin). cbn [fst snd]. ring.
Qed.

Lemma Forall_firstn A (P : A -> Prop) (n : nat) (l : list A) :
  Forall P l -> Forall P (firstn n l).
Proof.
  intros H. revert n. induction H as [| x l Hx _ IH]; intros [| n]; cbn;
    constructor; auto.
Qed.

Lemma Forall_skipn A (P : A -> Prop) (n : nat) (l : list A) :
  Forall P l -> Forall P (skipn n l).
Proof.
  intros H. revert n. induction H as [| x l Hx H IH]; intros [| n]; cbn;
    try constructor; auto.
Qed.

Lemma split_at_Forall (P : R -> Prop) (sizes : list nat) (t : tensor) :
  Forall P t -> Forall (Forall P) (split_at sizes t).
Proof.
  revert t. induction sizes as [| n sizes IH]; intros t H; cbn; constructor.
  - apply Forall_firstn, H.
  - apply IH, Forall_skipn, H.
Qed.

Lemma tf_split_Forall (P : R -> Prop) (num : nat) (t : tensor) (parts : list tensor) :
  Forall P t -> outcome (tf_split num t) = inr parts -> Forall (Forall P) parts.
Proof.
  intros H. unfold tf_split. destruct (_ =? _)%nat; [| discriminate].
  intros E. injection E as <-. apply split_at_Forall, H.
Qed.

Lemma split4_Forall (P : R -> Prop) (t a b c d : tensor) :
  Forall P t ->
  outcome (parts <- tf_split 4 t ;; unpack4 parts) = inr (a, b, c, d) ->
  Forall P a /\ Forall P b /\ Forall P c /\ Forall P d.
Proof.
  intros H E. apply bind_inr in E. destruct E as [parts [Es Eu]].
  pose proof (@tf_split_Forall P 4 t parts H Es) as Hp.
  destruct parts as [| p1 [| p2 [| p3 [| p4 [| p5 parts]]]]]; try discriminate Eu.
  injection Eu as <- <- <- <-.
  inversion Hp as [| ? ? H1 Hp1]; subst. inversion Hp1 as [| ? ? H2 Hp2]; subst.
  inversion Hp2 as [| ? ? H3 Hp3]; subst. inversion Hp3 as [| ? ? H4 _]; subst.
  auto.
Qed.

Lemma std_not_noisy self t std :
  _noisy self = 0 -> outcome (std_nonlinearity self t) = inr std ->
  Forall is_zero std.
Proof.
  intros Hn. rewrite std_nonlinearity_eq, Hn. intros E. injection E as <-.
  apply Forall_map. apply Forall_forall. intros x _. unfold is_zero. ring.
Qed.

Lemma blend_zero (w : R) (t : tensor) :
  Forall is_zero t ->
  Forall is_zero (map (fun s => w * tf_stop_gradient s + (1 - w) * s) t).
Proof. intros H. rewrite map_blend_id. exact H. Qed.

Lemma _build_box_noise_irrelevant self bp hw pos eps1 eps2 :
  _noisy self = 0 ->
  _build_box self bp hw pos eps1 = _build_box self bp hw pos eps2.
Proof.
  intros Hn. unfold _build_box.
  apply bind_ext; intros [mean log_std].
  apply bind_ext_on; intros std Hstd.
  apply bind_ext; intros [[[cym cxm] hm] wm].
  apply bind_ext_on; intros [[[cys cxs] hs] ws] Hsplit.
  pose proof (blend_zero (Layer.training_wheels self)
                (@std_not_noisy self log_std std Hn Hstd)) as Hzero.
  destruct (@split4_Forall is_zero _ _ _ _ _ Hzero Hsplit) as [Hcy [Hcx [Hh Hw]]].
  rewrite (@Normal_sample_zero_scale cym cys (eps_cell_y eps1) (eps_cell_y eps2) Hcy).
  rewrite (@Normal_sample_zero_scale cxm cxs (eps_cell_x eps1) (eps_cell_x eps2) Hcx).
  rewrite (@Normal_sample_zero_scale hm hs (eps_height eps1) (eps_height eps2) Hh).
  rewrite (@Normal_sample_zero_scale wm ws (eps_width eps1) (eps_width eps2) Hw).
  reflexivity.
Qed.


Lemma std_of_not_noisy self s : _noisy self = 0 -> std_of self s = 0.
Proof. intros Hn. unfold std_of. rewrite Hn. ring. Qed.

(** When the layer is not noisy the box builder takes no notice of the random
    draws nor of the standard-deviation logits: the four standard deviations
    are 0 and each box output is the rescaled sigmoid of its clipped mean. *)
Theorem box_builder_at_mean_when_not_noisy :
  forall (self : Layer.t) (m1 m2 m3 m4 s1 s2 s3 s4 : R) (hw : option (Z * Z))
         (pos : nat * nat) (eps : BoxNoise),
    _noisy self = 0 ->
    Layer.min_yx self < Layer.max_yx self ->
    Layer.min_hw self < Layer.max_hw self ->
    in_grid self hw pos ->
    exists d,
      outcome (_build_box self [m1; m2; m3; m4; s1; s2; s3; s4] hw pos eps) = inr d
      /\ cell_y d = [rescale (Layer.min_yx self) (Layer.max_yx self) m1]
      /\ cell_x d = [rescale (Layer.min_yx self) (Layer.max_yx self) m2]
      /\ height d = [rescale (Layer.min_hw self) (Layer.max_hw self) m3]
      /\ width d = [rescale (Layer.min_hw self) (Layer.max_hw self) m4]
      /\ cell_y_logit_std d = [0] /\ cell_x_logit_std d = [0]
      /\ height_logit_std d = [0] /\ width_logit_std d = [0].
Proof.
  intros self m1 m2 m3 m4 s1 s2 s3 s4 hw pos eps Hn Hyx Hhw Hgrid.
  destruct (@_build_box_closed_form self m1 m2 m3 m4 s1 s2 s3 s4 hw pos eps _ Hyx Hhw
              (cell_indices_in_grid self hw pos Hgrid))
    as [d [Hd [Hrel [[M1 [M2 [M3 M4]]] [S1 [S2 [S3 S4]]]]]]].
  rewrite (std_of_not_noisy s1 Hn) in S1. rewrite (std_of_not_noisy s2 Hn) in S2.
  rewrite (std_of_not_noisy s3 Hn) in S3. rewrite (std_of_not_noisy s4 Hn) in S4.
  exists d. split; [exact Hd |].
  destruct Hrel as [Hcy Hcx Hh Hw Hyl Hxl _ _ _ _ _ _].
  rewrite Hyl in Hh. rewrite Hxl in Hw.
  rewrite M1, S1 in Hcy. rewrite M2, S2 in Hcx.
  rewrite M3, S3 in Hh. rewrite M4, S4 in Hw.
  cbn [Normal_sample imap combine length seq map2 fst snd map] in Hcy, Hcx, Hh, Hw.
  rewrite Hcy, Hcx, Hh, Hw.
  repeat split; try assumption; do 2 f_equal; ring.
Qed.

(** In evaluation mode, with draws 1, 2, 3, 4 and standard-deviation logits 3,
    the zero means still give the midpoint 1/2 of the range [0, 1]. *)
Lemma box_builder_at_mean_when_not_noisy_witness :
  exists d,
    outcome (_build_box demo_eval_layer [0; 0; 0; 0; 3; 3; 3; 3] (Some (0%Z, 0%Z))
               (0%nat, 0%nat)
               {| eps_cell_y := fun _ => 1; eps_cell_x := fun _ => 2;
                  eps_height := fun _ => 3; eps_width := fun _ => 4 |}) = inr d
    /\ cell_y d = [1 / 2] /\ cell_x d = [1 / 2]
    /\ height d = [1 / 2] /\ width d = [1 / 2].
Proof.
  destruct (@box_builder_at_mean_when_not_noisy demo_eval_layer 0 0 0 0 3 3 3 3
              (Some (0%Z, 0%Z)) (0%nat, 0%nat)
              {| eps_cell_y := fun _ => 1; eps_cell_x := fun _ => 2;
                 eps_height := fun _ => 3; eps_width := fun _ => 4 |}
              demo_eval_layer_noisy)
    as [d [Hd [Hcy [Hcx [Hh [Hw _]]]]]].
  - cbn. lra.
  - cbn. lra.
  - exact I.
  - exists d. split; [exact Hd |].
    rewrite Hcy, Hcx, Hh, Hw.
    change (Layer.min_yx demo_eval_layer) with 0.
    change (Layer.max_yx demo_eval_layer) with 1.
    change (Layer.min_hw demo_eval_layer) with 0.
    change (Layer.max_hw demo_eval_layer) with 1.
    rewrite rescale_0. repeat split; f_equal; lra.
Defined.

(** When the layer is not noisy the presence builder samples nothing: the
    presence is the presence probability, the sigmoid of the clipped log-odds
    [logit / obj_temp], whatever the uniform draws and the Concrete sampler. *)
Theorem presence_is_probability_when_not_noisy :
  forall (ext : Externals) (self : Layer.t) (obj_logit : tensor) (u : nat -> R),
    _noisy self = 0 ->
    exists d,
      outcome (_build_obj ext self obj_logit u) = inr d
      /\ obj d = obj_prob d
      /\ obj_pre_sigmoid d = obj_log_odds d
      /\ obj d = map (fun x => sigmoid (clip (-10) 10 (x / Layer.obj_temp self)))
                     obj_logit.
Proof.
  intros ext self obj_logit u Hn.
  pose proof (_build_obj_eq ext self obj_logit u) as E. cbv zeta in E.
  rewrite (pre_sigmoid_not_noisy ext u _ Hn) in E.
  eexists. split; [rewrite E; reflexivity |]. cbn [obj obj_prob obj_pre_sigmoid obj_log_odds].
  split; [reflexivity |]. split; [reflexivity |].
  unfold tf_clip_by_value. rewrite !map_map. reflexivity.
Qed.

Lemma presence_is_probability_when_not_noisy_witness :
  exists d,
    outcome (_build_obj demo_externals demo_eval_layer [3] (fun _ => 1 / 4)) = inr d
    /\ obj d = obj_prob d.
Proof.
  destruct (@presence_is_probability_when_not_noisy demo_externals demo_eval_layer [3]
              (fun _ => 1 / 4) demo_eval_layer_noisy) as [d [Hd [Ho _]]].
  exists d. split; [exact Hd | exact Ho].
Defined.

Lemma _build_obj_noise_irrelevant ext self obj_logit u1 u2 :
  _noisy self = 0 ->
  _build_obj ext self obj_logit u1 = _build_obj ext self obj_logit u2.
Proof.
  intros Hn.
  pose proof (_build_obj_eq ext self obj_logit u1) as E1. cbv zeta in E1.
  pose proof (_build_obj_eq ext self obj_logit u2) as E2. cbv zeta in E2.
  rewrite (pre_sigmoid_not_noisy ext u1 _ Hn) in E1.
  rewrite (pre_sigmoid_not_noisy ext u2 _ Hn) in E2.
  rewrite E1, E2. reflexivity.
Qed.

Lemma build_cell_noise_irrelevant ext nets self inp inp_features is_posterior
    is_posterior_tf edge_element S noise1 noise2 hwb state :
  _noisy self = 0 ->
  build_cell ext nets self inp inp_features is_posterior is_posterior_tf edge_element S
    noise1 hwb state
  = build_cell ext nets self inp inp_features is_posterior is_posterior_tf edge_element S
      noise2 hwb state.
Proof.
  intros Hn. destruct hwb as [[h w] b]. destruct state as [program results].
  unfold build_cell. cbv zeta.
  apply bind_ext; intros context.
  apply bind_ext; intros [rep_input features].
  rewrite (@_build_box_noise_irrelevant self rep_input (Some (h, w)) (0%nat, 0%nat)
             (box_eps (noise1 h w b)) (box_eps (noise2 h w b)) Hn).
  apply bind_ext; intros _built_box.
  apply bind_ext; intros glimpse.
  apply bind_ext; intros encoded_glimpse.
  apply bind_ext; intros [[attr_mean attr_log_std] features1].
  apply bind_ext_on; intros attr_std Hattr.
  rewrite (@Normal_sample_zero_scale attr_mean attr_std (attr_eps (noise1 h w b))
             (attr_eps (noise2 h w b)) (@std_not_noisy self attr_log_std attr_std Hn Hattr)).
  apply bind_ext; intros [[z_mean z_log_std] features2].
  apply bind_ext_on; intros z_std Hz.
  pose proof (blend_zero (Layer.training_wheels self)
                (@std_not_noisy self z_log_std z_std Hn Hz)) as Hzero.
  rewrite (@Normal_sample_zero_scale _ _ (z_eps (noise1 h w b)) (z_eps (noise2 h w b))
             Hzero).
  apply bind_ext; intros z.
  rewrite (@_build_obj_noise_irrelevant ext self _ (obj_u (noise1 h w b))
             (obj_u (noise2 h w b)) Hn).
  reflexivity.
Qed.


Lemma _call_noise_irrelevant ext nets self inp inp_features is_training is_posterior
    prop_state_in noise1 noise2 :
  _noisy (prepared ext self inp inp_features is_training) = 0 ->
  _call ext nets self inp inp_features is_training is_posterior prop_state_in noise1
  = _call ext nets self inp inp_features is_training is_posterior prop_state_in noise2.
Proof.
  intros Hn. unfold _call. cbv zeta.
  set (self1 := if Layer.initialized self then self else _) in *.
  set (self2 := match Layer.edge_weights self1 with None => _ | Some _ => self1 end) in *.
  assert (E2 : self2 = prepared ext self inp inp_features is_training) by reflexivity.
  clearbody self2. clearbody self1. rewrite <- E2 in Hn.
  apply bind_ext; intros edge_element.
  apply bind_ext; intros program.
  match goal with
  | |- bind ?m _ = bind ?m' _ => assert (Em : m = m')
  end.
  { apply for_ext. intros hwb state. apply build_cell_noise_irrelevant, Hn. }
  rewrite Em. reflexivity.
Qed.

Lemma _build_obj_probability ext self obj_logit u d :
  _noisy self = 0 ->
  outcome (_build_obj ext self obj_logit u) = inr d ->
  obj d = obj_prob d.
Proof.
  intros Hn E.
  pose proof (_build_obj_eq ext self obj_logit u) as Eq. cbv zeta in Eq.
  rewrite Eq in E. cbn [outcome fst] in E. injection E as <-. cbn [obj obj_prob].
  rewrite (@pre_sigmoid_not_noisy ext self u _ Hn). reflexivity.
Qed.

(** When the prepared layer is not noisy (evaluation with [eval_noisy] off, or
    training with [noisy] off) the sequential forward pass, under its
    contract, returns the same [H * W * B] dictionaries whatever the random
    draws, and in each of them the presence is the presence probability. *)
Theorem forward_pass_deterministic_when_not_noisy :
  forall (ext : Externals) (nets : LateralNets) (self : Layer.t) (inp : Image)
         (inp_features : FeatureMap) (is_training is_posterior : bool)
         (prop_state_in : option tensor),
    call_contract ext nets self inp ->
    (1 <= fm_H inp_features)%Z ->
    (1 <= fm_W inp_features)%Z ->
    (1 <= Layer.B self)%Z ->
    _noisy (prepared ext self inp inp_features is_training) = 0 ->
    exists o,
      (forall noise : Z -> Z -> Z -> CellNoise,
          outcome (_call ext nets self inp inp_features is_training is_posterior
                     prop_state_in noise)
          = inr (prepared ext self inp inp_features is_training, o))
      /\ Z.of_nat (length (stacked o))
         = (fm_H inp_features * fm_W inp_features * Layer.B self)%Z
      /\ Forall (fun r => obj (objd r) = obj_prob (objd r)
                          /\ length (obj (objd r)) = 1%nat) (stacked o).
Proof.
  intros ext nets self inp inp_features is_training is_posterior ps Hcc HH HW HB Hn.
  destruct (@_call_returns ext nets self inp inp_features is_training is_posterior
              ps (fun _ _ _ => zero_cell_noise) Hcc HH HW HB)
    as [o [Hret [Hlen [Hok _]]]].
  exists o. split; [| split; [exact Hlen |]].
  - intros noise.
    rewrite (@_call_noise_irrelevant ext nets self inp inp_features is_training
               is_posterior ps noise (fun _ _ _ => zero_cell_noise) Hn).
    exact Hret.
  - destruct (_call_inr _ _ _ _ _ _ _ _ _ Hret) as [_ Hnet].
    rewrite Forall_forall in Hnet, Hok. apply Forall_forall. intros r Hr.
    destruct (Hnet r Hr) as [x [u Hobj]]. destruct (Hok r Hr) as [Hone _].
    split; [apply (_build_obj_probability Hn Hobj) | exact Hone].
Qed.

(** A first call in evaluation mode on a 2 by 2 grid with two slots per cell. *)
Lemma forward_pass_deterministic_when_not_noisy_witness :
  exists o,
    (forall noise : Z -> Z -> Z -> CellNoise,
        outcome (_call demo_externals demo_nets
                   (constructed demo_params (12, 12) None false)
                   demo_image demo_features false true None noise)
        = inr (prepared demo_externals (constructed demo_params (12, 12) None false)
                 demo_image demo_features false, o))
    /\ length (stacked o) = 8%nat.
Proof.
  destruct (@forward_pass_deterministic_when_not_noisy demo_externals demo_nets
              (constructed demo_params (12, 12) None false) demo_image demo_features
              false true None demo_call_contract)
    as [o [Hret [Hlen _]]].
  - cbn. lia.
  - cbn. lia.
  - cbn. lia.
  - apply (first_call_noisy demo_externals demo_params (12, 12) None false
             demo_image demo_features false).
  - exists o. split; [exact Hret |].
    change (Z.of_nat (length (stacked o)) = 8%Z) in Hlen. lia.
Defined.

(** ** What the sequential context reads *)

Section ContextReads.
Local Open Scope Z_scope.

Lemma flat_map_ext_on A X (f g : A -> list X) (l : list A) :
  (forall a, In a l -> f a = g a) -> flat_map f l = flat_map g l.
Proof.
  induction l as [| a l IH]; intros E; cbn; [reflexivity |].
  rewrite (E a) by (left; reflexivity).
  rewrite IH by (intros x Hx; apply E; right; exact Hx). reflexivity.
Qed.

Lemma out_of_bounds_false (program : ndarray) (i j : Z) :
  out_of_bounds program i j = false ->
  0 <= i < fst (fst (shape program)) /\ 0 <= j < snd (fst (shape program)).
Proof.
  unfold out_of_bounds. intros Hoob.
  apply orb_false_iff in Hoob. destruct Hoob as [Hoob H4].
  apply orb_false_iff in Hoob. destruct Hoob as [Hoob H3].
  apply orb_false_iff in Hoob. destruct Hoob as [H1 H2].
  apply Z.ltb_ge in H1, H2. rewrite Z.geb_leb in H3, H4. apply Z.leb_gt in H3, H4.
  lia.
Qed.

Lemma context_entries_agree self p1 p2 h w b edge_element :
  cell_slot self p1 h w b ->
  shape p2 = shape p1 ->
  0 <= Layer.n_lookback self ->
  (forall i j k,
      0 <= i < fst (fst (shape p1)) -> 0 <= j < snd (fst (shape p1)) ->
      0 <= k < Layer.B self -> raster_before h w b i j k ->
      item p2 i j k = item p1 i j k) ->
  context_entries self p2 h w b edge_element
  = context_entries self p1 h w b edge_element.
Proof.
  intros Hcs Hshape HL Hagree.
  assert (Hcs2 : cell_slot self p2 h w b)
    by (destruct Hcs; constructor; rewrite ?Hshape; assumption).
  rewrite (context_entries_eq edge_element Hcs), (context_entries_eq edge_element Hcs2).
  f_equal. f_equal.
  - apply flat_map_ext_on. intros idx Hidx. apply in_range in Hidx.
    apply map_ext_in. intros k Hk. apply in_range in Hk.
    unfold neighbour_entry, out_of_bounds. rewrite Hshape.
    fold (out_of_bounds p1 (window_row self h idx) (window_col self w idx)).
    destruct (out_of_bounds p1 _ _) eqn:Hoob; [reflexivity |].
    apply out_of_bounds_false in Hoob. destruct Hoob as [Hi Hj].
    apply Hagree; try assumption.
    unfold raster_before.
    destruct (window_causal self h w HL Hidx) as [Hlt | [Heq Hlt]]; [left | right; left];
      auto.
  - apply map_ext_in. intros k Hk. apply in_range in Hk.
    unfold earlier_slot_entry. destruct (_ <? 0) eqn:Hneg; [reflexivity |].
    apply Z.ltb_ge in Hneg. destruct Hcs as [Hh Hw Hb HB].
    apply Hagree; try lia. unfold raster_before. right. right. lia.
Qed.


(** The context of a cell-slot depends only on the cell-slots that precede it
    in raster-then-slot order: two program arrays of the same shape that agree
    on those give the same context, of [context_size] entries, whatever they
    hold at the current and at later cell-slots. *)
Theorem context_reads_only_earlier_slots :
  forall (self : Layer.t) (p1 p2 : ndarray) (S : nat) (h w b : Z)
         (edge_element : tensor),
    cell_slot self p1 h w b ->
    shape p2 = shape p1 ->
    0 <= Layer.n_lookback self ->
    length edge_element = S ->
    filled_before self p1 S h w b ->
    (forall i j k,
        0 <= i < fst (fst (shape p1)) -> 0 <= j < snd (fst (shape p1)) ->
        0 <= k < Layer.B self -> raster_before h w b i j k ->
        item p2 i j k = item p1 i j k) ->
    exists t,
      outcome (_get_sequential_context self p1 h w b edge_element) = inr t
      /\ outcome (_get_sequential_context self p2 h w b edge_element) = inr t
      /\ Z.of_nat (length t) = context_size self * Z.of_nat S.
Proof.
  intros self p1 p2 S h w b e Hcs Hshape HL He Hfill Hagree.
  destruct (_get_sequential_context_returns e Hcs HL He Hfill) as [t [Ht Hlen]].
  exists t. split; [rewrite Ht; reflexivity |]. split; [| exact Hlen].
  unfold _get_sequential_context in *.
  rewrite (@context_entries_agree self p1 p2 h w b e Hcs Hshape HL Hagree), Ht. reflexivity.
Qed.

(** At the cell-slot (1, 1, 1) of a 3 by 3 grid with two slots, overwriting
    the entry of that very cell-slot leaves the context as it was: 9 entries
    of width 7. *)
Lemma context_reads_only_earlier_slots_witness :
  exists t,
    outcome (_get_sequential_context demo_layer demo_program 1 1 1 (repeat 1%R 7))
    = inr t
    /\ outcome (_get_sequential_context demo_layer (store demo_program 1 1 1 [9%R])
                  1 1 1 (repeat 1%R 7)) = inr t
    /\ Z.of_nat (length t) = 63.
Proof.
  destruct (@context_reads_only_earlier_slots demo_layer demo_program
              (store demo_program 1 1 1 [9%R]) 7%nat 1 1 1 (repeat 1%R 7))
    as [t [H1 [H2 Hlen]]].
  - constructor; cbn; lia.
  - reflexivity.
  - cbn. lia.
  - reflexivity.
  - intros i j k _ _ _ _. eexists. split; reflexivity.
  - intros i j k _ _ _ Hbefore. cbn [store item].
    destruct ((i =? 1) && (j =? 1) && (k =? 1))%bool eqn:E; [| reflexivity].
    apply andb_true_iff in E. destruct E as [E Ek].
    apply andb_true_iff in E. destruct E as [Ei Ej].
    apply Z.eqb_eq in Ei, Ej, Ek. unfold raster_before in Hbefore. lia.
  - exists t. split; [exact H1 |]. split; [exact H2 |]. exact Hlen.
Defined.



(** With one slot per cell and no lookback the context is empty, for every
    program array and position. *)
Theorem context_empty_without_lookback :
  forall (self : Layer.t) (program : ndarray) (h w b : Z) (edge_element : tensor),
    Layer.n_lookback self = 0 ->
    Layer.B self = 1 ->
    _get_sequential_context self program h w b edge_element = ret []
    /\ context_size self = 0.
Proof.
  intros self program h w b e HL HB.
  unfold _get_sequential_context, context_entries, context_size. rewrite HL, HB.
  split; reflexivity.
Qed.

Lemma context_empty_without_lookback_witness :
  _get_sequential_context solo_layer empty_program 2 2 0 (repeat 1%R 7) = ret [].
Proof.
  apply (@context_empty_without_lookback solo_layer empty_program 2 2 0 (repeat 1%R 7));
    reflexivity.
Defined.

End ContextReads.

(** ** Counts, the empty grid and the prior mode *)

Lemma tf_round_near (x : R) :
  unit_interval x -> - (1 / 2) <= tf_round x - x <= 1 / 2.
Proof.
  unfold unit_interval, tf_round. intros [H0 H1].
  destruct (base_Int_part x) as [Hlo Hhi].
  assert (Hf : Int_part x = 0%Z \/ Int_part x = 1%Z).
  { assert (Ha : -1 < IZR (Int_part x)) by lra.
    assert (Hb : IZR (Int_part x) < 2) by lra.
    apply lt_IZR in Ha, Hb. lia. }
  destruct Hf as [Hf | Hf]; rewrite Hf in *; cbn [Z.even Z.add];
    repeat destruct (Rlt_dec _ _); cbn [Z.add] in *; lra.
Qed.

Lemma soft_count_bounds (results : list Built) :
  Forall presence_ok results ->
  0 <= reduce_sum_12 (map (fun r => obj (objd r)) results) <= INR (length results)
  /\ - (INR (length results) / 2)
     <= reduce_sum_12 (map (map tf_round) (map (fun r => obj (objd r)) results))
        - reduce_sum_12 (map (fun r => obj (objd r)) results)
     <= INR (length results) / 2.
Proof.
  unfold reduce_sum_12.
  induction 1 as [| r results [Hlen Hunit] _ [[IH0 IH1] IH2]].
  - cbn. lra.
  - cbn [map length]. rewrite S_INR.
    change (reduce_sum (?x :: ?l)) with (x + reduce_sum l).
    destruct (obj (objd r)) as [| x [| y l]]; try discriminate Hlen.
    inversion Hunit as [| ? ? Hx _]; subst.
    cbn [map reduce_sum fold_right].
    pose proof (tf_round_near Hx) as Hnear. unfold unit_interval in Hx.
    lra.
Qed.

Lemma _call_inr_counts ext nets self inp inp_features is_training is_posterior
    prop_state_in noise self' o :
  outcome (_call ext nets self inp inp_features is_training is_posterior
             prop_state_in noise) = inr (self', o) ->
  prop_state o = tiled (Layer.HWB self') prop_state_in
  /\ prior_prop_state o = tiled (Layer.HWB self') prop_state_in
  /\ pred_n_objects o = reduce_sum_12 (objects_obj o).
Proof.
  intros E. unfold _call in E. cbv zeta in E.
  set (self1 := if Layer.initialized self then self else _) in E.
  set (self2 := match Layer.edge_weights self1 with None => _ | Some _ => self1 end) in E.
  clearbody self2. clearbody self1.
  inv_bind E as edge_element Eedge.
  inv_bind E as program Eprog.
  inv_bind E as [program' results] Eloop.
  destruct results as [| r results]; [discriminate E |].
  cbn in E. injection E as <- <-.
  cbn [prop_state prior_prop_state pred_n_objects]. unfold tiled.
  repeat split; reflexivity.
Qed.

(** Under its contract the forward pass returns a soft predicted object count
    that is the sum of the [H * W * B] presence values, each in [0, 1]: it lies
    between 0 and [H * W * B], and the hard count is within [H * W * B / 2] of
    it. *)
Theorem soft_count_bounded :
  forall (ext : Externals) (nets : LateralNets) (self : Layer.t) (inp : Image)
         (inp_features : FeatureMap) (is_training is_posterior : bool)
         (prop_state_in : option tensor) (noise : Z -> Z -> Z -> CellNoise),
    call_contract ext nets self inp ->
    (1 <= fm_H inp_features)%Z ->
    (1 <= fm_W inp_features)%Z ->
    (1 <= Layer.B self)%Z ->
    exists o,
      outcome (_call ext nets self inp inp_features is_training is_posterior
                 prop_state_in noise)
      = inr (prepared ext self inp inp_features is_training, o)
      /\ pred_n_objects o = reduce_sum_12 (objects_obj o)
      /\ Z.of_nat (length (objects_obj o))
         = (fm_H inp_features * fm_W inp_features * Layer.B self)%Z
      /\ Forall (fun p => length p = 1%nat /\ Forall unit_interval p) (objects_obj o)
      /\ 0 <= pred_n_objects o
         <= IZR (fm_H inp_features * fm_W inp_features * Layer.B self)
      /\ Rabs (pred_n_objects_hard o - pred_n_objects o)
         <= IZR (fm_H inp_features * fm_W inp_features * Layer.B self) / 2.
Proof.
  intros ext nets self inp inp_features is_training is_posterior ps noise
         Hcc HH HW HB.
  destruct (@_call_returns ext nets self inp inp_features is_training is_posterior
              ps noise Hcc HH HW HB) as [o [Hret [Hlen [Hok [Hsoft Hhard]]]]].
  exists o. split; [exact Hret |]. split; [exact Hsoft |].
  unfold objects_obj in *. rewrite length_map.
  split; [exact Hlen |].
  split; [apply Forall_map; exact Hok |].
  destruct (soft_count_bounds Hok) as [Hb Hd].
  rewrite Hsoft, Hhard, <- Hlen, <- INR_IZR_INZ.
  split; [exact Hb |]. apply Rabs_le. lra.
Qed.

Lemma soft_count_all_half (results : list Built) :
  Forall (fun r => obj (objd r) = [1 / 2]) results ->
  reduce_sum_12 (map (fun r => obj (objd r)) results) = INR (length results) / 2.
Proof.
  unfold reduce_sum_12. induction 1 as [| r results Hr _ IH].
  - cbn. lra.
  - cbn [map length]. rewrite S_INR, Hr.
    change (reduce_sum (?x :: ?l)) with (x + reduce_sum l).
    rewrite IH. cbn [reduce_sum fold_right]. lra.
Qed.

(** On a 2 by 2 grid with two slots per cell, in evaluation mode and with
    presence logits 0, every presence is 1/2 and the soft count is 4. *)
Lemma soft_count_bounded_witness :
  exists o,
    outcome (_call demo_externals demo_nets (constructed demo_params (12, 12) None false)
               demo_image demo_features false true None (fun _ _ _ => zero_cell_noise))
    = inr (prepared demo_externals (constructed demo_params (12, 12) None false)
             demo_image demo_features false, o)
    /\ pred_n_objects o = 4.
Proof.
  destruct (@soft_count_bounded demo_externals demo_nets
              (constructed demo_params (12, 12) None false) demo_image demo_features
              false true None (fun _ _ _ => zero_cell_noise) demo_call_contract)
    as [o [Hret [Hsoft [Hlen _]]]].
  - cbn. lia.
  - cbn. lia.
  - cbn. lia.
  - exists o. split; [exact Hret |].
    unfold objects_obj in Hsoft, Hlen. rewrite length_map in Hlen.
    assert (Hl : length (stacked o) = 8%nat).
    { change (Z.of_nat (length (stacked o)) = 8%Z) in Hlen. lia. }
    destruct (_call_inr _ _ _ _ _ _ _ _ _ Hret) as [_ Hnet].
    rewrite Hsoft, soft_count_all_half.
    + rewrite Hl. cbn [INR]. lra.
    + apply Forall_impl with (2 := Hnet). intros r [x [u Hr]].
      rewrite (@_build_obj_not_noisy _ _ _ _ _
                 (first_call_noisy demo_externals demo_params (12, 12) None false
                    demo_image demo_features false) Hr).
      change (obj_network demo_nets x 1%nat _) with [0].
      cbn [map].
      change (Layer.obj_temp _) with 1.
      replace (0 / 1) with 0 by lra.
      rewrite clip_id by lra. rewrite sigmoid_0. reflexivity.
Defined.

Lemma product3_empty (H W B : Z) :
  (H * W * B = 0)%Z -> (0 <= H)%Z -> (0 <= W)%Z -> (0 <= B)%Z ->
  product3 (range H) (range W) (range B) = [].
Proof.
  intros E HH HW HB. apply length_zero_iff_nil.
  rewrite length_product3, !length_range. nia.
Qed.

(** A grid without cell-slots ([H], [W] or the number of slots per cell is 0)
    leaves the list of results empty, and the forward pass raises
    [IndexError] when it reads [results[0]]. *)
Theorem empty_grid_raises_index_error :
  forall (ext : Externals) (nets : LateralNets) (self : Layer.t) (inp : Image)
         (inp_features : FeatureMap) (is_training is_posterior : bool)
         (prop_state_in : option tensor) (noise : Z -> Z -> Z -> CellNoise),
    (forall n, length (get_variable ext n) = n) ->
    (forall ew, Layer.edge_weights self = Some ew -> length ew = sample_size self) ->
    (0 <= fm_H inp_features)%Z ->
    (0 <= fm_W inp_features)%Z ->
    (0 <= Layer.B self)%Z ->
    (fm_H inp_features * fm_W inp_features * Layer.B self = 0)%Z ->
    outcome (_call ext nets self inp inp_features is_training is_posterior
               prop_state_in noise) = inl IndexError.
Proof.
  intros ext nets self inp inp_features is_training is_posterior ps noise
         Hvar Hedge HH HW HB Hzero.
  destruct (@prepared_edge_weights ext self inp inp_features is_training Hvar Hedge)
    as [Hp [HBp [ew [Hew Hewlen]]]].
  unfold _call. cbv zeta.
  set (self1 := if Layer.initialized self then self else _).
  set (self2 := match Layer.edge_weights self1 with None => _ | Some _ => self1 end).
  assert (E2 : self2 = prepared ext self inp inp_features is_training) by reflexivity.
  assert (HA1 : Layer.A self1 = Layer.A self)
    by (unfold self1; destruct (Layer.initialized self); reflexivity).
  clearbody self2. subst self2. clearbody self1.
  set (self2 := prepared ext self inp inp_features is_training) in *.
  rewrite HA1, Hew. fold (sample_size self).
  destruct (@build_edge_element_returns (Layer.A self) ew Hewlen) as [e [He Helen]].
  rewrite (bind_ok _ _ He).
  rewrite np_empty_returns by lia. rewrite bind_ret_l.
  rewrite product3_empty by (rewrite ?HBp; assumption).
  cbn [for_]. rewrite bind_ret_l. reflexivity.
Qed.

Lemma empty_grid_raises_index_error_witness :
  outcome (_call demo_externals demo_nets (constructed demo_params (12, 12) None false)
             demo_image no_features true true None (fun _ _ _ => zero_cell_noise))
  = inl IndexError.
Proof.
  apply empty_grid_raises_index_error.
  - intros n. apply repeat_length.
  - intros ew Hew. discriminate Hew.
  - cbn. lia.
  - cbn. lia.
  - cbn. lia.
  - reflexivity.
Defined.

Lemma set_initialized_same_shape self inp1 inp2 H W HWB is_training :
  im_height inp1 = im_height inp2 ->
  im_width inp1 = im_width inp2 ->
  im_depth inp1 = im_depth inp2 ->
  set_initialized self inp1 H W HWB is_training
  = set_initialized self inp2 H W HWB is_training.
Proof. intros Eh Ew Ed. unfold set_initialized. rewrite Eh, Ew, Ed. reflexivity. Qed.

Lemma build_cell_prior_image ext nets self inp1 inp2 inp_features is_posterior_tf
    edge_element S noise hwb state :
  build_cell ext nets self inp1 inp_features false is_posterior_tf edge_element S
    noise hwb state
  = build_cell ext nets self inp2 inp_features false is_posterior_tf edge_element S
      noise hwb state.
Proof. destruct hwb as [[h w] b]. destruct state as [program results]. reflexivity. Qed.

Lemma _call_prior_image ext nets self inp1 inp2 inp_features is_training
    prop_state_in noise :
  im_height inp1 = im_height inp2 ->
  im_width inp1 = im_width inp2 ->
  im_depth inp1 = im_depth inp2 ->
  _call ext nets self inp1 inp_features is_training false prop_state_in noise
  = _call ext nets self inp2 inp_features is_training false prop_state_in noise.
Proof.
  intros Eh Ew Ed. unfold _call. cbv zeta.
  rewrite (@set_initialized_same_shape self inp1 inp2 _ _ _ is_training Eh Ew Ed).
  set (self1 := if Layer.initialized self then self else _).
  set (self2 := match Layer.edge_weights self1 with None => _ | Some _ => self1 end).
  clearbody self2. clearbody self1.
  apply bind_ext; intros edge_element.
  apply bind_ext; intros program.
  match goal with
  | |- bind ?m _ = bind ?m' _ => assert (Em : m = m')
  end.
  { apply for_ext. intros hwb state. apply build_cell_prior_image. }
  rewrite Em. reflexivity.
Qed.

(** In prior mode ([is_posterior] false) the forward pass does not look at
    the pixels: for two images of the same shape it returns, under its
    contract, the same layer and the same [H * W * B] dictionaries. *)
Theorem prior_mode_ignores_image :
  forall (ext : Externals) (nets : LateralNets) (self : Layer.t) (inp1 inp2 : Image)
         (inp_features : FeatureMap) (is_training : bool)
         (prop_state_in : option tensor) (noise : Z -> Z -> Z -> CellNoise),
    im_height inp1 = im_height inp2 ->
    im_width inp1 = im_width inp2 ->
    im_depth inp1 = im_depth inp2 ->
    call_contract ext nets self inp1 ->
    (1 <= fm_H inp_features)%Z ->
    (1 <= fm_W inp_features)%Z ->
    (1 <= Layer.B self)%Z ->
    exists o,
      outcome (_call ext nets self inp1 inp_features is_training false
                 prop_state_in noise)
      = inr (prepared ext self inp1 inp_features is_training, o)
      /\ outcome (_call ext nets self inp2 inp_features is_training false
                    prop_state_in noise)
         = inr (prepared ext self inp1 inp_features is_training, o)
      /\ Z.of_nat (length (stacked o))
         = (fm_H inp_features * fm_W inp_features * Layer.B self)%Z.
Proof.
  intros ext nets self inp1 inp2 inp_features is_training ps noise Eh Ew Ed
         Hcc HH HW HB.
  destruct (@_call_returns ext nets self inp1 inp_features is_training false
              ps noise Hcc HH HW HB) as [o [Hret [Hlen _]]].
  exists o. split; [exact Hret |]. split; [| exact Hlen].
  rewrite <- (@_call_prior_image ext nets self inp1 inp2 inp_features is_training
                ps noise Eh Ew Ed).
  exact Hret.
Qed.

(** A black and a white one-pixel image. *)
Lemma prior_mode_ignores_image_witness :
  exists o,
    outcome (_call demo_externals demo_nets (constructed demo_params (12, 12) None false)
               demo_image demo_features true false None (fun _ _ _ => zero_cell_noise))
    = inr (prepared demo_externals (constructed demo_params (12, 12) None false)
             demo_image demo_features true, o)
    /\ outcome (_call demo_externals demo_nets
                  (constructed demo_params (12, 12) None false)
                  white_image demo_features true false None
                  (fun _ _ _ => zero_cell_noise))
       = inr (prepared demo_externals (constructed demo_params (12, 12) None false)
                demo_image demo_features true, o)
    /\ length (stacked o) = 8%nat.
Proof.
  destruct (@prior_mode_ignores_image demo_externals demo_nets
              (constructed demo_params (12, 12) None false) demo_image white_image
              demo_features true None (fun _ _ _ => zero_cell_noise)
              eq_refl eq_refl eq_refl demo_call_contract)
    as [o [H1 [H2 Hlen]]].
  - cbn. lia.
  - cbn. lia.
  - cbn. lia.
  - exists o. split; [exact H1 |]. split; [exact H2 |].
    change (Z.of_nat (length (stacked o)) = 8%Z) in Hlen. lia.
Defined.

Lemma prepared_HWB ext self inp inp_features is_training :
  Layer.HWB (prepared ext self inp inp_features is_training)
  = if Layer.initialized self then Layer.HWB self
    else (fm_H inp_features * fm_W inp_features * Layer.B self)%Z.
Proof.
  unfold prepared. destruct (Layer.initialized self).
  - destruct (Layer.edge_weights self); reflexivity.
  - cbn [Layer.edge_weights set_initialized].
    destruct (Layer.edge_weights self); reflexivity.
Qed.

(** The recurrent state passed to the forward pass is handed back tiled once
    per cell-slot of the grid cached by the first call: [H * W * B] copies on a
    first call, and the cached [HWB] copies on later calls, whatever the shape
    of the feature map then; without a state none is returned. *)
Theorem recurrent_state_tiled_by_cached_grid :
  forall (ext : Externals) (nets : LateralNets) (self : Layer.t) (inp : Image)
         (inp_features : FeatureMap) (is_training is_posterior : bool)
         (prop_state_in : option tensor) (noise : Z -> Z -> Z -> CellNoise),
    call_contract ext nets self inp ->
    (1 <= fm_H inp_features)%Z ->
    (1 <= fm_W inp_features)%Z ->
    (1 <= Layer.B self)%Z ->
    exists o,
      outcome (_call ext nets self inp inp_features is_training is_posterior
                 prop_state_in noise)
      = inr (prepared ext self inp inp_features is_training, o)
      /\ prop_state o
         = tiled (if Layer.initialized self then Layer.HWB self
                  else (fm_H inp_features * fm_W inp_features * Layer.B self)%Z)
                 prop_state_in
      /\ prior_prop_state o = prop_state o
      /\ Z.of_nat (length (stacked o))
         = (fm_H inp_features * fm_W inp_features * Layer.B self)%Z.
Proof.
  intros ext nets self inp inp_features is_training is_posterior ps noise
         Hcc HH HW HB.
  destruct (@_call_returns ext nets self inp inp_features is_training is_posterior
              ps noise Hcc HH HW HB) as [o [Hret [Hlen _]]].
  exists o. split; [exact Hret |].
  destruct (_call_inr_counts _ _ _ _ _ _ _ _ _ Hret) as [Hps [Hpps _]].
  rewrite prepared_HWB in Hps, Hpps.
  split; [exact Hps |]. split; [rewrite Hps; exact Hpps | exact Hlen].
Qed.

(** A first call on a 2 by 2 grid with two slots per cell: eight copies. *)
Lemma recurrent_state_tiled_by_cached_grid_witness :
  exists o,
    outcome (_call demo_externals demo_nets (constructed demo_params (12, 12) None false)
               demo_image demo_features true true (Some [1; 2])
               (fun _ _ _ => zero_cell_noise))
    = inr (prepared demo_externals (constructed demo_params (12, 12) None false)
             demo_image demo_features true, o)
    /\ prop_state o = Some (repeat [1; 2] 8).
Proof.
  destruct (@recurrent_state_tiled_by_cached_grid demo_externals demo_nets
              (constructed demo_params (12, 12) None false) demo_image demo_features
              true true (Some [1; 2]) (fun _ _ _ => zero_cell_noise) demo_call_contract)
    as [o [Hret [Hps _]]].
  - cbn. lia.
  - cbn. lia.
  - cbn. lia.
  - exists o. split; [exact Hret |]. rewrite Hps. reflexivity.
Defined.

(** ** The dictionaries of the forward pass, cell by cell *)

Lemma split2_inr (n1 n2 : nat) (t a b : tensor) :
  outcome (parts <- tf_split_sizes [n1; n2] t ;; unpack2 parts) = inr (a, b) ->
  a = firstn n1 t /\ length t = (n1 + n2)%nat.
Proof.
  intros E. apply bind_inr in E. destruct E as [parts [Es Eu]].
  unfold tf_split_sizes in Es. destruct (_ =? _)%nat eqn:Hlen; [| discriminate Es].
  apply Nat.eqb_eq in Hlen. cbn in Hlen.
  injection Es as <-. cbn in Eu. injection Eu as <- <-.
  split; [reflexivity | lia].
Qed.

Lemma split3_inr (n1 n2 n3 : nat) (t a b c : tensor) :
  outcome (parts <- tf_split_sizes [n1; n2; n3] t ;; unpack3 parts) = inr (a, b, c) ->
  a = firstn n1 t /\ b = firstn n2 (skipn n1 t) /\ length t = (n1 + n2 + n3)%nat.
Proof.
  intros E. apply bind_inr in E. destruct E as [parts [Es Eu]].
  unfold tf_split_sizes in Es. destruct (_ =? _)%nat eqn:Hlen; [| discriminate Es].
  apply Nat.eqb_eq in Hlen. cbn in Hlen.
  injection Es as <-. cbn in Eu. injection Eu as <- <- <-.
  repeat split; lia.
Qed.

Lemma _build_box_inr_eight self bp h w pos eps d :
  length bp = 8%nat ->
  outcome (_build_box self bp (Some (h, w)) pos eps) = inr d ->
  box_relations self eps (IZR h) (IZR w) d
  /\ Layer.min_yx self < Layer.max_yx self
  /\ Layer.min_hw self < Layer.max_hw self
  /\ length (cell_y d) = 1%nat /\ length (cell_x d) = 1%nat
  /\ length (height d) = 1%nat /\ length (width d) = 1%nat.
Proof.
  intros Hlen Hd.
  destruct (_build_box_inr _ _ _ _ _ Hd) as [Hyx [Hhw _]].
  eight bp Hlen.
  destruct (@_build_box_closed_form self m1 m2 m3 m4 s1 s2 s3 s4 (Some (h, w)) pos eps
              (IZR h, IZR w) Hyx Hhw eq_refl)
    as [d' [Hd' [Hrel [[M1 [M2 [M3 M4]]] [S1 [S2 [S3 S4]]]]]]].
  rewrite Hd in Hd'. injection Hd' as <-.
  split; [exact Hrel |]. split; [exact Hyx |]. split; [exact Hhw |].
  destruct Hrel as [Hcy Hcx Hh Hw Hyl Hxl _ _ _ _ _ _].
  rewrite Hyl in Hh. rewrite Hxl in Hw.
  rewrite Hcy, Hcx, Hh, Hw, M1, M2, M3, M4, S1, S2, S3, S4.
  repeat split; reflexivity.
Qed.

Lemma build_cell_inr_cell ext nets self inp inp_features is_posterior is_posterior_tf
    edge_element S noise h w b program results state' :
  outcome (build_cell ext nets self inp inp_features is_posterior is_posterior_tf
             edge_element S noise (h, w, b) (program, results)) = inr state' ->
  exists built, snd state' = results ++ [built] /\ cell_ok self h w built.
Proof.
  intros E. unfold build_cell in E. cbv zeta in E.
  inv_bind E as context Ectx.
  inv_bind E as [rep_input features] Esplit.
  inv_bind E as _built_box Ebox.
  inv_bind E as glimpse Eg.
  inv_bind E as encoded Eenc.
  inv_bind E as [[attr_mean attr_log_std] features1] Eattr.
  inv_bind E as attr_std Eastd.
  inv_bind E as [[z_mean z_log_std] features2] Ez.
  inv_bind E as z_std Ezstd.
  inv_bind E as z Ezz.
  inv_bind E as _built_obj Eobj.
  inv_bind E as program' Eset.
  inv_bind E as u Eassert.
  cbn in E. injection E as <-. cbn [snd].
  eexists. split; [reflexivity |].
  destruct (@split2_inr _ _ _ _ _ Esplit) as [Hrep Hnet].
  assert (Hlen8 : length rep_input = 8%nat) by (rewrite Hrep, length_firstn; lia).
  destruct (@_build_box_inr_eight _ _ _ _ _ _ _ Hlen8 Ebox)
    as [Hrel [Hyx [Hhw [L1 [L2 [L3 L4]]]]]].
  destruct (@split3_inr _ _ _ _ _ _ _ Ez) as [Hzm [Hzs Hznet]].
  match type of Eobj with
  | outcome (_build_obj ?e ?s ?l ?u) = _ =>
      pose proof (_build_obj_eq e s l u) as Eq
  end.
  cbv zeta in Eq. rewrite Eq in Eobj. cbn [outcome fst] in Eobj. injection Eobj as <-.
  unfold z_nonlinearity, tf_nn_sigmoid in Ezz. cbn [outcome fst] in Ezz.
  injection Ezz as <-.
  destruct Hrel as [Hcy Hcx Hh Hw Hyl Hxl Hyt Hxt Hys Hxs _ _].
  rewrite Hyl in Hh. rewrite Hxl in Hw.
  constructor; cbn [box z objd obj]; try assumption.
  - repeat split; try assumption.
    unfold tf_clip_by_value. rewrite !length_map, length_Normal_sample.
    rewrite std_nonlinearity_eq in Ezstd. cbn [outcome fst] in Ezstd.
    injection Ezstd as <-. rewrite !length_map, Hzm, Hzs.
    rewrite !length_firstn, length_skipn. lia.
  - rewrite Hcy. apply map_rescale_within, Hyx.
  - rewrite Hcx. apply map_rescale_within, Hyx.
  - rewrite Hh. apply map_rescale_within, Hhw.
  - rewrite Hw. apply map_rescale_within, Hhw.
  - apply Forall_map. apply Forall_forall. intros v _. apply sigmoid_range.
  - apply map_sigmoid_unit.
Qed.

Lemma for_Forall2 A X S (results : S -> list X) (Q : A -> X -> Prop)
    (xs : list A) (body : A -> S -> M S) :
  (forall x s s1, outcome (body x s) = inr s1 ->
                  exists y, results s1 = results s ++ [y] /\ Q x y) ->
  forall s0 s', outcome (for_ xs body s0) = inr s' ->
  exists ys, results s' = results s0 ++ ys /\ Forall2 Q xs ys.
Proof.
  intros Hstep. induction xs as [| x xs IH]; intros s0 s' E.
  - cbn in E. injection E as <-. exists []. rewrite app_nil_r. split; constructor.
  - cbn [for_] in E. apply bind_inr in E. destruct E as [s1 [E1 E]].
    destruct (Hstep x s0 s1 E1) as [y [Hy HQ]].
    destruct (IH s1 s' E) as [ys [Hys HF]].
    exists (y :: ys). split; [| constructor; assumption].
    rewrite Hys, Hy, <- app_assoc. reflexivity.
Qed.

Lemma _call_inr_cells ext nets self inp inp_features is_training is_posterior
    prop_state_in noise self' o :
  outcome (_call ext nets self inp inp_features is_training is_posterior
             prop_state_in noise) = inr (self', o) ->
  Forall2 (fun hwb built => cell_ok self' (fst (fst hwb)) (snd (fst hwb)) built)
    (product3 (range (fm_H inp_features)) (range (fm_W inp_features))
              (range (Layer.B self')))
    (stacked o).
Proof.
  intros E. unfold _call in E. cbv zeta in E.
  set (self1 := if Layer.initialized self then self else _) in E.
  set (self2 := match Layer.edge_weights self1 with None => _ | Some _ => self1 end) in E.
  clearbody self2. clearbody self1.
  inv_bind E as edge_element Eedge.
  inv_bind E as program Eprog.
  inv_bind E as [program' results] Eloop.
  apply (@for_Forall2 _ _ _ (@snd ndarray (list Built))
           (fun hwb built => cell_ok self2 (fst (fst hwb)) (snd (fst hwb)) built))
    in Eloop.
  - destruct Eloop as [ys [Hys HF]]. cbn [snd app] in Hys. subst ys.
    destruct results as [| r results]; [discriminate E |].
    cbn in E. injection E as <- <-. exact HF.
  - intros [[h w] b] [pr rs] s1 Hbody. cbn [fst snd].
    apply (@build_cell_inr_cell _ _ _ _ _ _ _ _ _ _ _ _ _ _ _ _ Hbody).
Qed.

Lemma Forall2_nth_error A X (Q : A -> X -> Prop) (xs : list A) (ys : list X)
    (n : nat) (x : A) :
  Forall2 Q xs ys -> nth_error xs n = Some x ->
  exists y, nth_error ys n = Some y /\ Q x y.
Proof.
  intros HF. revert n. induction HF as [| a y xs ys Hq _ IH]; intros [| n] E;
    try discriminate E.
  - injection E as <-. exists y. split; [reflexivity | exact Hq].
  - apply (IH n E).
Qed.

(** Under its contract the forward pass returns its dictionaries in the order
    of the loop, rows, then columns, then slots: the dictionary at position
    [(h * W + w) * B + b] is that of cell [(h, w)], with one box whose center
    is within [[min_yx, max_yx]] of the cell and normalized from the cell's
    own indices, a size within [[min_hw, max_hw]], one depth strictly between
    0 and 1 and one presence in [0, 1]. *)
Theorem results_follow_the_grid :
  forall (ext : Externals) (nets : LateralNets) (self : Layer.t) (inp : Image)
         (inp_features : FeatureMap) (is_training is_posterior : bool)
         (prop_state_in : option tensor) (noise : Z -> Z -> Z -> CellNoise),
    call_contract ext nets self inp ->
    (1 <= fm_H inp_features)%Z ->
    (1 <= fm_W inp_features)%Z ->
    (1 <= Layer.B self)%Z ->
    exists o,
      outcome (_call ext nets self inp inp_features is_training is_posterior
                 prop_state_in noise)
      = inr (prepared ext self inp inp_features is_training, o)
      /\ Forall2
           (fun hwb built =>
              cell_ok (prepared ext self inp inp_features is_training)
                      (fst (fst hwb)) (snd (fst hwb)) built)
           (product3 (range (fm_H inp_features)) (range (fm_W inp_features))
                     (range (Layer.B self)))
           (stacked o)
      /\ Forall presence_ok (stacked o).
Proof.
  intros ext nets self inp inp_features is_training is_posterior ps noise
         Hcc HH HW HB.
  destruct (@_call_returns ext nets self inp inp_features is_training is_posterior
              ps noise Hcc HH HW HB) as [o [Hret [_ [Hok _]]]].
  exists o. split; [exact Hret |]. split; [| exact Hok].
  destruct (@prepared_contract ext nets self inp inp_features is_training Hcc)
    as [_ [HBp _]].
  rewrite <- HBp. apply (@_call_inr_cells _ _ _ _ _ _ _ _ _ _ _ Hret).
Qed.

(** On a 2 by 2 grid with two slots per cell and 12 pixels per cell, the last
    of the eight dictionaries is that of cell (1, 1). *)
Lemma results_follow_the_grid_witness :
  exists o r,
    outcome (_call demo_externals demo_nets (constructed demo_params (12, 12) None false)
               demo_image demo_features true true None (fun _ _ _ => zero_cell_noise))
    = inr (prepared demo_externals (constructed demo_params (12, 12) None false)
             demo_image demo_features true, o)
    /\ nth_error (stacked o) 7 = Some r
    /\ length (cell_y (box r)) = 1%nat
    /\ yt (box r) = map (to_anchor 12 0 1 1) (cell_y (box r))
    /\ xt (box r) = map (to_anchor 12 0 1 1) (cell_x (box r)).
Proof.
  destruct (@results_follow_the_grid demo_externals demo_nets
              (constructed demo_params (12, 12) None false) demo_image demo_features
              true true None (fun _ _ _ => zero_cell_noise) demo_call_contract)
    as [o [Hret [Hcells _]]].
  - cbn. lia.
  - cbn. lia.
  - cbn. lia.
  - destruct (@Forall2_nth_error _ _ _ _ _ 7%nat (1%Z, 1%Z, 1%Z) Hcells eq_refl)
      as [r [Hr Hok]].
    exists o, r. split; [exact Hret |]. split; [exact Hr |].
    destruct Hok as [[L1 _] _ _ _ _ Hyt Hxt _ _ _ _].
    split; [exact L1 |]. split; [exact Hyt | exact Hxt].
Defined.
